(** * Annotation overlay, tutorial player and annotation routes

    A shallow embedding of three parts of the application:

    - [Projector] and [Overlay]: the overlay script of
      [AnnotationViewer.tsx] ([updateAnnotationPositions], its message
      listener, polling and render loop), and [Host], the component around
      the frame;
    - [Player]: the shared-tutorial page ([SharedTutorialPage]) with its step
      index, completed set, proximity check, [markComplete] and navigation,
      after the copy of the page that has the completion checks;
      [SecondPlayer] has the [markComplete] of the copy without them;
    - [Routes], [SecondRoutes] and [RouteRest]: the handlers of the two
      annotation route files over the [annotation] table.

    Numbers.  The coordinates, screen positions and distances of the overlay
    and of the page are JavaScript numbers: IEEE 754 binary64 values, every
    operation rounded to nearest-even, with signed zeros, infinities and NaN
    ([Number]).  Indices, orders, time stamps and pixel sizes of the canvas
    are integers ([Z]).  The coordinates the routes store, on which no
    arithmetic is done, are rationals ([Q]), and so is the ratio behind the
    progress percentage. *)

From Stdlib Require Import ZArith QArith Qround Lia Lqa SpecFloat.
From stdpp Require Import base gmap sets list strings pretty sorting.

Set Default Proof Using "Type".

(** ** Numbers *)

Module Number.

(** A [number] is a binary64 value, in the Standard Library's specification
    of IEEE 754 arithmetic: a zero or an infinity with its sign, NaN, or a
    finite [(-1)^s * m * 2^e]. *)
Definition number : Type := spec_float.
Definition prec : Z := 53.
Definition emax : Z := 1024.

Definition NaN : number := S754_nan.

(** The double nearest to [m * 2^e]; exactly that value when [m] has at
    most 53 bits. *)
Definition double (m e : Z) : number := binary_normalize prec emax m e false.

(** An integer literal. *)
Definition of_Z (n : Z) : number := double n 0.

Definition add : number -> number -> number := SFadd prec emax.
Definition sub : number -> number -> number := SFsub prec emax.
Definition mul : number -> number -> number := SFmul prec emax.
Definition div : number -> number -> number := SFdiv prec emax.
Definition neg : number -> number := SFopp.

(** [a < b] and [a <= b]; [a > b] is [b < a].  Every comparison with NaN is
    false. *)
Definition ltb : number -> number -> bool := SFltb.
Definition leb : number -> number -> bool := SFleb.

(** A decimal literal [n / d] with [d] a power of ten and both below 2^53:
    the division rounds once, to the double a parser gives for it. *)
Definition decimal (n d : Z) : number := div (of_Z n) (of_Z d).

Definition is_nan (a : number) : bool :=
  match a with
  | S754_nan => true
  | _ => false
  end.

Definition is_finite (a : number) : bool :=
  match a with
  | S754_zero _ | S754_finite _ _ _ => true
  | _ => false
  end.

(** [Math.sqrt]: the correctly rounded square root of the hardware. *)
Definition Math_sqrt : number -> number := SFsqrt prec emax.

(** [Math.pow(a, 2)].  ECMAScript leaves the precision of [Math.pow] to the
    implementation; V8 and SpiderMonkey return the product [a * a] for the
    exponent 2, which is what is taken here. *)
Definition Math_pow2 (a : number) : number := mul a a.

(** [Math.max(a, b)] and [Math.min(a, b)]: NaN if either is NaN, and [-0]
    counts as smaller than [+0]. *)
Definition Math_max (a b : number) : number :=
  if is_nan a || is_nan b then NaN
  else if ltb a b then b
  else if ltb b a then a
  else match a with
       | S754_zero true => b
       | _ => a
       end.

Definition Math_min (a b : number) : number :=
  if is_nan a || is_nan b then NaN
  else if ltb a b then a
  else if ltb b a then b
  else match a with
       | S754_zero false => b
       | _ => a
       end.

Definition lt (a b : number) : Prop := ltb a b = true.
Definition le (a b : number) : Prop := leb a b = true.

(** The rational a finite value stands for (0 for the others). *)
Definition to_Q (a : number) : Q :=
  match a with
  | S754_finite s m e =>
      ((if s then -1 else 1) * inject_Z (Z.pos m) * Qpower 2 e)%Q
  | _ => 0%Q
  end.

(** Where a value that is not NaN stands in the order: the sign class,
    then exponent and mantissa (both negated for negative values).  Both
    zeros share a place. *)
Definition key (a : number) : Z * Z * Z :=
  match a with
  | S754_infinity true => (-2, 0, 0)
  | S754_finite true m e => (-1, - e, Z.neg m)
  | S754_zero _ | S754_nan => (0, 0, 0)
  | S754_finite false m e => (1, e, Z.pos m)
  | S754_infinity false => (2, 0, 0)
  end%Z.

Definition before (p q : Z * Z * Z) : Prop :=
  (p.1.1 < q.1.1
   \/ (p.1.1 = q.1.1 /\ (p.1.2 < q.1.2 \/ (p.1.2 = q.1.2 /\ p.2 < q.2))))%Z.

End Number.

Declare Scope number_scope.
Delimit Scope number_scope with num.
Bind Scope number_scope with Number.number.
Infix "+" := Number.add : number_scope.
Infix "-" := Number.sub : number_scope.
Infix "*" := Number.mul : number_scope.
Infix "/" := Number.div : number_scope.
Notation "- a" := (Number.neg a) : number_scope.
Infix "<?" := Number.ltb (at level 70, no associativity) : number_scope.
Infix "<=?" := Number.leb (at level 70, no associativity) : number_scope.
Infix "<" := Number.lt : number_scope.
Infix "<=" := Number.le : number_scope.
Notation "a <= b <= c" := (Number.le a b /\ Number.le b c) : number_scope.
Notation "a < b < c" := (Number.lt a b /\ Number.lt b c) : number_scope.
Abbreviation number := Number.number.

Arguments Number.double : simpl never.
Arguments Number.of_Z : simpl never.
Arguments Number.decimal : simpl never.
Arguments Number.add : simpl never.
Arguments Number.sub : simpl never.
Arguments Number.mul : simpl never.
Arguments Number.div : simpl never.
Arguments Number.neg : simpl never.
Arguments Number.ltb : simpl never.
Arguments Number.leb : simpl never.
Arguments Number.Math_sqrt : simpl never.
Arguments Number.Math_pow2 : simpl never.
Arguments Number.Math_max : simpl never.
Arguments Number.Math_min : simpl never.

(** ** Shared data *)

Module THREE.
Record Vector3 : Type := { x : number; y : number; z : number }.

(** [v.project(camera)]: the camera is whatever maps a world point to
    normalised device coordinates. *)
Definition Camera : Type := Vector3 -> Vector3.

(** [Matrix4.elements], column-major. *)
Definition Matrix4 : Type := nat -> number.

(** [Vector3.applyMatrix4] of three.js (a dependency of the overlay script,
    loaded from a CDN): the perspective divide multiplies by [1 / w], so a
    point on the camera plane gets infinite or NaN coordinates. *)
Definition applyMatrix4 (e : Matrix4) (v : Vector3) : Vector3 :=
  let w := (Number.of_Z 1 / (e 3%nat * x v + e 7%nat * y v + e 11%nat * z v
                             + e 15%nat))%num in
  {| x := ((e 0%nat * x v + e 4%nat * y v + e 8%nat * z v + e 12%nat) * w)%num;
     y := ((e 1%nat * x v + e 5%nat * y v + e 9%nat * z v + e 13%nat) * w)%num;
     z := ((e 2%nat * x v + e 6%nat * y v + e 10%nat * z v + e 14%nat) * w)%num |}.

Definition elements (l : list number) : Matrix4 :=
  fun i => default (Number.of_Z 0) (l !! i).

Definition identity : Matrix4 :=
  let o := Number.of_Z 0 in
  let i := Number.of_Z 1 in
  elements [i; o; o; o;  o; i; o; o;  o; o; i; o;  o; o; o; i].

(** [Matrix4.makePerspective(left, right, top, bottom, near, far)] *)
Definition makePerspective (left_ right_ top_ bottom_ near far : number) : Matrix4 :=
  let o := Number.of_Z 0 in
  let x := (Number.of_Z 2 * near / (right_ - left_))%num in
  let y := (Number.of_Z 2 * near / (top_ - bottom_))%num in
  let a := ((right_ + left_) / (right_ - left_))%num in
  let b := ((top_ + bottom_) / (top_ - bottom_))%num in
  let c := (- (far + near) / (far - near))%num in
  let d := (Number.of_Z (-2) * far * near / (far - near))%num in
  elements [x; o; o; o;  o; y; o; o;  a; b; c; Number.of_Z (-1);  o; o; d; o].

(** [Vector3.project(camera)]:
    [applyMatrix4(matrixWorldInverse).applyMatrix4(projectionMatrix)].
    Used for concrete scenes only. *)
Definition camera (matrixWorldInverse projectionMatrix : Matrix4) : Camera :=
  fun p => applyMatrix4 projectionMatrix (applyMatrix4 matrixWorldInverse p).
End THREE.

(** [export interface Annotation] *)
Record Annotation : Type := {
  id : string;
  title : string;
  content : string;
  imageUrl : option string;
  x : number;
  y : number;
  z : number;
  order : Z
}.

(** ** The overlay script *)

Module Projector.

Inductive DOMException : Type := SyntaxError.

(** A child of [annotations-container]. [classes] are the class tokens,
    [style_left] and [style_top] the pixel offsets, [None] while the
    property is not set; [badge], [photo] and [label] are the parts of
    [innerHTML]; [onclick] is the annotation the click handler posts to the
    parent as [annotationClick]. *)
Record Element : Type := {
  classes : list string;
  style_left : option number;
  style_top : option number;
  badge : Z;
  photo : bool;
  label : option string;
  onclick : Annotation
}.

(** [el.style.left = v + 'px'] on a new element.  The declaration is kept
    when the text is a length; [NaNpx], [Infinitypx] and [-Infinitypx] are
    not, and the property stays unset. *)
Definition px (v : number) : option number :=
  if Number.is_finite v then Some v else None.

(** [el.classList.add(token)].  By the DOM standard ([DOMTokenList.add]:
    if a token is the empty string, throw a [SyntaxError] exception) the empty
    token raises; any other token used here has no white space and is
    appended unless already present. *)
Definition classList_add (token : string) (el : Element) : DOMException + Element :=
  if String.eqb token "" then inl SyntaxError
  else inr {| classes := if bool_decide (token ∈ classes el) then classes el
                         else classes el ++ [token];
              style_left := style_left el; style_top := style_top el;
              badge := badge el; photo := photo el; label := label el;
              onclick := onclick el |}.

Record Renderer : Type := { clientWidth : Z; clientHeight : Z }.

Definition padding : number := Number.of_Z 60.
Definition margin : number := Number.of_Z 20.

(** The literal [0.5] *)
Definition half : number := Number.decimal 5 10.

Arguments padding : simpl never.
Arguments margin : simpl never.
Arguments half : simpl never.

(** [new THREE.Vector3(ann.x, ann.y, ann.z)] followed by [pos.project(camera)] *)
Definition project (camera : THREE.Camera) (ann : Annotation) : THREE.Vector3 :=
  camera {| THREE.x := x ann; THREE.y := y ann; THREE.z := z ann |}.

Definition screenX (width : number) (pos : THREE.Vector3) : number :=
  ((THREE.x pos * half + half) * width)%num.
Definition screenY (height : number) (pos : THREE.Vector3) : number :=
  ((- THREE.y pos * half + half) * height)%num.

Definition isBehind (pos : THREE.Vector3) : bool :=
  (Number.of_Z 1 <? THREE.z pos)%num.

Definition isOffScreen (width height : number) (pos : THREE.Vector3) : bool :=
  isBehind pos
  || (screenX width pos <? - margin)%num
  || (width + margin <? screenX width pos)%num
  || (screenY height pos <? - margin)%num
  || (height + margin <? screenY height pos)%num.

(** [ann.order || index + 1] *)
Definition badgeOf (ann : Annotation) (index : Z) : Z :=
  if (order ann =? 0)%Z then (index + 1)%Z else order ann.

Definition isActiveOf (activeAnnotationId : option string) (ann : Annotation) : bool :=
  bool_decide (activeAnnotationId = Some (id ann)).

(** [Boolean(ann.imageUrl)] *)
Definition hasImage (ann : Annotation) : bool :=
  match imageUrl ann with
  | Some url => negb (String.eqb url "")
  | None => false
  end.

Definition marker (width height : number) (activeAnnotationId : option string)
    (ann : Annotation) (index : Z) (pos : THREE.Vector3) : Element :=
  {| classes := ["annotation-marker"]
                ++ (if isActiveOf activeAnnotationId ann then ["active"] else [])
                ++ (if hasImage ann then ["has-image"] else []);
     style_left := px (screenX width pos);
     style_top := px (screenY height pos);
     badge := badgeOf ann index;
     photo := hasImage ann;
     label := Some (title ann);
     onclick := ann |}.

(** [edgeX], [edgeY] of the indicator branch *)
Definition edge (width height : number) (pos : THREE.Vector3) : number * number :=
  if isBehind pos then
    let flippedX := (- THREE.x pos)%num in
    let flippedY := (- THREE.y pos)%num in
    (((flippedX * half + half) * width)%num, ((- flippedY * half + half) * height)%num)
  else (screenX width pos, screenY height pos).

Definition clamped (size e : number) : number :=
  Number.Math_max padding (Number.Math_min (size - padding)%num e).

(** The chain of [if]s: the direction and the [left]/[top] offsets. *)
Definition placement (width height edgeX edgeY : number)
    : string * (number * number) :=
  let clampedX := clamped width edgeX in
  let clampedY := clamped height edgeY in
  if (edgeX <=? padding)%num then ("left", (padding, clampedY))
  else if (width - padding <=? edgeX)%num
  then ("right", ((width - padding)%num, clampedY))
  else if (edgeY <=? padding)%num then ("top", (clampedX, padding))
  else if (height - padding <=? edgeY)%num
  then ("bottom", (clampedX, (height - padding)%num))
  else ("", (clampedX, clampedY)).

Definition indicator (width height : number) (activeAnnotationId : option string)
    (ann : Annotation) (index : Z) (pos : THREE.Vector3) : DOMException + Element :=
  let '(edgeX, edgeY) := edge width height pos in
  let '(direction, (leftPx, topPx)) := placement width height edgeX edgeY in
  classList_add direction
    {| classes := ["offscreen-indicator"]
                  ++ (if isActiveOf activeAnnotationId ann then ["active"] else []);
       style_left := px leftPx; style_top := px topPx;
       badge := badgeOf ann index; photo := false; label := None;
       onclick := ann |}.

(** The callback of [annotations.forEach((ann, index) => ...)]: the element
    appended to the container, or the exception that escapes. *)
Definition renderAnnotation (camera : THREE.Camera) (width height : number)
    (activeAnnotationId : option string) (ann : Annotation) (index : Z)
    : DOMException + Element :=
  let pos := project camera ann in
  if negb (isOffScreen width height pos)
  then inr (marker width height activeAnnotationId ann index pos)
  else indicator width height activeAnnotationId ann index pos.

(** [forEach] from [index] on: an exception ends the loop and leaves the
    children appended so far. *)
Fixpoint forEach (camera : THREE.Camera) (width height : number)
    (activeAnnotationId : option string) (anns : list Annotation) (index : Z)
    (container : list Element) : list Element * option DOMException :=
  match anns with
  | [] => (container, None)
  | ann :: rest =>
      match renderAnnotation camera width height activeAnnotationId ann index with
      | inl e => (container, Some e)
      | inr el => forEach camera width height activeAnnotationId rest (index + 1)
                          (container ++ [el])
      end
  end.

(** [updateAnnotationPositions()]: the new children of the container and the
    exception thrown, if any. *)
Definition updateAnnotationPositions (camera : option THREE.Camera)
    (renderer : option Renderer) (annotations : list Annotation)
    (activeAnnotationId : option string) (container : list Element)
    : list Element * option DOMException :=
  match camera, renderer with
  | Some cam, Some r =>
      forEach cam (Number.of_Z (clientWidth r)) (Number.of_Z (clientHeight r))
              activeAnnotationId annotations 0 []
  | _, _ => (container, None)
  end.

(** The three cases of the visibility classification, read off the two
    flags of the code. *)
Inductive Visibility : Type := onScreen | behind | offBounds.

Definition visibility (width height : number) (pos : THREE.Vector3) : Visibility :=
  if isBehind pos then behind
  else if isOffScreen width height pos then offBounds
  else onScreen.

(** Neither [e <= padding] nor [e >= size - padding] holds. *)
Definition strictlyInside (size e : number) : Prop :=
  (e <=? padding)%num = false /\ (size - padding <=? e)%num = false.

(** The largest canvas size, in pixels, for which the facts about
    [width - padding] and [width + margin] are checked size by size; it
    covers every display. *)
Definition maxSize : Z := 8192.

(** What the indicator branch needs of a canvas dimension: subtracting the
    padding gives a finite value, not above the dimension plus the margin. *)
Definition sizeChecked (w : Z) : bool :=
  (Number.of_Z w - padding <=? Number.of_Z w + margin)%num
  && Number.is_finite (Number.of_Z w - padding)%num
  && ((w <? 120)%Z || (padding <=? Number.of_Z w - padding)%num).

End Projector.

(** ** The shared-tutorial page *)

Module Player.

Record Tutorial : Type := {
  tutorialId : string;
  tutorialTitle : string;
  shareLink : string;
  annotations : list Annotation
}.

(** The [useState] cells of [SharedTutorialPage] that the progression logic
    reads or writes, whether [useSession] reports a session, and how many
    requests of [loadProgress] are in flight. *)
Record State : Type := {
  session : bool;
  tutorial : option Tutorial;
  currentStep : Z;
  completedSteps : gset string;
  saving : bool;
  progressLoaded : bool;
  showWelcome : bool;
  cameraPosition : THREE.Vector3;
  proximityWarning : option string;
  progressRequests : nat
}.

Definition initial (session : bool) : State :=
  {| session := session; tutorial := None; currentStep := 0;
     completedSteps := ∅; saving := false; progressLoaded := false;
     showWelcome := true;
     cameraPosition := {| THREE.x := Number.of_Z 0; THREE.y := Number.of_Z 0;
                          THREE.z := Number.of_Z 0 |};
     proximityWarning := None; progressRequests := 0 |}.

Definition setSession (b : bool) (s : State) : State :=
  {| session := b; tutorial := tutorial s; currentStep := currentStep s;
     completedSteps := completedSteps s; saving := saving s;
     progressLoaded := progressLoaded s; showWelcome := showWelcome s;
     cameraPosition := cameraPosition s; proximityWarning := proximityWarning s;
     progressRequests := progressRequests s |}.

Definition setProgressRequests (n : nat) (s : State) : State :=
  {| session := session s; tutorial := tutorial s; currentStep := currentStep s;
     completedSteps := completedSteps s; saving := saving s;
     progressLoaded := progressLoaded s; showWelcome := showWelcome s;
     cameraPosition := cameraPosition s; proximityWarning := proximityWarning s;
     progressRequests := n |}.

Definition setTutorial (t : option Tutorial) (s : State) : State :=
  {| session := session s; tutorial := t; currentStep := currentStep s;
     completedSteps := completedSteps s; saving := saving s;
     progressLoaded := progressLoaded s; showWelcome := showWelcome s;
     cameraPosition := cameraPosition s; proximityWarning := proximityWarning s;
     progressRequests := progressRequests s |}.

Definition setCurrentStep (n : Z) (s : State) : State :=
  {| session := session s; tutorial := tutorial s; currentStep := n;
     completedSteps := completedSteps s; saving := saving s;
     progressLoaded := progressLoaded s; showWelcome := showWelcome s;
     cameraPosition := cameraPosition s; proximityWarning := proximityWarning s;
     progressRequests := progressRequests s |}.

Definition setCompletedSteps (c : gset string) (s : State) : State :=
  {| session := session s; tutorial := tutorial s; currentStep := currentStep s;
     completedSteps := c; saving := saving s;
     progressLoaded := progressLoaded s; showWelcome := showWelcome s;
     cameraPosition := cameraPosition s; proximityWarning := proximityWarning s;
     progressRequests := progressRequests s |}.

Definition setSaving (b : bool) (s : State) : State :=
  {| session := session s; tutorial := tutorial s; currentStep := currentStep s;
     completedSteps := completedSteps s; saving := b;
     progressLoaded := progressLoaded s; showWelcome := showWelcome s;
     cameraPosition := cameraPosition s; proximityWarning := proximityWarning s;
     progressRequests := progressRequests s |}.

Definition setProgressLoaded (b : bool) (s : State) : State :=
  {| session := session s; tutorial := tutorial s; currentStep := currentStep s;
     completedSteps := completedSteps s; saving := saving s;
     progressLoaded := b; showWelcome := showWelcome s;
     cameraPosition := cameraPosition s; proximityWarning := proximityWarning s;
     progressRequests := progressRequests s |}.

Definition setShowWelcome (b : bool) (s : State) : State :=
  {| session := session s; tutorial := tutorial s; currentStep := currentStep s;
     completedSteps := completedSteps s; saving := saving s;
     progressLoaded := progressLoaded s; showWelcome := b;
     cameraPosition := cameraPosition s; proximityWarning := proximityWarning s;
     progressRequests := progressRequests s |}.

Definition setCameraPosition (p : THREE.Vector3) (s : State) : State :=
  {| session := session s; tutorial := tutorial s; currentStep := currentStep s;
     completedSteps := completedSteps s; saving := saving s;
     progressLoaded := progressLoaded s; showWelcome := showWelcome s;
     cameraPosition := p; proximityWarning := proximityWarning s;
     progressRequests := progressRequests s |}.

Definition setProximityWarning (w : option string) (s : State) : State :=
  {| session := session s; tutorial := tutorial s; currentStep := currentStep s;
     completedSteps := completedSteps s; saving := saving s;
     progressLoaded := progressLoaded s; showWelcome := showWelcome s;
     cameraPosition := cameraPosition s; proximityWarning := w;
     progressRequests := progressRequests s |}.

(** What a handler leaves behind besides the new state. *)
Inductive Effect : Type :=
| setTimeout_clearWarning (ms : Z)
| setTimeout_redirect (ms : Z) (href : string)
| fetch_POST_progress (tutorialId : string) (completedAnnotations : gset string)
    (completed : bool)
| fetch_GET_progress (tutorialId : string).

(** [[...l].sort((a, b) => a.order - b.order)]: a stable sort by [order]. *)
Fixpoint insertByOrder (a : Annotation) (l : list Annotation) : list Annotation :=
  match l with
  | [] => [a]
  | b :: l' => if (order a <=? order b)%Z then a :: l else b :: insertByOrder a l'
  end.

Definition sortByOrder (l : list Annotation) : list Annotation :=
  foldr insertByOrder [] l.

Definition sortedAnnotations (s : State) : list Annotation :=
  match tutorial s with
  | Some t => sortByOrder (annotations t)
  | None => []
  end.

(** [l[i]] for a numeric index: [undefined] outside the array. *)
Definition at_index {A : Type} (l : list A) (i : Z) : option A :=
  if (i <? 0)%Z then None else l !! Z.to_nat i.

Definition currentAnnotation (s : State) : option Annotation :=
  at_index (sortedAnnotations s) (currentStep s).

Definition length_of {A : Type} (l : list A) : Z := Z.of_nat (length l).



Definition getDistance (pos1 pos2 : THREE.Vector3) : number :=
  Number.Math_sqrt
    (Number.Math_pow2 (THREE.x pos1 - THREE.x pos2)
     + Number.Math_pow2 (THREE.y pos1 - THREE.y pos2)
     + Number.Math_pow2 (THREE.z pos1 - THREE.z pos2))%num.

(** The literal [3.0] *)
Definition PROXIMITY_THRESHOLD : number := Number.of_Z 3.

Definition isNearCurrentAnnotation (s : State) : bool :=
  match currentAnnotation s with
  | Some a =>
      (getDistance (cameraPosition s)
         {| THREE.x := x a; THREE.y := y a; THREE.z := z a |}
       <? PROXIMITY_THRESHOLD)%num
  | None => false
  end.

(** [Array.prototype.findIndex] *)
Fixpoint findIndexFrom {A : Type} (p : A -> bool) (l : list A) (i : Z) : Z :=
  match l with
  | [] => (-1)%Z
  | a :: l' => if p a then i else findIndexFrom p l' (i + 1)%Z
  end.

Definition findIndex {A : Type} (p : A -> bool) (l : list A) : Z :=
  findIndexFrom p l 0%Z.

Definition has (c : gset string) (k : string) : bool := bool_decide (k ∈ c).

Definition nextRequiredStep (s : State) : Z :=
  findIndex (fun ann => negb (has (completedSteps s) (id ann))) (sortedAnnotations s).

(** [saveProgress] up to its [await]: nothing without a session or a
    tutorial, otherwise the flag is raised and the request leaves. *)
Definition saveProgress (newCompletedSteps : gset string) (s : State)
    : State * list Effect :=
  match session s, tutorial s with
  | true, Some t =>
      let isComplete :=
        (Z.of_nat (size newCompletedSteps) =? length_of (sortedAnnotations s))%Z in
      (setSaving true s, [fetch_POST_progress (tutorialId t) newCompletedSteps isComplete])
  | _, _ => (s, [])
  end.

(** The rest of [saveProgress], run when the request settles. *)
Definition saveProgressSettled (threw isComplete : bool) (s : State)
    : State * list Effect :=
  (setSaving false s,
   if negb threw && isComplete then [setTimeout_redirect 2000 "/dashboard"] else []).

Definition alreadyCompleted : string := "This step is already completed!".
Definition completeFirst (step : Z) : string :=
  "Complete step " +:+ pretty step +:+ " first!".
Definition moveCloser : string := "Move closer to the marker to complete this step!".

Definition markComplete (s : State) : State * list Effect :=
  match currentAnnotation s with
  | None => (s, [])
  | Some cur =>
      if has (completedSteps s) (id cur) then
        (setProximityWarning (Some alreadyCompleted) s,
         [setTimeout_clearWarning 2000])
      else if negb (nextRequiredStep s =? -1)%Z
              && negb (currentStep s =? nextRequiredStep s)%Z then
        (setProximityWarning (Some (completeFirst (nextRequiredStep s + 1))) s,
         [setTimeout_clearWarning 2000])
      else if negb (isNearCurrentAnnotation s) then
        (setProximityWarning (Some moveCloser) s,
         [setTimeout_clearWarning 2000])
      else
        let newCompleted := completedSteps s ∪ {[ id cur ]} in
        let '(s1, saved) := saveProgress newCompleted (setCompletedSteps newCompleted s) in
        let s2 := setProximityWarning None s1 in
        (if (currentStep s <? length_of (sortedAnnotations s) - 1)%Z
         then setCurrentStep (currentStep s + 1) s2 else s2,
         saved)
  end.

(** [handleKeyDown] *)
Definition handleKeyDown (key : string) (s : State) : State * list Effect :=
  if showWelcome s then (s, [])
  else if String.eqb key "ArrowRight" || String.eqb key "ArrowDown" then
    (if (currentStep s <? length_of (sortedAnnotations s) - 1)%Z
     then setCurrentStep (currentStep s + 1) s else s, [])
  else if String.eqb key "ArrowLeft" || String.eqb key "ArrowUp" then
    (if (0 <? currentStep s)%Z then setCurrentStep (currentStep s - 1) s else s, [])
  else if String.eqb key "Enter" || String.eqb key " " then markComplete s
  else (s, []).

Definition goToStep (index : Z) (s : State) : State := setCurrentStep index s.

(** The [Previous] button, [disabled] at step 0. *)
Definition previousClick (s : State) : State :=
  if (currentStep s =? 0)%Z then s
  else setCurrentStep (Z.max 0 (currentStep s - 1)) s.

(** [completedSteps.has(currentAnnotation?.id || "")] *)
Definition currentIsCompleted (s : State) : bool :=
  has (completedSteps s)
      (match currentAnnotation s with
       | Some a => id a
       | None => ""
       end).

(** The second button of the panel: [Next Step] once the current step is
    completed, the [Mark Complete] button otherwise; each with its
    [disabled] condition. *)
Definition secondButtonClick (s : State) : State * list Effect :=
  if currentIsCompleted s then
    (if (length_of (sortedAnnotations s) - 1 <=? currentStep s)%Z then s
     else if (currentStep s <? length_of (sortedAnnotations s) - 1)%Z
          then setCurrentStep (currentStep s + 1) s else s, [])
  else if negb (isNearCurrentAnnotation s)
          || (negb (nextRequiredStep s =? -1)%Z
              && negb (currentStep s =? nextRequiredStep s)%Z)
  then (s, [])
  else markComplete s.

(** [onAnnotationClick] passed to the viewer *)
Definition onAnnotationClick (ann : Annotation) (s : State) : State :=
  let index := findIndex (fun a => bool_decide (id a = id ann)) (sortedAnnotations s) in
  if negb (index =? -1)%Z then setCurrentStep index s else s.

(** What [fetch("/api/progress?tutorialId=...")] can bring back. *)
Inductive ProgressResponse : Type :=
| fetchThrew
| notOk
| okJson (completedAnnotations : option (list string)).

(** The progress effect, run after a render in which [session], [tutorial]
    or [progressLoaded] has changed: [loadProgress] up to its [await].  The
    three are tested here, before the request leaves. *)
Definition loadProgress (s : State) : State * list Effect :=
  match session s, tutorial s, progressLoaded s with
  | true, Some t, false =>
      (setProgressRequests (S (progressRequests s)) s,
       [fetch_GET_progress (tutorialId t)])
  | _, _, _ => (s, [])
  end.

(** The rest of [loadProgress], run when a request comes back: nothing is
    tested again.  A request that raised leaves everything as it was. *)
Definition loadProgressSettled (res : ProgressResponse) (s : State) : State :=
  let s := setProgressRequests (pred (progressRequests s)) s in
  match res with
  | fetchThrew => s
  | notOk => setProgressLoaded true s
  | okJson None => setProgressLoaded true s
  | okJson (Some ids) => setProgressLoaded true (setCompletedSteps (list_to_set ids) s)
  end.

(** What can happen to the page after it is mounted.  [TutorialLoaded] and
    [SessionChanged] are the two renders that change a dependency of the
    progress effect before [progressLoaded] is set. *)
Inductive Event : Type :=
| TutorialLoaded (t : Tutorial)
| SessionChanged (session : bool)
| ProgressFetched (res : ProgressResponse)
| KeyDown (key : string)
| PreviousClick
| SecondButtonClick
| StepClick (index : Z)
| AnnotationClick (ann : Annotation)
| CameraMove (position : THREE.Vector3)
| WelcomeDismissed
| WarningTimerFired
| SaveSettled (threw isComplete : bool).

Definition handle (e : Event) (s : State) : State * list Effect :=
  match e with
  | TutorialLoaded t => loadProgress (setTutorial (Some t) s)
  | SessionChanged b => loadProgress (setSession b s)
  | ProgressFetched res => (loadProgressSettled res s, [])
  | KeyDown key => handleKeyDown key s
  | PreviousClick => (previousClick s, [])
  | SecondButtonClick => secondButtonClick s
  | StepClick index => (goToStep index s, [])
  | AnnotationClick ann => (onAnnotationClick ann s, [])
  | CameraMove position => (setCameraPosition position s, [])
  | WelcomeDismissed => (setShowWelcome false s, [])
  | WarningTimerFired => (setProximityWarning None s, [])
  | SaveSettled threw isComplete => saveProgressSettled threw isComplete s
  end.

(** The tutorial is fetched once per mount; an answer comes back only for a
    request in flight; a step button exists for every index of the sorted
    list and for no other. *)
Definition offered (e : Event) (s : State) : Prop :=
  match e with
  | TutorialLoaded _ => tutorial s = None
  | ProgressFetched _ => (0 < progressRequests s)%nat
  | StepClick index => (0 <= index < length_of (sortedAnnotations s))%Z
  | _ => True
  end.

(** States the page can be in, when the responses of the progress store
    satisfy [stored]. *)
Inductive reachable (stored : State -> ProgressResponse -> Prop) : State -> Prop :=
| reach_initial (session : bool) : reachable stored (initial session)
| reach_handle (e : Event) (s : State) :
    reachable stored s ->
    offered e s ->
    (forall res, e = ProgressFetched res -> stored s res) ->
    reachable stored (fst (handle e s)).

Definition annotationIds (s : State) : gset string :=
  match tutorial s with
  | Some t => list_to_set (map id (annotations t))
  | None => ∅
  end.

(** The store only returns identifiers of annotations of the tutorial. *)
Definition storedWithinTutorial (s : State) (res : ProgressResponse) : Prop :=
  match res with
  | okJson (Some ids) => forall k, k ∈ ids -> k ∈ annotationIds s
  | _ => True
  end.

Definition anyStored (s : State) (res : ProgressResponse) : Prop := True.

(** The step index is a valid index of the sorted list. *)
Definition validStep (s : State) : Prop :=
  (0 <= currentStep s < length_of (sortedAnnotations s))%Z.

(** Valid, or still at its initial value. *)
Definition stepInv (s : State) : Prop := currentStep s = 0%Z \/ validStep s.

(** The completed identifiers are identifiers of the tutorial. *)
Definition completedInv (s : State) : Prop := completedSteps s ⊆ annotationIds s.

End Player.

(** ** The annotation routes *)

Module Table.

(** A property of the request body after destructuring: missing
    ([undefined]), [null], or a value. *)
Inductive field (A : Type) : Type :=
| undefined
| null
| value (a : A).
Arguments undefined {A}.
Arguments null {A}.
Arguments value {A} a.

Record Body : Type := {
  annotationId : field string;
  title : field string;
  content : field string;
  x : field Q;
  y : field Q;
  z : field Q;
  order : field Z;
  imageUrl : field string
}.

(** Modelled from the spec: the [annotation] table of [@/db/schema], which
    the route files import.  Its columns follow the Annotation of the data
    model (identifier, title, content, optional image reference, three
    coordinates, integer order), together with the tutorial the row belongs
    to and the [updatedAt] timestamp the handlers write; the image reference
    is the one nullable column. *)
Record Row : Type := {
  row_id : string;
  row_tutorialId : string;
  row_title : string;
  row_content : string;
  row_imageUrl : option string;
  row_x : Q;
  row_y : Q;
  row_z : Q;
  row_order : Z;
  row_updatedAt : Z
}.

Inductive Response : Type :=
| json_error (status : Z) (error : string)
| json_annotation (annotation : option Row).

(** The object given to [.set(...)].  The query builder leaves a key out of
    the statement when it is absent or its value is [undefined] (drizzle:
    values of undefined are ignored, [null] is what sets a column to
    NULL). *)
Record UpdateData : Type := {
  set_title : field string;
  set_content : field string;
  set_x : field Q;
  set_y : field Q;
  set_z : field Q;
  set_order : field Z;
  set_imageUrl : field string;
  set_updatedAt : Z
}.

(** [!v] for a string property *)
Definition falsy_string (f : field string) : bool :=
  match f with
  | value s => String.eqb s ""
  | _ => true
  end.

(** [!v] for a numeric property *)
Definition falsy_number (f : field Z) : bool :=
  match f with
  | value n => (n =? 0)%Z
  | _ => true
  end.

Definition is_undefined {A : Type} (f : field A) : bool :=
  match f with
  | undefined => true
  | _ => false
  end.

(** The value written to a column that does not accept [NULL]; [None] is
    the constraint violation. *)
Definition assign {A : Type} (f : field A) (old : A) : option A :=
  match f with
  | undefined => Some old
  | null => None
  | value a => Some a
  end.

Definition assign_nullable {A : Type} (f : field A) (old : option A) : option A :=
  match f with
  | undefined => old
  | null => None
  | value a => Some a
  end.

Definition applySet (u : UpdateData) (r : Row) : option Row :=
  match assign (set_title u) (row_title r), assign (set_content u) (row_content r),
        assign (set_x u) (row_x r), assign (set_y u) (row_y r),
        assign (set_z u) (row_z r), assign (set_order u) (row_order r) with
  | Some t, Some c, Some x', Some y', Some z', Some o =>
      Some {| row_id := row_id r; row_tutorialId := row_tutorialId r;
              row_title := t; row_content := c;
              row_imageUrl := assign_nullable (set_imageUrl u) (row_imageUrl r);
              row_x := x'; row_y := y'; row_z := z'; row_order := o;
              row_updatedAt := set_updatedAt u |}
  | _, _, _, _, _, _ => None
  end.

(** [and(eq(annotation.id, annotationId), eq(annotation.tutorialId, tutorialId))] *)
Definition matches (annotationId tutorialId : string) (r : Row) : bool :=
  String.eqb (row_id r) annotationId && String.eqb (row_tutorialId r) tutorialId.

(** [db.update(annotation).set(u).where(w).returning()]: the rows returned
    and the table afterwards; [None] when the statement fails, which leaves
    the table as it was. *)
Fixpoint update (u : UpdateData) (w : Row -> bool) (db : list Row)
    : option (list Row * list Row) :=
  match db with
  | [] => Some ([], [])
  | r :: rest =>
      match update u w rest with
      | None => None
      | Some (returned, rest') =>
          if w r then
            match applySet u r with
            | Some r' => Some (r' :: returned, r' :: rest')
            | None => None
            end
          else Some (returned, r :: rest')
      end
  end.

(** [db.query.annotation.findMany({ where: eq(a.tutorialId, tutorialId) })] *)
Definition findMany (tutorialId : string) (db : list Row) : list Row :=
  filter (fun r => row_tutorialId r = tutorialId) db.

End Table.

(** The first route file: the handlers that know the image column. *)
Module Routes.
Import Table.

(** [newId] and [now] stand for the column defaults the database fills in. *)
Definition POST (session : option string) (tutorialId : string) (body : Body)
    (newId : string) (now : Z) (db : list Row) : Response * list Row :=
  match session with
  | None => (json_error 401 "Unauthorized", db)
  | Some _ =>
      if falsy_string (title body) || is_undefined (x body)
         || is_undefined (y body) || is_undefined (z body)
      then (json_error 400 "title, x, y, z are required", db)
      else
        let finalOrder :=
          match order body with
          | undefined | null => value (Z.of_nat (length (findMany tutorialId db)) + 1)%Z
          | value n => value n
          end in
        match title body, x body, y body, z body, finalOrder with
        | value t, value x', value y', value z', value o =>
            let newAnnotation :=
              {| row_id := newId; row_tutorialId := tutorialId; row_title := t;
                 row_content := match content body with
                                | value c => c
                                | _ => ""
                                end;
                 row_imageUrl := match imageUrl body with
                                 | value u => if String.eqb u "" then None else Some u
                                 | _ => None
                                 end;
                 row_x := x'; row_y := y'; row_z := z'; row_order := o;
                 row_updatedAt := now |} in
            (json_annotation (Some newAnnotation), db ++ [newAnnotation])
        | _, _, _, _, _ => (json_error 500 "Failed to create annotation", db)
        end
  end.

Definition PUT (session : option string) (tutorialId : string) (body : Body)
    (now : Z) (db : list Row) : Response * list Row :=
  match session with
  | None => (json_error 401 "Unauthorized", db)
  | Some _ =>
      match annotationId body with
      | value aid =>
          if String.eqb aid "" then (json_error 400 "annotationId is required", db)
          else
            let updateData :=
              {| set_title := title body; set_content := content body;
                 set_x := x body; set_y := y body; set_z := z body;
                 set_order := order body; set_imageUrl := imageUrl body;
                 set_updatedAt := now |} in
            match update updateData (matches aid tutorialId) db with
            | Some (returned, db') => (json_annotation (head returned), db')
            | None => (json_error 500 "Failed to update annotation", db)
            end
      | _ => (json_error 400 "annotationId is required", db)
      end
  end.

End Routes.

(** The second route file: no image column, and its own rule for the
    default order. *)
Module SecondRoutes.
Import Table.

Definition POST (session : option string) (tutorialId : string) (body : Body)
    (newId : string) (now : Z) (db : list Row) : Response * list Row :=
  match session with
  | None => (json_error 401 "Unauthorized", db)
  | Some _ =>
      if falsy_string (title body) || is_undefined (x body)
         || is_undefined (y body) || is_undefined (z body)
      then (json_error 400 "title, x, y, z are required", db)
      else
        let finalOrder :=
          if falsy_number (order body)
             || match order body with value n => (n =? 1)%Z | _ => false end
          then value (Z.of_nat (length (findMany tutorialId db)) + 1)%Z
          else order body in
        match title body, x body, y body, z body, finalOrder with
        | value t, value x', value y', value z', value o =>
            let newAnnotation :=
              {| row_id := newId; row_tutorialId := tutorialId; row_title := t;
                 row_content := match content body with
                                | value c => c
                                | _ => ""
                                end;
                 row_imageUrl := None;
                 row_x := x'; row_y := y'; row_z := z'; row_order := o;
                 row_updatedAt := now |} in
            (json_annotation (Some newAnnotation), db ++ [newAnnotation])
        | _, _, _, _, _ => (json_error 500 "Failed to create annotation", db)
        end
  end.

Definition PUT (session : option string) (tutorialId : string) (body : Body)
    (now : Z) (db : list Row) : Response * list Row :=
  match session with
  | None => (json_error 401 "Unauthorized", db)
  | Some _ =>
      match annotationId body with
      | value aid =>
          if String.eqb aid "" then (json_error 400 "annotationId is required", db)
          else
            let updateData :=
              {| set_title := title body; set_content := content body;
                 set_x := x body; set_y := y body; set_z := z body;
                 set_order := order body; set_imageUrl := undefined;
                 set_updatedAt := now |} in
            match update updateData (matches aid tutorialId) db with
            | Some (returned, db') => (json_annotation (head returned), db')
            | None => (json_error 500 "Failed to update annotation", db)
            end
      | _ => (json_error 400 "annotationId is required", db)
      end
  end.

End SecondRoutes.

(** ** A concrete table *)

Module Catalog.
Import Table.

Definition valveRow : Row :=
  {| row_id := "a1"; row_tutorialId := "t1"; row_title := "Valve";
     row_content := "Close it"; row_imageUrl := Some "valve.png";
     row_x := 1; row_y := 2; row_z := 3; row_order := 1; row_updatedAt := 100 |}.

Definition gaugeRow : Row :=
  {| row_id := "a2"; row_tutorialId := "t1"; row_title := "Gauge";
     row_content := ""; row_imageUrl := None;
     row_x := 4; row_y := 5; row_z := 6; row_order := 2; row_updatedAt := 100 |}.

Definition table : list Row := [valveRow; gaugeRow].

(** [{ annotationId: "a1", imageUrl: null }] *)
Definition clearImage : Body :=
  {| annotationId := value "a1"; title := undefined; content := undefined;
     x := undefined; y := undefined; z := undefined; order := undefined;
     imageUrl := null |}.


(** The same request without its [imageUrl] property. *)
Definition withoutImage (body : Body) : Body :=
  {| annotationId := annotationId body; title := title body;
     content := content body; x := x body; y := y body; z := z body;
     order := order body; imageUrl := undefined |}.

(** [{ annotationId: "a1", order: 5 }] *)
Definition reorder : Body :=
  {| annotationId := value "a1"; title := undefined; content := undefined;
     x := undefined; y := undefined; z := undefined; order := value 5%Z;
     imageUrl := undefined |}.

(** [{ title: "Pump", x: 7, y: 8, z: 9, order: 1 }] *)
Definition createFirst : Body :=
  {| annotationId := undefined; title := value "Pump"; content := undefined;
     x := value 7%Q; y := value 8%Q; z := value 9%Q; order := value 1%Z;
     imageUrl := undefined |}.

(** [{ title: "Pump", x: 7, y: 8, z: 9 }] *)
Definition createNext : Body :=
  {| annotationId := undefined; title := value "Pump"; content := undefined;
     x := value 7%Q; y := value 8%Q; z := value 9%Q; order := undefined;
     imageUrl := undefined |}.

(** The row is the one the request names, in the tutorial of the route. *)
Definition targets (tutorialId : string) (body : Body) (r : Row) : Prop :=
  annotationId body = value (row_id r) /\ row_tutorialId r = tutorialId.

(** Column by column: what an update request leaves of the old row [r] in
    the new row [r']. *)
Definition omittedKept (body : Body) (r r' : Row) : Prop :=
  row_id r' = row_id r /\ row_tutorialId r' = row_tutorialId r
  /\ (title body = undefined -> row_title r' = row_title r)
  /\ (content body = undefined -> row_content r' = row_content r)
  /\ (x body = undefined -> row_x r' = row_x r)
  /\ (y body = undefined -> row_y r' = row_y r)
  /\ (z body = undefined -> row_z r' = row_z r)
  /\ (order body = undefined -> row_order r' = row_order r)
  /\ (imageUrl body = undefined -> row_imageUrl r' = row_imageUrl r).

Definition providedWritten (body : Body) (r' : Row) : Prop :=
  (forall v, title body = value v -> row_title r' = v)
  /\ (forall v, content body = value v -> row_content r' = v)
  /\ (forall v, x body = value v -> row_x r' = v)
  /\ (forall v, y body = value v -> row_y r' = v)
  /\ (forall v, z body = value v -> row_z r' = v)
  /\ (forall v, order body = value v -> row_order r' = v)
  /\ (forall v, imageUrl body = value v -> row_imageUrl r' = Some v)
  /\ (imageUrl body = null -> row_imageUrl r' = None).

End Catalog.

(** ** Concrete scenes *)

Module Scene.

(** [v] lies outside the closed interval from [lo] to [hi]. *)
Definition outside (lo hi v : number) : Prop := (v < lo \/ hi < v)%num.

(** A camera at the origin looking down the negative z axis, with a field
    of view of about 65 degrees, over an 800 by 600 canvas: the frustum
    reaches 0.00637 up and 0.008493 to the right on the near plane at 0.01;
    the far plane is at 1000. *)
Definition camera : THREE.Camera :=
  THREE.camera THREE.identity
    (THREE.makePerspective (Number.decimal (-8493) 1000000) (Number.decimal 8493 1000000)
       (Number.decimal 637 100000) (Number.decimal (-637) 100000)
       (Number.decimal 1 100) (Number.of_Z 1000)).

Definition renderer : Projector.Renderer :=
  {| Projector.clientWidth := 800; Projector.clientHeight := 600 |}.

(** An annotation straight behind that camera, and one straight ahead. *)
Definition valve : Annotation :=
  {| id := "valve"; title := "Valve"; content := ""; imageUrl := None;
     x := Number.of_Z 0; y := Number.of_Z 0; z := Number.of_Z 5; order := 1 |}.

Definition gauge : Annotation :=
  {| id := "gauge"; title := "Gauge"; content := ""; imageUrl := None;
     x := Number.of_Z 0; y := Number.of_Z 0; z := Number.of_Z (-5); order := 2 |}.

(** The device coordinates [(1.05, 0, 0)], through a camera that leaves them
    as they are. *)
Definition rim : Annotation :=
  {| id := "rim"; title := "Rim"; content := ""; imageUrl := None;
     x := Number.decimal 105 100; y := Number.of_Z 0; z := Number.of_Z 0;
     order := 1 |}.

(** A point of the camera plane, to the right of the camera. *)
Definition level : Annotation :=
  {| id := "level"; title := "Level"; content := ""; imageUrl := None;
     x := Number.of_Z 5; y := Number.of_Z 0; z := Number.of_Z 0; order := 1 |}.

End Scene.

(** ** Concrete lessons *)

Module Lesson.
Import Player.

Definition A : Annotation :=
  {| id := "A"; title := "Open the panel"; content := ""; imageUrl := None;
     x := Number.of_Z 0; y := Number.of_Z 0; z := Number.of_Z 0; order := 1 |}.

Definition B : Annotation :=
  {| id := "B"; title := "Check the gauge"; content := ""; imageUrl := None;
     x := Number.of_Z 4; y := Number.of_Z 0; z := Number.of_Z 0; order := 2 |}.

Definition C : Annotation :=
  {| id := "C"; title := "Close the valve"; content := ""; imageUrl := None;
     x := Number.of_Z 8; y := Number.of_Z 0; z := Number.of_Z 0; order := 3 |}.

Definition abc : Tutorial :=
  {| tutorialId := "t1"; tutorialTitle := "Pump room"; shareLink := "s1";
     annotations := [A; B; C] |}.

Definition solo : Tutorial :=
  {| tutorialId := "t2"; tutorialTitle := "One step"; shareLink := "s2";
     annotations := [A] |}.

Definition blank : Tutorial :=
  {| tutorialId := "t3"; tutorialTitle := "Nothing yet"; shareLink := "s3";
     annotations := [] |}.

(** A learner with a session, on tutorial [t] at step [step], having
    completed [done], with the camera at [cam]. *)
Definition learner (t : Tutorial) (step : Z) (done : gset string)
    (cam : THREE.Vector3) : State :=
  {| session := true; tutorial := Some t; currentStep := step;
     completedSteps := done; saving := false; progressLoaded := true;
     showWelcome := false; cameraPosition := cam; proximityWarning := None;
     progressRequests := 0 |}.

Definition origin : THREE.Vector3 :=
  {| THREE.x := Number.of_Z 0; THREE.y := Number.of_Z 0; THREE.z := Number.of_Z 0 |}.
Definition near : THREE.Vector3 :=
  {| THREE.x := Number.of_Z 0; THREE.y := Number.of_Z 0; THREE.z := Number.decimal 29 10 |}.
Definition far : THREE.Vector3 :=
  {| THREE.x := Number.of_Z 0; THREE.y := Number.of_Z 0; THREE.z := Number.decimal 31 10 |}.

(** The camera at the doubles [2.484255924520266], [1.6256684230885452] and
    [0.43089984875695037], a hair further than 3 from the origin. *)
Definition grazing : THREE.Vector3 :=
  {| THREE.x := Number.double 699255878497651 (-48);
     THREE.y := Number.double 3660679852224777 (-51);
     THREE.z := Number.double 7762401593183219 (-54) |}.

(** The camera at the doubles [-2.9376874031105715], [-0.054751291406839035]
    and [-0.6058011370860484], a hair nearer than 3 to the origin. *)
Definition shy : THREE.Vector3 :=
  {| THREE.x := Number.double (-6615083946989885) (-51);
     THREE.y := Number.double (-7890492658492599) (-57);
     THREE.z := Number.double (-5456571550482701) (-53) |}.

(** The squared Euclidean distance of two points with finite coordinates,
    without rounding. *)
Definition exactSquaredDistance (p q : THREE.Vector3) : Q :=
  ((Number.to_Q (THREE.x p) - Number.to_Q (THREE.x q)) ^ 2
   + (Number.to_Q (THREE.y p) - Number.to_Q (THREE.y q)) ^ 2
   + (Number.to_Q (THREE.z p) - Number.to_Q (THREE.z q)) ^ 2)%Q.

End Lesson.

(** ** The overlay script: messages, polling, telemetry *)

Module Overlay.

(** [window.parent.postMessage(...)] *)
Inductive ToParent : Type :=
| loaded
| error (message : string)
| requestAnnotations
| annotationClick (annotation : Annotation)
| addAnnotation (position : THREE.Vector3)
| cameraUpdate (position : THREE.Vector3).

(** The messages the overlay listens to; [annotations] and
    [activeAnnotationId] may be missing from the data. *)
Inductive ToOverlay : Type :=
| updateAnnotations (annotations : option (list Annotation))
    (activeAnnotationId : option string)
| setEditMode (editMode : bool).

(** The variables of the module script, and the children of
    [annotations-container].  [annotationPollInterval] tells whether the
    interval handle is set. *)
Record State : Type := {
  annotations : list Annotation;
  activeAnnotationId : option string;
  editMode : bool;
  camera : option THREE.Camera;
  renderer : option Projector.Renderer;
  container : list Projector.Element;
  annotationPollInterval : bool;
  lastCameraUpdate : Z
}.

(** The script as written into the frame. *)
Definition initial (annotations : list Annotation) (editMode : bool) : State :=
  {| annotations := annotations; activeAnnotationId := None; editMode := editMode;
     camera := None; renderer := None; container := [];
     annotationPollInterval := false; lastCameraUpdate := 0 |}.

Definition setAnnotations (a : list Annotation) (active : option string)
    (s : State) : State :=
  {| annotations := a; activeAnnotationId := active; editMode := editMode s;
     camera := camera s; renderer := renderer s; container := container s;
     annotationPollInterval := annotationPollInterval s;
     lastCameraUpdate := lastCameraUpdate s |}.

Definition setEdit (b : bool) (s : State) : State :=
  {| annotations := annotations s; activeAnnotationId := activeAnnotationId s;
     editMode := b; camera := camera s; renderer := renderer s;
     container := container s;
     annotationPollInterval := annotationPollInterval s;
     lastCameraUpdate := lastCameraUpdate s |}.

Definition setScene (cam : option THREE.Camera) (r : option Projector.Renderer)
    (s : State) : State :=
  {| annotations := annotations s; activeAnnotationId := activeAnnotationId s;
     editMode := editMode s; camera := cam; renderer := r;
     container := container s;
     annotationPollInterval := annotationPollInterval s;
     lastCameraUpdate := lastCameraUpdate s |}.

Definition setContainer (c : list Projector.Element) (s : State) : State :=
  {| annotations := annotations s; activeAnnotationId := activeAnnotationId s;
     editMode := editMode s; camera := camera s; renderer := renderer s;
     container := c;
     annotationPollInterval := annotationPollInterval s;
     lastCameraUpdate := lastCameraUpdate s |}.

Definition setPoll (b : bool) (s : State) : State :=
  {| annotations := annotations s; activeAnnotationId := activeAnnotationId s;
     editMode := editMode s; camera := camera s; renderer := renderer s;
     container := container s; annotationPollInterval := b;
     lastCameraUpdate := lastCameraUpdate s |}.

Definition setLastCameraUpdate (t : Z) (s : State) : State :=
  {| annotations := annotations s; activeAnnotationId := activeAnnotationId s;
     editMode := editMode s; camera := camera s; renderer := renderer s;
     container := container s;
     annotationPollInterval := annotationPollInterval s;
     lastCameraUpdate := t |}.

(** A call of [updateAnnotationPositions()] on the variables of the script. *)
Definition render (s : State) : State * option Projector.DOMException :=
  let '(c, e) :=
    Projector.updateAnnotationPositions (camera s) (renderer s) (annotations s)
      (activeAnnotationId s) (container s) in
  (setContainer c s, e).

(** The [message] listener.  An exception of the redraw leaves the
    listener before the interval is looked at. *)
Definition onMessage (m : ToOverlay) (s : State)
    : State * option Projector.DOMException :=
  match m with
  | updateAnnotations anns active =>
      let s1 := setAnnotations (default [] anns) active s in
      match render s1 with
      | (s2, Some e) => (s2, Some e)
      | (s2, None) =>
          (if (0 <? Z.of_nat (length (annotations s2)))%Z && annotationPollInterval s2
           then setPoll false s2 else s2, None)
      end
  | setEditMode b => (setEdit b s, None)
  end.

(** The synchronous start of the script: scene, camera and renderer. *)
Definition start (cam : THREE.Camera) (r : Projector.Renderer) (s : State) : State :=
  setScene (Some cam) (Some r) s.

(** After the splat has loaded: [loaded], the first request, the interval. *)
Definition assetLoaded (s : State) : State * list ToParent :=
  (setPoll true s, [loaded; requestAnnotations]).

(** The [catch] of the script. *)
Definition loadFailed (message : string) (s : State) : State * list ToParent :=
  (s, [error message]).

(** The callback of [setInterval(..., 500)]; a cleared interval does not
    call it. *)
Definition pollTick (s : State) : State * list ToParent :=
  if annotationPollInterval s then
    if (Z.of_nat (length (annotations s)) =? 0)%Z then (s, [requestAnnotations])
    else (setPoll false s, [])
  else (s, []).

(** One turn of [animate()] at time [now] (milliseconds), the controls
    having moved the camera to [cam] at [position].  An exception of the
    redraw ends the turn. *)
Definition animate (now : Z) (cam : THREE.Camera) (position : THREE.Vector3)
    (s : State) : State * list ToParent * option Projector.DOMException :=
  let s1 := setScene (Some cam) (renderer s) s in
  match render s1 with
  | (s2, Some e) => (s2, [], Some e)
  | (s2, None) =>
      if (100 <? now - lastCameraUpdate s2)%Z
      then (setLastCameraUpdate now s2, [cameraUpdate position], None)
      else (s2, [], None)
  end.

Record Frame : Type := {
  frame_now : Z;
  frame_camera : THREE.Camera;
  frame_position : THREE.Vector3
}.

(** The turns of [animate()] for a list of frames: the last state and, for
    every [cameraUpdate] posted, the time of its frame. *)
Fixpoint animateAll (frames : list Frame) (s : State) : State * list Z :=
  match frames with
  | [] => (s, [])
  | f :: rest =>
      let '(s1, posted, _) :=
        animate (frame_now f) (frame_camera f) (frame_position f) s in
      let '(s2, times) := animateAll rest s1 in
      (s2, (if bool_decide (posted = []) then [] else [frame_now f]) ++ times)
  end.

(** Each time is more than 100 after the one before it, starting from
    [prev]. *)
Fixpoint spaced (prev : Z) (times : list Z) : Prop :=
  match times with
  | [] => True
  | t :: rest => (100 < t - prev)%Z /\ spaced t rest
  end.

(** The click handler of a marker or an indicator *)
Definition elementClick (el : Projector.Element) : ToParent :=
  annotationClick (Projector.onclick el).

End Overlay.

(** ** The viewer component around the frame *)

Module Host.

(** The properties of [AnnotationViewer] the message handler uses; a
    callback that is not passed is [false]. *)
Record Props : Type := {
  annotations : list Annotation;
  activeAnnotationId : option string;
  onAnnotationClick : bool;
  onAddAnnotation : bool;
  onCameraMove : bool
}.

Record State : Type := {
  loading : bool;
  error : option string;
  cameraPosition : THREE.Vector3;
  iframeReady : bool
}.

Definition initial : State :=
  {| loading := true; error := None;
     cameraPosition := {| THREE.x := Number.of_Z 0; THREE.y := Number.of_Z 0;
                          THREE.z := Number.of_Z 5 |};
     iframeReady := false |}.

(** A call of a callback of the parent component *)
Inductive Callback : Type :=
| call_onAnnotationClick (annotation : Annotation)
| call_onAddAnnotation (position : THREE.Vector3)
| call_onCameraMove (position : THREE.Vector3).

(** [handleMessage]: the new state, what is posted to the frame, the
    callbacks called.  [contentWindow] tells whether the frame has a
    window. *)
Definition handleMessage (contentWindow : bool) (props : Props)
    (m : Overlay.ToParent) (s : State)
    : State * list Overlay.ToOverlay * list Callback :=
  match m with
  | Overlay.loaded =>
      ({| loading := false; error := error s;
          cameraPosition := cameraPosition s; iframeReady := true |}, [], [])
  | Overlay.requestAnnotations =>
      (s, if contentWindow
          then [Overlay.updateAnnotations (Some (annotations props))
                  (activeAnnotationId props)]
          else [], [])
  | Overlay.error message =>
      ({| loading := false; error := Some message;
          cameraPosition := cameraPosition s; iframeReady := iframeReady s |}, [], [])
  | Overlay.annotationClick ann =>
      (s, [], if onAnnotationClick props then [call_onAnnotationClick ann] else [])
  | Overlay.addAnnotation position =>
      (s, [], if onAddAnnotation props then [call_onAddAnnotation position] else [])
  | Overlay.cameraUpdate position =>
      ({| loading := loading s; error := error s;
          cameraPosition := position; iframeReady := iframeReady s |}, [],
       if onCameraMove props then [call_onCameraMove position] else [])
  end.

(** The shared-tutorial page passes [onAnnotationClick] and [onCameraMove]
    and no [onAddAnnotation]; this is what its callbacks do to the page. *)
Definition pageCallback (c : Callback) : option Player.Event :=
  match c with
  | call_onAnnotationClick ann => Some (Player.AnnotationClick ann)
  | call_onCameraMove position => Some (Player.CameraMove position)
  | call_onAddAnnotation _ => None
  end.

End Host.

(** ** The copy of the page without completion checks *)

Module SecondPlayer.
Import Player.

(** This copy has no camera position and no warning; both cells of [State]
    are carried along untouched. *)
Definition markComplete (s : State) : State * list Effect :=
  let '(s1, saved) :=
    match currentAnnotation s with
    | Some cur =>
        let newCompleted := completedSteps s ∪ {[ id cur ]} in
        saveProgress newCompleted (setCompletedSteps newCompleted s)
    | None => (s, [])
    end in
  (if (currentStep s <? length_of (sortedAnnotations s) - 1)%Z
   then setCurrentStep (currentStep s + 1) s1 else s1, saved).

End SecondPlayer.

(** ** The list and delete handlers of the route files *)

Module RouteRest.
Import Table.

Inductive ListResponse : Type :=
| list_error (status : Z) (error : string)
| list_annotations (annotations : list Row).

Inductive DeleteResponse : Type :=
| delete_error (status : Z) (error : string)
| delete_success.

(** [orderBy: asc(a.order)]; rows of equal order are kept in table order. *)
Fixpoint insertRow (r : Row) (l : list Row) : list Row :=
  match l with
  | [] => [r]
  | r' :: l' => if (row_order r <=? row_order r')%Z then r :: l else r' :: insertRow r l'
  end.

Definition orderByOrder (l : list Row) : list Row := foldr insertRow [] l.

(** [GET], the same in both route files *)
Definition GET (session : option string) (tutorialId : string) (db : list Row)
    : ListResponse :=
  match session with
  | None => list_error 401 "Unauthorized"
  | Some _ => list_annotations (orderByOrder (findMany tutorialId db))
  end.

(** [DELETE], the same in both route files; [annotationId] is
    [searchParams.get("annotationId")]. *)
Definition DELETE (session : option string) (tutorialId : string)
    (annotationId : option string) (db : list Row) : DeleteResponse * list Row :=
  match session with
  | None => (delete_error 401 "Unauthorized", db)
  | Some _ =>
      match annotationId with
      | Some aid =>
          if String.eqb aid "" then (delete_error 400 "annotationId is required", db)
          else (delete_success, filter (fun r => matches aid tutorialId r = false) db)
      | None => (delete_error 400 "annotationId is required", db)
      end
  end.

End RouteRest.

(** ** Notions used in the statements *)

(** Sorted by [order], smallest first. *)
Definition byOrder (a b : Annotation) : Prop := (order a <= order b)%Z.

Definition rowByOrder (a b : Table.Row) : Prop :=
  (Table.row_order a <= Table.row_order b)%Z.

(** The identifiers of the steps before index [k] of the sorted list. *)
Definition firstIds (k : nat) (s : Player.State) : gset string :=
  list_to_set (map id (take k (Player.sortedAnnotations s))).

(** The identifiers of the tutorial's annotations are pairwise distinct. *)
Definition distinctIds (s : Player.State) : Prop :=
  NoDup (map id (Player.sortedAnnotations s)).

(** ** More concrete data *)

Module Samples.

(** An annotation far to the right of the camera of [Scene], in front of it. *)
Definition crane : Annotation :=
  {| id := "crane"; title := "Crane"; content := ""; imageUrl := None;
     x := Number.of_Z 100; y := Number.of_Z 0; z := Number.of_Z (-5); order := 3 |}.

End Samples.

(** * Properties *)

(** ** The order of numbers *)

Section NumberFacts.
Import Number.

Lemma compare_key (a b : number) :
  is_nan a = false -> is_nan b = false ->
  exists c, SFcompare a b = Some c
    /\ (c = Lt <-> before (key a) (key b))
    /\ (c = Gt <-> before (key b) (key a)).
Proof.
  assert (forall c p q,
             (c = Lt <-> before p q) -> (c = Gt <-> before q p) ->
             exists c', Some c = Some c'
               /\ (c' = Lt <-> before p q) /\ (c' = Gt <-> before q p)) as Hex
    by (intros c p q H1 H2; exists c; auto).
  destruct a as [sa | sa | | sa ma ea], b as [sb | sb | | sb mb eb];
    try discriminate; intros _ _;
    try destruct sa; try destruct sb; simpl;
    try (apply Hex; unfold before; simpl; split;
         first [discriminate | lia | reflexivity]).
  - change (Pos.compare_cont Eq ma mb) with (Pos.compare ma mb).
    apply Hex; unfold before; simpl;
      destruct (Z.compare_spec ea eb) as [-> | Hlt | Hgt];
      try destruct (Pos.compare_spec ma mb) as [-> | H | H]; simpl;
      split; first [discriminate | lia | reflexivity].
  - change (Pos.compare_cont Eq ma mb) with (Pos.compare ma mb).
    apply Hex; unfold before; simpl;
      destruct (Z.compare_spec ea eb) as [-> | Hlt | Hgt];
      try destruct (Pos.compare_spec ma mb) as [-> | H | H]; simpl;
      split; first [discriminate | lia | reflexivity].
Qed.

Lemma ltb_spec (a b : number) :
  (a <? b)%num = true <->
  is_nan a = false /\ is_nan b = false /\ before (key a) (key b).
Proof.
  unfold ltb, SFltb. split.
  - intros H.
    assert (is_nan a = false /\ is_nan b = false) as [Ha Hb]
      by (destruct a, b; try discriminate; auto).
    destruct (compare_key a b Ha Hb) as (c & Hc & Hlt & _).
    rewrite Hc in H. destruct c; try discriminate. tauto.
  - intros (Ha & Hb & Hk).
    destruct (compare_key a b Ha Hb) as (c & Hc & Hlt & _).
    rewrite Hc. apply Hlt in Hk. subst c. reflexivity.
Qed.

Lemma leb_spec (a b : number) :
  (a <=? b)%num = true <->
  is_nan a = false /\ is_nan b = false /\ ~ before (key b) (key a).
Proof.
  unfold leb, SFleb. split.
  - intros H.
    assert (is_nan a = false /\ is_nan b = false) as [Ha Hb]
      by (destruct a, b; try discriminate; auto).
    destruct (compare_key a b Ha Hb) as (c & Hc & _ & Hgt).
    rewrite Hc in H. split; [exact Ha |]. split; [exact Hb |].
    intros Hk. apply Hgt in Hk. subst c. discriminate.
  - intros (Ha & Hb & Hk).
    destruct (compare_key a b Ha Hb) as (c & Hc & _ & Hgt).
    rewrite Hc. destruct c; try reflexivity. exfalso. apply Hk, Hgt. reflexivity.
Qed.

(** Turns the comparisons among the hypotheses into facts about keys. *)
Ltac key_facts :=
  unfold lt, le in *;
  repeat match goal with
  | H : (_ <? _)%num = true |- _ => apply ltb_spec in H; destruct H as (? & ? & H)
  | H : (_ <=? _)%num = true |- _ => apply leb_spec in H; destruct H as (? & ? & H)
  end;
  unfold before in *.

Lemma lt_not_nan (a b : number) : (a < b)%num -> is_nan a = false /\ is_nan b = false.
Proof. intros H. key_facts. auto. Qed.

Lemma le_not_nan (a b : number) : (a <= b)%num -> is_nan a = false /\ is_nan b = false.
Proof. intros H. key_facts. auto. Qed.

Lemma lt_le (a b : number) : (a < b)%num -> (a <= b)%num.
Proof.
  intros H. key_facts. apply leb_spec. unfold before.
  repeat split; try assumption. lia.
Qed.

Lemma le_refl (a : number) : is_nan a = false -> (a <= a)%num.
Proof. intros H. apply leb_spec. unfold before. repeat split; try assumption. lia. Qed.

Lemma le_trans (a b c : number) : (a <= b)%num -> (b <= c)%num -> (a <= c)%num.
Proof.
  intros H1 H2. key_facts. apply leb_spec. unfold before.
  repeat split; try assumption. lia.
Qed.

Lemma lt_le_trans (a b c : number) : (a < b)%num -> (b <= c)%num -> (a < c)%num.
Proof.
  intros H1 H2. key_facts. apply ltb_spec. unfold before.
  repeat split; try assumption. lia.
Qed.

Lemma le_lt_trans (a b c : number) : (a <= b)%num -> (b < c)%num -> (a < c)%num.
Proof.
  intros H1 H2. key_facts. apply ltb_spec. unfold before.
  repeat split; try assumption. lia.
Qed.

(** What a failed comparison says when neither side is NaN. *)
Lemma ltb_false_le (a b : number) :
  is_nan a = false -> is_nan b = false -> (a <? b)%num = false -> (b <= a)%num.
Proof.
  intros Ha Hb H. apply leb_spec. repeat split; try assumption.
  intros Hk. rewrite (proj2 (ltb_spec a b)) in H by auto. discriminate.
Qed.

Lemma leb_false_lt (a b : number) :
  is_nan a = false -> is_nan b = false -> (a <=? b)%num = false -> (b < a)%num.
Proof.
  intros Ha Hb H. apply ltb_spec. repeat split; try assumption.
  destruct (key a) as [[a1 a2] a3] eqn:Ka, (key b) as [[b1 b2] b3] eqn:Kb.
  unfold before. simpl.
  destruct (decide (b1 < a1 \/ (b1 = a1 /\ (b2 < a2 \/ (b2 = a2 /\ b3 < a3))))%Z)
    as [Hd | Hd]; [exact Hd |].
  rewrite (proj2 (leb_spec a b)) in H; [discriminate |].
  repeat split; try assumption. rewrite Ka, Kb. exact Hd.
Qed.

Lemma le_ltb_false (a b : number) : (a <= b)%num -> (b <? a)%num = false.
Proof.
  intros H. apply not_true_iff_false. intros H'. key_facts. lia.
Qed.

Lemma lt_leb_false (a b : number) : (a < b)%num -> (b <=? a)%num = false.
Proof.
  intros H. apply not_true_iff_false. intros H'. key_facts. lia.
Qed.

(** Two values that bound each other are the same value, up to the sign
    of zero. *)
Lemma le_antisym (a b : number) :
  (a <= b)%num -> (b <= a)%num ->
  a = b \/ (exists s t, a = S754_zero s /\ b = S754_zero t).
Proof.
  intros H1 H2. key_facts.
  destruct a as [sa | sa | | sa ma ea], b as [sb | sb | | sb mb eb];
    try destruct sa; try destruct sb;
    simpl in *; try discriminate; try lia; eauto.
  - left. assert (Z.neg ma = Z.neg mb) as E by lia.
    assert (ea = eb) as -> by lia. congruence.
  - left. assert (Z.pos ma = Z.pos mb) as E by lia.
    assert (ea = eb) as -> by lia. congruence.
Qed.

Lemma between_finite (a b r : number) :
  is_finite a = true -> is_finite b = true -> (a <= r <= b)%num ->
  is_finite r = true.
Proof.
  intros Ha Hb [H1 H2]. key_facts.
  destruct r as [sr | sr | | sr mr er]; try reflexivity; try discriminate;
    destruct sr;
    destruct a as [sa | sa | | sa ma ea], b as [sb | sb | | sb mb eb];
    try destruct sa; try destruct sb; simpl in *;
    try discriminate; lia.
Qed.

Lemma Math_min_spec (a b : number) :
  is_nan a = false -> is_nan b = false ->
  (Math_min a b = a \/ Math_min a b = b)
  /\ (Math_min a b <= a)%num /\ (Math_min a b <= b)%num.
Proof.
  intros Ha Hb. unfold Math_min. rewrite Ha, Hb. simpl.
  destruct (a <? b)%num eqn:Hab.
  - split; [auto |]. split; [apply le_refl, Ha | apply lt_le, Hab].
  - apply (ltb_false_le _ _ Ha Hb) in Hab.
    destruct (b <? a)%num eqn:Hba.
    + split; [auto |]. split; [exact Hab | apply le_refl, Hb].
    + apply (ltb_false_le _ _ Hb Ha) in Hba.
      destruct a as [[] | | |]; split; auto using le_refl.
Qed.

Lemma Math_max_spec (a b : number) :
  is_nan a = false -> is_nan b = false ->
  (Math_max a b = a \/ Math_max a b = b)
  /\ (a <= Math_max a b)%num /\ (b <= Math_max a b)%num.
Proof.
  intros Ha Hb. unfold Math_max. rewrite Ha, Hb. simpl.
  destruct (a <? b)%num eqn:Hab.
  - split; [auto |]. split; [apply lt_le, Hab | apply le_refl, Hb].
  - apply (ltb_false_le _ _ Ha Hb) in Hab.
    destruct (b <? a)%num eqn:Hba.
    + split; [auto |]. split; [apply le_refl, Ha | exact Hab].
    + apply (ltb_false_le _ _ Hb Ha) in Hba.
      destruct a as [[] | | |]; split; auto using le_refl.
Qed.

End NumberFacts.

(** ** Rounding never gives NaN *)

Section RoundingFacts.
Import Number.

Lemma shr_1_nonneg (r : shr_record) : (0 <= shr_m r)%Z -> (0 <= shr_m (shr_1 r))%Z.
Proof.
  destruct r as [m r s]. destruct m as [| p | p]; simpl; try lia.
  intros _. destruct p; simpl; lia.
Qed.

Lemma iter_shr_1_nonneg (p : positive) (r : shr_record) :
  (0 <= shr_m r)%Z -> (0 <= shr_m (SpecFloat.iter_pos shr_1 p r))%Z.
Proof.
  revert r. induction p as [p IH | p IH |]; intros r Hr; simpl.
  - apply IH, IH, shr_1_nonneg, Hr.
  - apply IH, IH, Hr.
  - apply shr_1_nonneg, Hr.
Qed.

Lemma shr_fexp_nonneg (m e : Z) (l : location) :
  (0 <= m)%Z -> (0 <= shr_m (fst (shr_fexp prec emax m e l)))%Z.
Proof.
  intros Hm. unfold shr_fexp, shr.
  assert (0 <= shr_m (shr_record_of_loc m l))%Z as Hr
    by (destruct l as [| []]; exact Hm).
  destruct (fexp prec emax (Zdigits2 m + e) - e)%Z; simpl;
    auto using iter_shr_1_nonneg.
Qed.

Lemma round_nearest_even_nonneg (m : Z) (l : location) :
  (0 <= m)%Z -> (0 <= round_nearest_even m l)%Z.
Proof.
  intros Hm. destruct l as [| []]; simpl; try lia.
  destruct (Z.even m); lia.
Qed.

Lemma binary_round_aux_not_nan (s : bool) (m e : Z) (l : location) :
  (0 <= m)%Z -> is_nan (binary_round_aux prec emax s m e l) = false.
Proof.
  intros Hm. unfold binary_round_aux.
  pose proof (shr_fexp_nonneg m e l Hm) as H1.
  destruct (shr_fexp prec emax m e l) as [mrs' e']. simpl in H1.
  pose proof (shr_fexp_nonneg _ e' loc_Exact
                (round_nearest_even_nonneg _ (loc_of_shr_record mrs') H1)) as H2.
  destruct (shr_fexp prec emax _ e' loc_Exact) as [mrs'' e'']. simpl in H2.
  destruct (shr_m mrs'') as [| p | p]; [reflexivity | | lia].
  destruct (e'' <=? emax - prec)%Z; reflexivity.
Qed.

Lemma binary_normalize_not_nan (m e : Z) (szero : bool) :
  is_nan (binary_normalize prec emax m e szero) = false.
Proof.
  unfold binary_normalize, binary_round.
  destruct m as [| p | p]; [reflexivity | |];
    destruct (shl_align _ _ _) as [mz ez];
    apply binary_round_aux_not_nan; lia.
Qed.

Lemma of_Z_not_nan (n : Z) : is_nan (of_Z n) = false.
Proof. apply binary_normalize_not_nan. Qed.

(** Adding a finite value never turns a value that is not NaN into NaN. *)
Lemma add_finite_not_nan (a b : number) :
  is_nan a = false -> is_finite b = true -> is_nan (a + b)%num = false.
Proof.
  intros Ha Hb.
  destruct a as [sa | sa | | sa ma ea], b as [sb | sb | | sb mb eb];
    try discriminate; try destruct sa; try destruct sb; try reflexivity;
    apply binary_normalize_not_nan.
Qed.

End RoundingFacts.

(** ** The projector *)

Section ProjectorFacts.
Import Projector Scene.

Lemma isBehind_iff pos : isBehind pos = true <-> (Number.of_Z 1 < THREE.z pos)%num.
Proof. reflexivity. Qed.

Lemma isOffScreen_iff width height pos :
  isOffScreen width height pos = true <->
  (Number.of_Z 1 < THREE.z pos)%num
  \/ outside (- margin) (width + margin) (screenX width pos)
  \/ outside (- margin) (height + margin) (screenY height pos).
Proof.
  unfold isOffScreen, outside, isBehind, Number.lt.
  rewrite !orb_true_iff. tauto.
Qed.

Lemma visibility_behind width height pos :
  visibility width height pos = behind <-> (Number.of_Z 1 < THREE.z pos)%num.
Proof.
  unfold visibility. rewrite <- isBehind_iff.
  destruct (isBehind pos), (isOffScreen width height pos); split; congruence.
Qed.

Lemma visibility_offBounds width height pos :
  visibility width height pos = offBounds <->
  ~ (Number.of_Z 1 < THREE.z pos)%num
  /\ (outside (- margin) (width + margin) (screenX width pos)
      \/ outside (- margin) (height + margin) (screenY height pos)).
Proof.
  unfold visibility.
  destruct (isBehind pos) eqn:Hb.
  - apply isBehind_iff in Hb. split; [discriminate | tauto].
  - assert (~ (Number.of_Z 1 < THREE.z pos)%num) as Hnb
      by (rewrite <- isBehind_iff; congruence).
    destruct (isOffScreen width height pos) eqn:Ho.
    + apply isOffScreen_iff in Ho. split; [tauto | reflexivity].
    + split; [discriminate |]. intros [_ Hout].
      assert (isOffScreen width height pos = true) by (apply isOffScreen_iff; tauto).
      congruence.
Qed.

Lemma visibility_onScreen width height pos :
  visibility width height pos = onScreen <-> isOffScreen width height pos = false.
Proof.
  unfold visibility, isOffScreen.
  destruct (isBehind pos); simpl; [split; discriminate |].
  match goal with |- context [if ?b then _ else _] => destruct b end;
    split; congruence.
Qed.

(** Not outside, for a value that is a number, is inside. *)
Lemma not_outside_inside (lo hi v : number) :
  Number.is_nan lo = false -> Number.is_nan hi = false -> Number.is_nan v = false ->
  ~ outside lo hi v -> (lo <= v <= hi)%num.
Proof.
  unfold outside, Number.lt. intros Hlo Hhi Hv Hout. split.
  - apply ltb_false_le; try assumption.
    apply not_true_iff_false. tauto.
  - apply ltb_false_le; try assumption.
    apply not_true_iff_false. tauto.
Qed.

Lemma inside_not_outside (lo hi v : number) :
  (lo <= v <= hi)%num -> ~ outside lo hi v.
Proof.
  unfold outside, Number.lt. intros [H1 H2] [H | H].
  - rewrite (le_ltb_false _ _ H1) in H. discriminate.
  - rewrite (le_ltb_false _ _ H2) in H. discriminate.
Qed.

(** C1: the screen position is [(ndc.x * 0.5 + 0.5) * width] and
    [(-ndc.y * 0.5 + 0.5) * height], in the arithmetic of the script; a
    point is behind exactly when its projected depth exceeds 1, off-bounds
    exactly when it is not behind and one screen coordinate lies outside
    [-20, dimension + 20], and on screen in every other case, where a marker
    is drawn at the screen position.  A point within the bounds is on
    screen, and of a point on screen every coordinate that is a number is
    within its bounds. *)
Theorem projector_classification (camera : THREE.Camera) (r : Renderer)
    (activeAnnotationId : option string) (ann : Annotation) (index : Z) :
  let width := Number.of_Z (clientWidth r) in
  let height := Number.of_Z (clientHeight r) in
  let ndc := project camera ann in
  let sx := screenX width ndc in
  let sy := screenY height ndc in
  let one := Number.of_Z 1 in
  let twenty := Number.of_Z 20 in
  sx = ((THREE.x ndc * Number.decimal 5 10 + Number.decimal 5 10) * width)%num
  /\ sy = ((- THREE.y ndc * Number.decimal 5 10 + Number.decimal 5 10) * height)%num
  /\ (visibility width height ndc = behind <-> (one < THREE.z ndc)%num)
  /\ (visibility width height ndc = offBounds <->
      ~ (one < THREE.z ndc)%num
      /\ (outside (- twenty) (width + twenty) sx
          \/ outside (- twenty) (height + twenty) sy))
  /\ (visibility width height ndc = onScreen <->
      ~ (one < THREE.z ndc)%num
      /\ ~ outside (- twenty) (width + twenty) sx
      /\ ~ outside (- twenty) (height + twenty) sy)
  /\ ((THREE.z ndc <= one)%num
      /\ (- twenty <= sx <= width + twenty)%num
      /\ (- twenty <= sy <= height + twenty)%num ->
      visibility width height ndc = onScreen)
  /\ (visibility width height ndc = onScreen ->
      (Number.is_nan (THREE.z ndc) = false -> (THREE.z ndc <= one)%num)
      /\ (Number.is_nan sx = false -> (- twenty <= sx <= width + twenty)%num)
      /\ (Number.is_nan sy = false -> (- twenty <= sy <= height + twenty)%num))
  /\ (visibility width height ndc = onScreen ->
      exists m, renderAnnotation camera width height activeAnnotationId ann index = inr m
                /\ style_left m = px sx /\ style_top m = px sy
                /\ "annotation-marker" ∈ classes m)
  /\ (visibility width height ndc <> onScreen ->
      renderAnnotation camera width height activeAnnotationId ann index
      = indicator width height activeAnnotationId ann index ndc).
Proof.
  intros width height ndc sx sy one twenty.
  assert (visibility width height ndc = onScreen <->
          ~ (one < THREE.z ndc)%num
          /\ ~ outside (- twenty) (width + twenty) sx
          /\ ~ outside (- twenty) (height + twenty) sy) as Hon.
  { rewrite visibility_onScreen, <- not_true_iff_false, isOffScreen_iff.
    fold sx sy. change margin with twenty. tauto. }
  split; [reflexivity |]. split; [reflexivity |].
  split; [apply visibility_behind |].
  split; [apply visibility_offBounds |].
  split; [exact Hon |].
  split; [| split; [| split]].
  - intros (Hz & Hx & Hy). apply Hon. split; [| split].
    + unfold Number.lt. rewrite (le_ltb_false _ _ Hz). discriminate.
    + apply inside_not_outside, Hx.
    + apply inside_not_outside, Hy.
  - intros Hv. apply Hon in Hv as (Hz & Hx & Hy).
    assert (Number.is_nan (- twenty)%num = false) as Hlo by reflexivity.
    assert (forall n, Number.is_nan (Number.of_Z n + twenty)%num = false) as Hhi
      by (intros n; apply add_finite_not_nan; [apply of_Z_not_nan | reflexivity]).
    split; [| split].
    + intros Hn. apply ltb_false_le; [reflexivity | exact Hn |].
      apply not_true_iff_false. exact Hz.
    + intros Hn. apply not_outside_inside; [exact Hlo | apply Hhi | exact Hn | exact Hx].
    + intros Hn. apply not_outside_inside; [exact Hlo | apply Hhi | exact Hn | exact Hy].
  - intros Hv. apply visibility_onScreen in Hv.
    unfold renderAnnotation. fold ndc. rewrite Hv. simpl.
    eexists. split; [reflexivity |]. repeat split. simpl. constructor.
  - intros Hoff. unfold renderAnnotation. fold ndc.
    destruct (isOffScreen width height ndc) eqn:Ho; [reflexivity |].
    apply visibility_onScreen in Ho. contradiction.
Qed.

Lemma padding_not_nan : Number.is_nan padding = false.
Proof. vm_compute. reflexivity. Qed.

Lemma key_padding : Number.key padding = (1, -47, 8444249301319680)%Z.
Proof. vm_compute. reflexivity. Qed.

(** A value at or above the padding is positive: not a zero, not NaN. *)
Lemma above_padding (a : number) :
  (padding <= a)%num ->
  Number.is_nan a = false
  /\ (forall s, a <> S754_zero s)
  /\ (forall b : number, match a with
                         | S754_zero false => b
                         | _ => a
                         end = a).
Proof.
  intros H. pose proof (le_not_nan _ _ H) as [_ Ha].
  apply leb_spec in H as (_ & _ & H). rewrite key_padding in H.
  unfold Number.before in H.
  destruct a as [sa | sa | | sa ma ea]; try discriminate;
    try destruct sa; simpl in H; try lia;
    repeat split; try discriminate; reflexivity.
Qed.

Lemma Math_max_padding (m : number) :
  (m <= padding)%num -> Number.Math_max padding m = padding.
Proof.
  intros H. pose proof (le_not_nan _ _ H) as [Hm _].
  unfold Number.Math_max. rewrite padding_not_nan, Hm, (le_ltb_false _ _ H). simpl.
  destruct (m <? padding)%num; reflexivity.
Qed.

Lemma clamped_low size e :
  (padding <= size - padding)%num -> (e <= padding)%num ->
  clamped size e = padding.
Proof.
  intros Hs He. unfold clamped. apply Math_max_padding.
  destruct (above_padding _ Hs) as (Ha & _).
  pose proof (le_not_nan _ _ He) as [Hen _].
  destruct (Math_min_spec (size - padding)%num e Ha Hen) as (_ & _ & Hm).
  eapply le_trans; eassumption.
Qed.

Lemma clamped_high size e :
  (padding <= size - padding)%num -> (size - padding <= e)%num ->
  clamped size e = (size - padding)%num.
Proof.
  intros Hs He. unfold clamped.
  destruct (above_padding _ Hs) as (Ha & _ & Hz).
  pose proof (le_not_nan _ _ He) as [_ Hen].
  assert (Number.Math_min (size - padding)%num e = (size - padding)%num) as ->.
  { unfold Number.Math_min. rewrite Ha, Hen, (le_ltb_false _ _ He). simpl.
    destruct (_ <? e)%num; [reflexivity | apply Hz]. }
  unfold Number.Math_max. rewrite padding_not_nan, Ha. simpl.
  destruct (padding <? size - padding)%num eqn:Hlt; [reflexivity |].
  apply (ltb_false_le _ _ padding_not_nan Ha) in Hlt.
  rewrite (le_ltb_false _ _ Hs).
  destruct (le_antisym _ _ Hs Hlt) as [Heq | (s & t & Hp & _)];
    [| vm_compute in Hp; discriminate].
  rewrite <- Heq. reflexivity.
Qed.

Lemma clamped_range size e :
  (padding <= size - padding)%num -> Number.is_nan e = false ->
  (padding <= clamped size e <= size - padding)%num.
Proof.
  intros Hs He. unfold clamped.
  destruct (above_padding _ Hs) as (Ha & _).
  destruct (Math_min_spec (size - padding)%num e Ha He) as (Hm & Hma & _).
  assert (Number.is_nan (Number.Math_min (size - padding)%num e) = false) as Hmn
    by (destruct Hm as [-> | ->]; assumption).
  destruct (Math_max_spec padding _ padding_not_nan Hmn) as (Hx & Hxp & _).
  split; [exact Hxp |].
  destruct Hx as [-> | ->]; assumption.
Qed.

(** The mirrored path: behind the camera the indicator starts from the
    screen position of the negated device coordinates. *)
Lemma edge_behind width height pos :
  isBehind pos = true ->
  edge width height pos
  = (screenX width {| THREE.x := - THREE.x pos; THREE.y := - THREE.y pos;
                      THREE.z := THREE.z pos |},
     screenY height {| THREE.x := - THREE.x pos; THREE.y := - THREE.y pos;
                       THREE.z := THREE.z pos |}).
Proof. unfold edge. intros ->. reflexivity. Qed.

Lemma edge_not_behind width height pos :
  isBehind pos = false ->
  edge width height pos = (screenX width pos, screenY height pos).
Proof. unfold edge. intros ->. reflexivity. Qed.

(** The direction follows the order left, right, top, bottom, none, and
    where the padding fits twice into the canvas both offsets are the edge
    coordinates clamped into [60, dimension - 60]. *)
Lemma placement_spec width height edgeX edgeY :
  (padding <= width - padding)%num -> (padding <= height - padding)%num ->
  let '(direction, (leftPx, topPx)) := placement width height edgeX edgeY in
  leftPx = clamped width edgeX /\ topPx = clamped height edgeY
  /\ direction =
     (if (edgeX <=? padding)%num then "left"
      else if (width - padding <=? edgeX)%num then "right"
      else if (edgeY <=? padding)%num then "top"
      else if (height - padding <=? edgeY)%num then "bottom"
      else "").
Proof.
  intros Hw Hh. unfold placement.
  destruct (edgeX <=? padding)%num eqn:H1.
  { rewrite (clamped_low _ _ Hw H1). repeat split; reflexivity. }
  destruct (width - padding <=? edgeX)%num eqn:H2.
  { rewrite (clamped_high _ _ Hw H2). repeat split; reflexivity. }
  destruct (edgeY <=? padding)%num eqn:H3.
  { rewrite (clamped_low _ _ Hh H3). repeat split; reflexivity. }
  destruct (height - padding <=? edgeY)%num eqn:H4.
  { rewrite (clamped_high _ _ Hh H4). repeat split; reflexivity. }
  repeat split; reflexivity.
Qed.

(** Near the top-left corner the direction is left. *)
Lemma placement_corner width height edgeX edgeY :
  (edgeX <= padding)%num -> (edgeY <= padding)%num ->
  fst (placement width height edgeX edgeY) = "left".
Proof.
  intros Hx _. unfold placement. unfold Number.le in Hx. rewrite Hx. reflexivity.
Qed.

(** Every direction but the empty one yields an indicator. *)
Lemma indicator_directed width height activeAnnotationId ann index pos :
  fst (placement width height (fst (edge width height pos))
                              (snd (edge width height pos))) <> "" ->
  exists el, indicator width height activeAnnotationId ann index pos = inr el.
Proof.
  unfold indicator. destruct (edge width height pos) as [edgeX edgeY]. simpl.
  destruct (placement width height edgeX edgeY) as [direction [leftPx topPx]]. simpl.
  intros Hd. unfold classList_add.
  destruct (String.eqb direction "") eqn:He; [| eauto].
  apply String.eqb_eq in He. contradiction.
Qed.

(** C2, at a point straight behind the camera: its mirrored position is
    the centre of the canvas, no direction applies, and adding the empty
    class token raises; no indicator is appended, and the annotations after
    it in the list are not drawn either. *)
Theorem interior_indicator_raises :
  let width := Number.of_Z 800 in
  let height := Number.of_Z 600 in
  let ndc := project camera valve in
  visibility width height ndc = behind
  /\ fst (edge width height ndc) = Number.of_Z 400
  /\ snd (edge width height ndc) = Number.of_Z 300
  /\ fst (placement width height (fst (edge width height ndc))
                                 (snd (edge width height ndc))) = ""
  /\ renderAnnotation camera width height None valve 0 = inl SyntaxError
  /\ updateAnnotationPositions (Some camera) (Some renderer) [valve; gauge] None []
     = ([], Some SyntaxError)
  /\ (exists m, renderAnnotation camera width height None gauge 1 = inr m).
Proof.
  repeat split; try (vm_compute; reflexivity).
  eexists. vm_compute. reflexivity.
Qed.

(** The rounding of the script next to the margin: the device coordinate
    1.05 on a canvas of 800 pixels gives 819.9999999999999, not above
    820, and the marker is drawn. *)
Lemma screenX_rounded :
  screenX (Number.of_Z 800) (project (fun p => p) rim)
  = Number.double 7212796278210559 (-43)
  /\ (screenX (Number.of_Z 800) (project (fun p => p) rim)
      <= Number.of_Z 800 + Number.of_Z 20)%num
  /\ visibility (Number.of_Z 800) (Number.of_Z 600) (project (fun p => p) rim)
     = onScreen.
Proof. repeat split; vm_compute; reflexivity. Qed.

(** A point of the camera plane: the perspective divide multiplies by
    [1 / 0], the device coordinates are infinite or NaN, and the indicator
    is drawn at the right edge without its [top]. *)
Lemma camera_plane_indicator :
  project camera level
  = {| THREE.x := S754_infinity false; THREE.y := S754_nan;
       THREE.z := S754_infinity true |}
  /\ exists el,
       renderAnnotation camera (Number.of_Z 800) (Number.of_Z 600) None level 0 = inr el
       /\ "right" ∈ classes el
       /\ style_left el = Some (Number.of_Z 740) /\ style_top el = None.
Proof.
  split; [vm_compute; reflexivity |].
  eexists. split; [vm_compute; reflexivity |].
  split; [repeat constructor |]. split; vm_compute; reflexivity.
Qed.

(** Every canvas size up to [maxSize], one by one. *)
Lemma sizes_checked :
  forallb sizeChecked (map Z.of_nat (seq 0 (Z.to_nat (maxSize + 1)))) = true.
Proof. vm_cast_no_check (eq_refl true). Qed.

Lemma sizeChecked_range (w : Z) :
  (0 <= w <= maxSize)%Z ->
  (Number.of_Z w - padding <= Number.of_Z w + margin)%num
  /\ Number.is_finite (Number.of_Z w - padding)%num = true
  /\ ((120 <= w)%Z -> (padding <= Number.of_Z w - padding)%num).
Proof.
  intros Hw.
  assert (sizeChecked w = true) as H.
  { pose proof sizes_checked as Hall. rewrite forallb_forall in Hall.
    apply Hall. apply in_map_iff. exists (Z.to_nat w).
    split; [lia |]. apply in_seq. lia. }
  unfold sizeChecked in H. apply andb_true_iff in H as [H H3].
  apply andb_true_iff in H as [H1 H2].
  split; [exact H1 |]. split; [exact H2 |].
  intros H120. apply orb_true_iff in H3 as [H3 | H3]; [| exact H3].
  apply Z.ltb_lt in H3. lia.
Qed.

End ProjectorFacts.
(** ** Lists, indices and the sorted view *)

Section PlayerFacts.
Import Player.

Lemma at_index_Some {A : Type} (l : list A) (i : Z) (a : A) :
  at_index l i = Some a -> (0 <= i < length_of l)%Z /\ a ∈ l.
Proof.
  unfold at_index, length_of. destruct (i <? 0)%Z eqn:Hi; [discriminate |].
  intros Hl. apply Z.ltb_ge in Hi. split.
  - apply lookup_lt_Some in Hl. lia.
  - eapply list_elem_of_lookup_2, Hl.
Qed.

Lemma at_index_in_range {A : Type} (l : list A) (i : Z) :
  (0 <= i < length_of l)%Z -> exists a, at_index l i = Some a.
Proof.
  unfold at_index, length_of. intros Hi.
  destruct (i <? 0)%Z eqn:Hneg; [apply Z.ltb_lt in Hneg; lia |].
  apply lookup_lt_is_Some_2. lia.
Qed.

Lemma at_index_nil {A : Type} (i : Z) : at_index (@nil A) i = None.
Proof. unfold at_index. destruct (i <? 0)%Z; reflexivity. Qed.

Lemma findIndexFrom_range {A : Type} (p : A -> bool) (l : list A) (i : Z) :
  findIndexFrom p l i = (-1)%Z
  \/ (i <= findIndexFrom p l i < i + length_of l)%Z.
Proof.
  unfold length_of. revert i. induction l as [| a l IH]; intros i; simpl.
  - left. reflexivity.
  - destruct (p a); [right; lia |].
    destruct (IH (i + 1)%Z) as [-> | H]; [left; reflexivity | right; lia].
Qed.

Lemma findIndexFrom_none {A : Type} (p : A -> bool) (l : list A) (i : Z) :
  (0 <= i)%Z ->
  findIndexFrom p l i = (-1)%Z <-> (forall a, a ∈ l -> p a = false).
Proof.
  revert i. induction l as [| a l IH]; intros i Hi; simpl.
  - split; [intros _ a Ha; inversion Ha | reflexivity].
  - destruct (p a) eqn:Hp.
    + split; [lia |]. intros H. rewrite (H a) in Hp by left. discriminate.
    + rewrite IH by lia. split.
      * intros H b Hb. apply elem_of_cons in Hb as [-> | Hb]; auto.
      * intros H b Hb. apply H. right. exact Hb.
Qed.

Lemma findIndexFrom_first {A : Type} (p : A -> bool) (l : list A) (i : Z) :
  (0 <= i)%Z ->
  findIndexFrom p l i <> (-1)%Z ->
  (exists a, l !! Z.to_nat (findIndexFrom p l i - i) = Some a /\ p a = true)
  /\ (forall j b, (j < Z.to_nat (findIndexFrom p l i - i))%nat ->
                  l !! j = Some b -> p b = false).
Proof.
  revert i. induction l as [| a l IH]; intros i Hi; simpl; [congruence |].
  destruct (p a) eqn:Hp; intros Hr.
  - rewrite Z.sub_diag. simpl. split; [eauto | intros j b Hj; lia].
  - destruct (findIndexFrom_range p l (i + 1)) as [H | H]; [congruence |].
    destruct (IH (i + 1)%Z ltac:(lia) Hr) as [(b & Hb & Hpb) Hbefore].
    replace (Z.to_nat (findIndexFrom p l (i + 1) - i))
      with (S (Z.to_nat (findIndexFrom p l (i + 1) - (i + 1)))) by lia.
    split; [exists b; auto |].
    intros [| j] c Hj Hc; simpl in Hc; [congruence |].
    eapply Hbefore; [| exact Hc]. lia.
Qed.

Lemma insertByOrder_perm (a : Annotation) (l : list Annotation) :
  insertByOrder a l ≡ₚ a :: l.
Proof.
  induction l as [| b l IH]; simpl; [reflexivity |].
  destruct (order a <=? order b)%Z; [reflexivity |].
  rewrite IH. apply Permutation_swap.
Qed.

Lemma sortByOrder_perm (l : list Annotation) : sortByOrder l ≡ₚ l.
Proof.
  induction l as [| a l IH]; simpl; [reflexivity |].
  rewrite insertByOrder_perm, IH. reflexivity.
Qed.

Lemma sortedAnnotations_ids (s : State) (a : Annotation) :
  a ∈ sortedAnnotations s -> id a ∈ annotationIds s.
Proof.
  unfold sortedAnnotations, annotationIds.
  destruct (tutorial s) as [t |]; [| intros H; inversion H].
  rewrite sortByOrder_perm, elem_of_list_to_set. intros Ha.
  apply list_elem_of_fmap. exists a. auto.
Qed.

Lemma sortedAnnotations_empty (s : State) :
  (forall t, tutorial s = Some t -> annotations t = []) ->
  sortedAnnotations s = [].
Proof.
  unfold sortedAnnotations. destruct (tutorial s) as [t |]; [| reflexivity].
  intros H. rewrite (H t eq_refl). reflexivity.
Qed.

Lemma has_true (c : gset string) (k : string) : has c k = true <-> k ∈ c.
Proof. unfold has. apply bool_decide_eq_true. Qed.

Lemma has_false (c : gset string) (k : string) : has c k = false <-> k ∉ c.
Proof. unfold has. apply bool_decide_eq_false. Qed.

(** [nextRequiredStep] is [-1] exactly when every step is completed. *)
Lemma nextRequiredStep_none (s : State) :
  nextRequiredStep s = (-1)%Z <->
  (forall a, a ∈ sortedAnnotations s -> id a ∈ completedSteps s).
Proof.
  unfold nextRequiredStep, findIndex. rewrite findIndexFrom_none by lia.
  split; intros H a Ha; specialize (H a Ha).
  - apply negb_false_iff, has_true in H. exact H.
  - apply negb_false_iff, has_true. exact H.
Qed.

(** Otherwise it is the index of the first step that is not completed. *)
Lemma nextRequiredStep_first (s : State) :
  nextRequiredStep s <> (-1)%Z ->
  (exists a, at_index (sortedAnnotations s) (nextRequiredStep s) = Some a
             /\ id a ∉ completedSteps s)
  /\ (forall j a, (0 <= j < nextRequiredStep s)%Z ->
                  at_index (sortedAnnotations s) j = Some a ->
                  id a ∈ completedSteps s).
Proof.
  unfold nextRequiredStep, findIndex. intros Hr.
  set (p := fun ann => negb (has (completedSteps s) (id ann))) in *.
  destruct (findIndexFrom_range p (sortedAnnotations s) 0) as [H | Hrange];
    [congruence |].
  destruct (findIndexFrom_first p (sortedAnnotations s) 0 ltac:(lia) Hr)
    as [(a & Ha & Hpa) Hbefore].
  rewrite Z.sub_0_r in Ha, Hbefore. split.
  - exists a. unfold at_index.
    destruct (_ <? 0)%Z eqn:Hneg; [apply Z.ltb_lt in Hneg; lia |].
    split; [exact Ha |]. apply has_false, negb_true_iff, Hpa.
  - intros j b Hj Hb. unfold at_index in Hb.
    destruct (j <? 0)%Z eqn:Hneg; [discriminate |].
    apply has_true, negb_false_iff. apply (Hbefore (Z.to_nat j) b); [lia | exact Hb].
Qed.

End PlayerFacts.

(** ** [markComplete] *)

Section MarkComplete.
Import Player Lesson.

Lemma markComplete_gated (s : State) (cur : Annotation) :
  currentAnnotation s = Some cur ->
  id cur ∉ completedSteps s ->
  markComplete s =
    if negb (nextRequiredStep s =? -1)%Z && negb (currentStep s =? nextRequiredStep s)%Z
    then (setProximityWarning (Some (completeFirst (nextRequiredStep s + 1))) s,
          [setTimeout_clearWarning 2000])
    else if negb (isNearCurrentAnnotation s)
    then (setProximityWarning (Some moveCloser) s, [setTimeout_clearWarning 2000])
    else
      let newCompleted := completedSteps s ∪ {[ id cur ]} in
      let '(s1, saved) := saveProgress newCompleted (setCompletedSteps newCompleted s) in
      let s2 := setProximityWarning None s1 in
      (if (currentStep s <? length_of (sortedAnnotations s) - 1)%Z
       then setCurrentStep (currentStep s + 1) s2 else s2, saved).
Proof.
  intros Hcur Hnot. unfold markComplete. rewrite Hcur.
  apply has_false in Hnot. rewrite Hnot. reflexivity.
Qed.

(** C3, as the code has it: [nextRequiredStep] is the index of the first
    step not yet completed, [-1] when there is none; when the current step
    exists and is not itself completed, and [nextRequiredStep] is not [-1]
    and differs from the current index, [markComplete] only sets the warning
    naming step [nextRequiredStep + 1] (and arms its 2 second timer). *)
Theorem sequential_gate (s : State) :
  (nextRequiredStep s = (-1)%Z <->
   forall a, a ∈ sortedAnnotations s -> id a ∈ completedSteps s)
  /\ (nextRequiredStep s <> (-1)%Z ->
      (exists a, at_index (sortedAnnotations s) (nextRequiredStep s) = Some a
                 /\ id a ∉ completedSteps s)
      /\ (forall j a, (0 <= j < nextRequiredStep s)%Z ->
                      at_index (sortedAnnotations s) j = Some a ->
                      id a ∈ completedSteps s))
  /\ (forall cur,
      currentAnnotation s = Some cur ->
      id cur ∉ completedSteps s ->
      nextRequiredStep s <> (-1)%Z ->
      nextRequiredStep s <> currentStep s ->
      markComplete s =
        (setProximityWarning (Some (completeFirst (nextRequiredStep s + 1))) s,
         [setTimeout_clearWarning 2000])).
Proof.
  split; [apply nextRequiredStep_none |].
  split; [apply nextRequiredStep_first |].
  intros cur Hcur Hnot Hsome Hdiff.
  rewrite (markComplete_gated s cur Hcur Hnot).
  apply Z.eqb_neq in Hsome. rewrite Hsome.
  assert ((currentStep s =? nextRequiredStep s)%Z = false) as ->
    by (apply Z.eqb_neq; congruence).
  reflexivity.
Qed.

(** With [A; B; C] all open and the learner on B: [nextRequiredStep] is 0
    and the warning names step 1; nothing else moves. *)
Lemma sequential_gate_witness :
  nextRequiredStep (learner abc 1 ∅ origin) = 0%Z
  /\ markComplete (learner abc 1 ∅ origin)
     = (setProximityWarning (Some "Complete step 1 first!") (learner abc 1 ∅ origin),
        [setTimeout_clearWarning 2000]).
Proof.
  split; [reflexivity |].
  assert (completeFirst (nextRequiredStep (learner abc 1 ∅ origin) + 1)
          = "Complete step 1 first!") as <- by (vm_compute; reflexivity).
  apply (proj2 (proj2 (sequential_gate (learner abc 1 ∅ origin))) B).
  - reflexivity.
  - apply (proj1 (has_false _ _)). reflexivity.
  - vm_compute. discriminate.
  - vm_compute. discriminate.
Defined.

(** Against C3 as worded: with B already completed and the learner on B,
    [nextRequiredStep] is 0, not the current index 1, and yet the warning
    is the one of the earlier check. *)
Lemma sequential_gate_after_completed_check :
  nextRequiredStep (learner abc 1 {[ "B" ]} origin) = 0%Z
  /\ nextRequiredStep (learner abc 1 {[ "B" ]} origin) <> (-1)%Z
  /\ nextRequiredStep (learner abc 1 {[ "B" ]} origin)
     <> currentStep (learner abc 1 {[ "B" ]} origin)
  /\ markComplete (learner abc 1 {[ "B" ]} origin)
     = (setProximityWarning (Some alreadyCompleted) (learner abc 1 {[ "B" ]} origin),
        [setTimeout_clearWarning 2000])
  /\ proximityWarning (fst (markComplete (learner abc 1 {[ "B" ]} origin)))
     <> Some (completeFirst
                (nextRequiredStep (learner abc 1 {[ "B" ]} origin) + 1)).
Proof.
  repeat split; try (vm_compute; reflexivity); vm_compute; discriminate.
Qed.

Lemma isNearCurrentAnnotation_iff (s : State) (cur : Annotation) :
  currentAnnotation s = Some cur ->
  isNearCurrentAnnotation s = true <->
  (getDistance (cameraPosition s)
               {| THREE.x := x cur; THREE.y := y cur; THREE.z := z cur |}
   < Number.of_Z 3)%num.
Proof.
  intros Hcur. unfold isNearCurrentAnnotation. rewrite Hcur. reflexivity.
Qed.

Lemma saveProgress_fields (c : gset string) (s : State) :
  completedSteps (fst (saveProgress c s)) = completedSteps s
  /\ currentStep (fst (saveProgress c s)) = currentStep s
  /\ proximityWarning (fst (saveProgress c s)) = proximityWarning s
  /\ tutorial (fst (saveProgress c s)) = tutorial s.
Proof.
  unfold saveProgress.
  destruct (session s); [destruct (tutorial s) eqn:Ht |];
    simpl; rewrite ?Ht; repeat split; reflexivity.
Qed.

(** C4, as the code has it: the proximity check of [markComplete] passes
    exactly when the distance from the last camera position to the current
    annotation, as the page computes it - [Math.sqrt] of the sum of the
    three squared differences, every operation rounded to a double - is
    below 3.  On a call that reaches it (the current step exists, is not
    completed, and the sequential check has passed), passing completes the
    step, and failing only sets the proximity warning (and arms its
    timer). *)
Theorem proximity_gate (s : State) (cur : Annotation) :
  currentAnnotation s = Some cur ->
  id cur ∉ completedSteps s ->
  nextRequiredStep s = (-1)%Z \/ nextRequiredStep s = currentStep s ->
  let dx := (THREE.x (cameraPosition s) - x cur)%num in
  let dy := (THREE.y (cameraPosition s) - y cur)%num in
  let dz := (THREE.z (cameraPosition s) - z cur)%num in
  let distance := Number.Math_sqrt (dx * dx + dy * dy + dz * dz)%num in
  (isNearCurrentAnnotation s = true <-> (distance < Number.of_Z 3)%num)
  /\ ((distance < Number.of_Z 3)%num ->
      completedSteps (fst (markComplete s)) = completedSteps s ∪ {[ id cur ]}
      /\ proximityWarning (fst (markComplete s)) = None)
  /\ (~ (distance < Number.of_Z 3)%num ->
      markComplete s
      = (setProximityWarning (Some moveCloser) s, [setTimeout_clearWarning 2000])).
Proof.
  intros Hcur Hnot Hseq dx dy dz distance.
  pose proof (isNearCurrentAnnotation_iff s cur Hcur) as Hnear.
  change (getDistance _ _) with distance in Hnear.
  assert (negb (nextRequiredStep s =? -1)%Z
          && negb (currentStep s =? nextRequiredStep s)%Z = false) as Hgate.
  { destruct Hseq as [-> | ->]; [reflexivity |].
    rewrite Z.eqb_refl. apply andb_false_r. }
  split; [exact Hnear |]. split.
  - intros Hd. apply Hnear in Hd.
    rewrite (markComplete_gated s cur Hcur Hnot), Hgate, Hd. simpl.
    set (c := completedSteps s ∪ {[ id cur ]}).
    destruct (saveProgress_fields c (setCompletedSteps c s)) as (Hc & _ & _ & _).
    destruct (saveProgress c (setCompletedSteps c s)) as [s1 saved]. simpl in Hc.
    destruct (currentStep s <? length_of (sortedAnnotations s) - 1)%Z;
      simpl; split; auto.
  - intros Hd.
    assert (isNearCurrentAnnotation s = false) as Hfar
      by (apply not_true_iff_false; intros H; apply Hd, Hnear, H).
    rewrite (markComplete_gated s cur Hcur Hnot), Hgate, Hfar. reflexivity.
Qed.

(** The annotation at the origin: from (0, 0, 2.9) the step is completed,
    from (0, 0, 3.1) only the proximity warning is set. *)
Lemma proximity_gate_witness :
  (completedSteps (fst (markComplete (learner solo 0 ∅ near))) = ∅ ∪ {[ "A" ]}
   /\ proximityWarning (fst (markComplete (learner solo 0 ∅ near))) = None)
  /\ markComplete (learner solo 0 ∅ far)
     = (setProximityWarning (Some moveCloser) (learner solo 0 ∅ far),
        [setTimeout_clearWarning 2000]).
Proof.
  assert (forall cam, currentAnnotation (learner solo 0 ∅ cam) = Some A) as Hcur
    by reflexivity.
  assert (id A ∉ (∅ : gset string)) as Hnot
    by (apply (proj1 (has_false _ _)); reflexivity).
  assert (forall cam, nextRequiredStep (learner solo 0 ∅ cam) = (-1)%Z
                      \/ nextRequiredStep (learner solo 0 ∅ cam)
                         = currentStep (learner solo 0 ∅ cam)) as Hseq
    by (intros cam; right; reflexivity).
  split.
  - destruct (proximity_gate (learner solo 0 ∅ near) A (Hcur near) Hnot (Hseq near))
      as (_ & Hpass & _).
    apply Hpass. vm_compute. reflexivity.
  - destruct (proximity_gate (learner solo 0 ∅ far) A (Hcur far) Hnot (Hseq far))
      as (_ & _ & Hfail).
    apply Hfail. intros Hd. vm_compute in Hd. discriminate.
Defined.

(** Against C4 as worded, on either side of the threshold.  From [grazing]
    the Euclidean distance to the annotation at the origin is above 3 (its
    square is above 9), yet the sum of the rounded squares is below 9, the
    check passes and the step is completed.  From [shy] the Euclidean
    distance is below 3, yet the rounded sum is 9, its root is 3, and the
    step is refused with the proximity warning. *)
Lemma proximity_gate_rounding :
  (9 < exactSquaredDistance grazing origin)%Q
  /\ currentAnnotation (learner solo 0 ∅ grazing) = Some A
  /\ isNearCurrentAnnotation (learner solo 0 ∅ grazing) = true
  /\ completedSteps (fst (markComplete (learner solo 0 ∅ grazing))) = {[ "A" ]}
  /\ (exactSquaredDistance shy origin < 9)%Q
  /\ currentAnnotation (learner solo 0 ∅ shy) = Some A
  /\ getDistance shy origin = Number.of_Z 3
  /\ isNearCurrentAnnotation (learner solo 0 ∅ shy) = false
  /\ markComplete (learner solo 0 ∅ shy)
     = (setProximityWarning (Some moveCloser) (learner solo 0 ∅ shy),
        [setTimeout_clearWarning 2000]).
Proof.
  repeat split; vm_compute; reflexivity.
Qed.

(** C5: on a step that is already completed, [markComplete] sets the
    warning and nothing else - the completed set, the index and the saving
    flag stay, no save request leaves - and calling it again changes
    nothing more. *)
Theorem markComplete_completed_step (s : State) (cur : Annotation) :
  currentAnnotation s = Some cur ->
  id cur ∈ completedSteps s ->
  markComplete s
  = (setProximityWarning (Some alreadyCompleted) s, [setTimeout_clearWarning 2000])
  /\ completedSteps (fst (markComplete s)) = completedSteps s
  /\ currentStep (fst (markComplete s)) = currentStep s
  /\ saving (fst (markComplete s)) = saving s
  /\ (forall tid c done, fetch_POST_progress tid c done ∉ snd (markComplete s))
  /\ markComplete (fst (markComplete s)) = markComplete s.
Proof.
  intros Hcur Hin.
  assert (forall s', currentAnnotation s' = Some cur ->
                     id cur ∈ completedSteps s' ->
                     markComplete s'
                     = (setProximityWarning (Some alreadyCompleted) s',
                        [setTimeout_clearWarning 2000])) as Hstep.
  { intros s' Hcur' Hin'. unfold markComplete. rewrite Hcur'.
    apply has_true in Hin'. rewrite Hin'. reflexivity. }
  rewrite (Hstep s Hcur Hin). simpl.
  repeat split.
  - intros tid c done Hel. apply list_elem_of_singleton in Hel. discriminate.
  - apply (Hstep (setProximityWarning (Some alreadyCompleted) s)); assumption.
Qed.

Lemma markComplete_completed_step_witness :
  markComplete (learner abc 1 {[ "B" ]} origin)
  = (setProximityWarning (Some alreadyCompleted) (learner abc 1 {[ "B" ]} origin),
     [setTimeout_clearWarning 2000]).
Proof.
  apply (markComplete_completed_step (learner abc 1 {[ "B" ]} origin) B).
  - reflexivity.
  - apply (proj1 (has_true _ _)). reflexivity.
Defined.

(** C10: without annotations there is no current annotation, and
    [markComplete] returns at once: same state, no effect. *)
Theorem markComplete_without_annotations (s : State) :
  (forall t, tutorial s = Some t -> annotations t = []) ->
  currentAnnotation s = None /\ markComplete s = (s, []).
Proof.
  intros Hempty. apply sortedAnnotations_empty in Hempty.
  assert (currentAnnotation s = None) as Hcur
    by (unfold currentAnnotation; rewrite Hempty; apply at_index_nil).
  split; [exact Hcur |]. unfold markComplete. rewrite Hcur. reflexivity.
Qed.

Lemma markComplete_without_annotations_witness :
  markComplete (learner blank 0 ∅ origin) = (learner blank 0 ∅ origin, []).
Proof.
  apply (markComplete_without_annotations (learner blank 0 ∅ origin)).
  intros t Ht. injection Ht as <-. reflexivity.
Defined.

End MarkComplete.

(** ** Invariants of the page *)

Section Invariants.
Import Player Lesson.

Lemma markComplete_fields (s : State) :
  tutorial (fst (markComplete s)) = tutorial s
  /\ (currentStep (fst (markComplete s)) = currentStep s
      \/ (currentStep (fst (markComplete s)) = currentStep s + 1
          /\ currentStep s < length_of (sortedAnnotations s) - 1)%Z)
  /\ (completedSteps (fst (markComplete s)) = completedSteps s
      \/ exists cur, currentAnnotation s = Some cur
                     /\ completedSteps (fst (markComplete s))
                        = completedSteps s ∪ {[ id cur ]}).
Proof.
  unfold markComplete. destruct (currentAnnotation s) as [cur |]; [| simpl; auto].
  destruct (has (completedSteps s) (id cur)); [simpl; auto |].
  destruct (negb _ && negb _); [simpl; auto |].
  destruct (negb (isNearCurrentAnnotation s)); [simpl; auto |].
  set (c := completedSteps s ∪ {[ id cur ]}).
  destruct (saveProgress_fields c (setCompletedSteps c s)) as (Hc & Hi & _ & Ht).
  destruct (saveProgress c (setCompletedSteps c s)) as [s1 saved].
  simpl in Hc, Hi, Ht.
  destruct (currentStep s <? length_of (sortedAnnotations s) - 1)%Z eqn:Hlast; simpl.
  - apply Z.ltb_lt in Hlast. repeat split; eauto.
  - repeat split; eauto.
Qed.

Lemma sortedAnnotations_tutorial (s s' : State) :
  tutorial s' = tutorial s -> sortedAnnotations s' = sortedAnnotations s.
Proof. unfold sortedAnnotations. intros ->. reflexivity. Qed.

Lemma annotationIds_tutorial (s s' : State) :
  tutorial s' = tutorial s -> annotationIds s' = annotationIds s.
Proof. unfold annotationIds. intros ->. reflexivity. Qed.

Lemma findIndex_valid {A : Type} (p : A -> bool) (l : list A) :
  findIndex p l <> (-1)%Z -> (0 <= findIndex p l < length_of l)%Z.
Proof.
  unfold findIndex. destruct (findIndexFrom_range p l 0); [congruence | lia].
Qed.

Lemma loadProgress_fields (s : State) :
  tutorial (fst (loadProgress s)) = tutorial s
  /\ currentStep (fst (loadProgress s)) = currentStep s
  /\ completedSteps (fst (loadProgress s)) = completedSteps s
  /\ session (fst (loadProgress s)) = session s
  /\ progressLoaded (fst (loadProgress s)) = progressLoaded s.
Proof.
  unfold loadProgress.
  destruct (session s) eqn:Hs, (tutorial s) eqn:Ht, (progressLoaded s) eqn:Hp;
    simpl; rewrite ?Hs, ?Ht, ?Hp; repeat split; reflexivity.
Qed.

Lemma loadProgressSettled_fields (res : ProgressResponse) (s : State) :
  tutorial (loadProgressSettled res s) = tutorial s
  /\ currentStep (loadProgressSettled res s) = currentStep s
  /\ session (loadProgressSettled res s) = session s.
Proof.
  unfold loadProgressSettled. destruct res as [| | [ids |]]; repeat split; reflexivity.
Qed.

(** Every handler keeps the tutorial, except the one that loads it. *)
Lemma handle_tutorial (e : Event) (s : State) :
  (forall t, e <> TutorialLoaded t) -> tutorial (fst (handle e s)) = tutorial s.
Proof.
  intros Hload. destruct e; simpl; try reflexivity.
  - exfalso. eapply Hload. reflexivity.
  - apply (loadProgress_fields (setSession session0 s)).
  - apply loadProgressSettled_fields.
  - unfold handleKeyDown. destruct (showWelcome s); [reflexivity |].
    repeat (match goal with |- context [if ?b then _ else _] => destruct b end;
            try reflexivity).
    apply markComplete_fields.
  - unfold previousClick. destruct (_ =? _)%Z; reflexivity.
  - unfold secondButtonClick.
    repeat (match goal with |- context [if ?b then _ else _] => destruct b end;
            try reflexivity).
    apply markComplete_fields.
  - unfold onAnnotationClick. destruct (negb _); reflexivity.
Qed.

Lemma markComplete_stepInv (s : State) : stepInv s -> stepInv (fst (markComplete s)).
Proof.
  destruct (markComplete_fields s) as (Ht & Hi & _).
  unfold stepInv, validStep. rewrite (sortedAnnotations_tutorial _ _ Ht).
  destruct Hi as [-> | [-> Hlast]]; [tauto |]. lia.
Qed.

Lemma handle_stepInv (e : Event) (s : State) :
  stepInv s -> offered e s -> stepInv (fst (handle e s)).
Proof.
  intros Hinv Hoff. destruct e; simpl in *.
  - destruct (loadProgress_fields (setTutorial (Some t) s)) as (_ & Hi & _).
    unfold stepInv, validStep in *. rewrite Hi. simpl.
    unfold sortedAnnotations in Hinv. rewrite Hoff in Hinv. simpl in Hinv.
    left. unfold length_of in Hinv. simpl in Hinv. lia.
  - destruct (loadProgress_fields (setSession session0 s)) as (Ht & Hi & _).
    unfold stepInv, validStep in *.
    rewrite (sortedAnnotations_tutorial _ _ Ht), Hi. exact Hinv.
  - destruct (loadProgressSettled_fields res s) as (Ht & Hi & _).
    unfold stepInv, validStep in *.
    rewrite (sortedAnnotations_tutorial _ _ Ht), Hi. exact Hinv.
  - unfold handleKeyDown. destruct (showWelcome s); [exact Hinv |].
    destruct (_ || _).
    { destruct (_ <? _)%Z eqn:Hlt; [| exact Hinv]. apply Z.ltb_lt in Hlt.
      right. unfold stepInv, validStep in *. simpl.
      change (sortedAnnotations (setCurrentStep _ s)) with (sortedAnnotations s). lia. }
    destruct (_ || _).
    { destruct (0 <? _)%Z eqn:Hlt; [| exact Hinv]. apply Z.ltb_lt in Hlt.
      right. unfold stepInv, validStep in *. simpl.
      change (sortedAnnotations (setCurrentStep _ s)) with (sortedAnnotations s). lia. }
    destruct (_ || _); [apply markComplete_stepInv, Hinv | exact Hinv].
  - unfold previousClick. destruct (_ =? _)%Z eqn:H0; [exact Hinv |].
    apply Z.eqb_neq in H0. right. unfold stepInv, validStep in *. simpl.
    change (sortedAnnotations (setCurrentStep _ s)) with (sortedAnnotations s). lia.
  - unfold secondButtonClick. destruct (currentIsCompleted s).
    + destruct (_ <=? _)%Z; [exact Hinv |].
      destruct (_ <? _)%Z eqn:Hlt; [| exact Hinv]. apply Z.ltb_lt in Hlt.
      right. unfold stepInv, validStep in *. simpl.
      change (sortedAnnotations (setCurrentStep _ s)) with (sortedAnnotations s). lia.
    + destruct (_ || _); [exact Hinv | apply markComplete_stepInv, Hinv].
  - right. exact Hoff.
  - unfold onAnnotationClick.
    destruct (negb _) eqn:Hfound; [| exact Hinv].
    apply negb_true_iff, Z.eqb_neq, findIndex_valid in Hfound. right. exact Hfound.
  - exact Hinv.
  - exact Hinv.
  - exact Hinv.
  - exact Hinv.
Qed.

(** C6, as the code has it: on every state the page reaches, a non-empty
    sorted list has the step index among its indices.  Previous, next (by
    key or button), [markComplete] and a click on a marker keep it there;
    [goToStep] stores its argument as it is, and the step list calls it
    with indices of the sorted list only. *)
Theorem currentStep_valid (s : State) :
  reachable anyStored s ->
  sortedAnnotations s <> [] ->
  (0 <= currentStep s < length_of (sortedAnnotations s))%Z.
Proof.
  intros Hreach Hne.
  assert (stepInv s) as [H0 | Hvalid].
  { clear Hne. induction Hreach as [session | e s Hreach IH Hoff _].
    - left. reflexivity.
    - apply handle_stepInv; assumption. }
  - rewrite H0. unfold length_of.
    destruct (sortedAnnotations s); [congruence | simpl; lia].
  - exact Hvalid.
Qed.

(** After the tutorial [A; B; C] is loaded, a click on the third entry of the
    step list. *)
Lemma currentStep_valid_witness :
  (0 <= currentStep (fst (handle (StepClick 2)
                            (fst (handle (TutorialLoaded abc) (initial true)))))
      < length_of (sortedAnnotations
                     (fst (handle (StepClick 2)
                             (fst (handle (TutorialLoaded abc) (initial true)))))))%Z.
Proof.
  apply currentStep_valid.
  - apply reach_handle.
    + apply reach_handle.
      * apply reach_initial.
      * reflexivity.
      * intros res Hres. exact I.
    + vm_compute. split; [discriminate | reflexivity].
    + intros res Hres. exact I.
  - vm_compute. discriminate.
Defined.

(** Against C6 as worded: [goToStep] does not clamp.  With three steps,
    [goToStep(5)] and [goToStep(-1)] leave the index at 5 and at -1. *)
Lemma goToStep_unclamped :
  sortedAnnotations (goToStep 5 (learner abc 0 ∅ origin)) <> []
  /\ length_of (sortedAnnotations (goToStep 5 (learner abc 0 ∅ origin))) = 3%Z
  /\ currentStep (goToStep 5 (learner abc 0 ∅ origin)) = 5%Z
  /\ currentStep (goToStep (-1) (learner abc 0 ∅ origin)) = (-1)%Z
  /\ ~ validStep (goToStep 5 (learner abc 0 ∅ origin))
  /\ ~ validStep (goToStep (-1) (learner abc 0 ∅ origin)).
Proof.
  repeat split; try (vm_compute; reflexivity); try (vm_compute; discriminate).
  - intros [_ H]. vm_compute in H. discriminate.
  - intros [H _]. vm_compute in H. apply H. reflexivity.
Qed.

Lemma markComplete_completedInv (s : State) :
  completedInv s -> completedInv (fst (markComplete s)).
Proof.
  destruct (markComplete_fields s) as (Ht & _ & Hc).
  unfold completedInv. rewrite (annotationIds_tutorial _ _ Ht).
  destruct Hc as [-> | (cur & Hcur & ->)]; [tauto |].
  intros Hinv. apply at_index_Some in Hcur as [_ Hcur].
  apply sortedAnnotations_ids in Hcur.
  apply union_subseteq. split; [exact Hinv |].
  apply singleton_subseteq_l, Hcur.
Qed.

Lemma handle_completedInv (e : Event) (s : State) :
  completedInv s ->
  offered e s ->
  (forall res, e = ProgressFetched res -> storedWithinTutorial s res) ->
  completedInv (fst (handle e s)).
Proof.
  intros Hinv Hoff Hstored. destruct e; simpl in *; try exact Hinv.
  - destruct (loadProgress_fields (setTutorial (Some t) s)) as (Ht & _ & Hc & _).
    unfold completedInv. rewrite (annotationIds_tutorial _ _ Ht), Hc.
    unfold completedInv, annotationIds in Hinv. rewrite Hoff in Hinv. simpl.
    intros k Hk. apply Hinv in Hk. apply elem_of_empty in Hk. contradiction.
  - destruct (loadProgress_fields (setSession session0 s)) as (Ht & _ & Hc & _).
    unfold completedInv. rewrite (annotationIds_tutorial _ _ Ht), Hc. exact Hinv.
  - specialize (Hstored res eq_refl). unfold loadProgressSettled.
    destruct res as [| | [ids |]]; try exact Hinv.
    unfold completedInv. simpl in *.
    change (annotationIds _) with (annotationIds s).
    intros k Hk. apply elem_of_list_to_set in Hk. apply Hstored, Hk.
  - unfold handleKeyDown. destruct (showWelcome s); [exact Hinv |].
    destruct (_ || _); [destruct (_ <? _)%Z; exact Hinv |].
    destruct (_ || _); [destruct (_ <? _)%Z; exact Hinv |].
    destruct (_ || _); [apply markComplete_completedInv, Hinv | exact Hinv].
  - unfold previousClick. destruct (_ =? _)%Z; exact Hinv.
  - unfold secondButtonClick. destruct (currentIsCompleted s).
    + destruct (_ <=? _)%Z; [exact Hinv |]. destruct (_ <? _)%Z; exact Hinv.
    + destruct (_ || _); [exact Hinv | apply markComplete_completedInv, Hinv].
  - unfold onAnnotationClick. destruct (negb _); exact Hinv.
Qed.

(** C7, as the code has it: [markComplete], navigation and every other
    handler keep the completed identifiers among those of the tutorial's
    annotations; rehydration installs the stored identifiers as they come,
    so it keeps the invariant when the store returns identifiers of the
    tutorial's annotations only. *)
Theorem completedSteps_within_tutorial (s : State) :
  reachable storedWithinTutorial s ->
  completedSteps s ⊆ annotationIds s.
Proof.
  intros Hreach. change (completedInv s).
  induction Hreach as [session | e s Hreach IH Hoff Hstored].
  - unfold completedInv. simpl. apply empty_subseteq.
  - apply handle_completedInv; assumption.
Qed.

(** The tutorial [A] is loaded, the store returns [A], the welcome popup
    is closed. *)
Lemma completedSteps_within_tutorial_witness :
  completedSteps
    (fst (handle WelcomeDismissed
            (fst (handle (ProgressFetched (okJson (Some ["A"])))
                    (fst (handle (TutorialLoaded solo) (initial true)))))))
  ⊆ annotationIds
      (fst (handle WelcomeDismissed
              (fst (handle (ProgressFetched (okJson (Some ["A"])))
                      (fst (handle (TutorialLoaded solo) (initial true))))))).
Proof.
  apply completedSteps_within_tutorial.
  apply reach_handle; [apply reach_handle; [apply reach_handle |..] |..].
  - apply reach_initial.
  - reflexivity.
  - intros res Hres. discriminate Hres.
  - vm_compute. lia.
  - intros res Hres. injection Hres as <-.
    intros k Hk. apply list_elem_of_singleton in Hk as ->.
    apply (proj1 (has_true _ _)). reflexivity.
  - exact I.
  - intros res Hres. discriminate Hres.
Defined.

(** Against C7 as worded: the tutorial [A] is loaded and the store returns
    an identifier that no annotation of it carries (an annotation deleted
    since); it becomes the completed set. *)
Lemma loadProgress_unfiltered :
  reachable anyStored
    (fst (handle (ProgressFetched (okJson (Some ["deleted"])))
            (fst (handle (TutorialLoaded solo) (initial true)))))
  /\ completedSteps
       (fst (handle (ProgressFetched (okJson (Some ["deleted"])))
               (fst (handle (TutorialLoaded solo) (initial true)))))
     = {[ "deleted" ]}
  /\ annotationIds
       (fst (handle (ProgressFetched (okJson (Some ["deleted"])))
               (fst (handle (TutorialLoaded solo) (initial true)))))
     = {[ "A" ]}
  /\ ~ completedInv
         (fst (handle (ProgressFetched (okJson (Some ["deleted"])))
                 (fst (handle (TutorialLoaded solo) (initial true))))).
Proof.
  split; [| split; [| split]].
  - apply reach_handle; [apply reach_handle |..].
    + apply reach_initial.
    + reflexivity.
    + intros res Hres. exact I.
    + vm_compute. lia.
    + intros res Hres. exact I.
  - vm_compute. reflexivity.
  - vm_compute. reflexivity.
  - intros Hinv. specialize (Hinv "deleted").
    assert ("deleted" ∈ ({[ "A" ]} : gset string)) as Hin.
    { apply Hinv. apply (proj1 (has_true _ _)). reflexivity. }
    apply has_true in Hin. vm_compute in Hin. discriminate.
Qed.

End Invariants.

(** ** The annotation routes *)

Section RouteFacts.
Import Table Catalog.

Lemma applySet_spec (u : UpdateData) (r r' : Row) :
  applySet u r = Some r' ->
  row_id r' = row_id r /\ row_tutorialId r' = row_tutorialId r
  /\ assign (set_title u) (row_title r) = Some (row_title r')
  /\ assign (set_content u) (row_content r) = Some (row_content r')
  /\ assign (set_x u) (row_x r) = Some (row_x r')
  /\ assign (set_y u) (row_y r) = Some (row_y r')
  /\ assign (set_z u) (row_z r) = Some (row_z r')
  /\ assign (set_order u) (row_order r) = Some (row_order r')
  /\ row_imageUrl r' = assign_nullable (set_imageUrl u) (row_imageUrl r).
Proof.
  unfold applySet.
  destruct (assign (set_title u) _), (assign (set_content u) _),
    (assign (set_x u) _), (assign (set_y u) _), (assign (set_z u) _),
    (assign (set_order u) _); try discriminate.
  intros [= <-]. simpl. repeat split; reflexivity.
Qed.

Lemma assign_undefined {A : Type} (f : field A) (old new : A) :
  assign f old = Some new -> f = undefined -> new = old.
Proof. intros H ->. simpl in H. congruence. Qed.

Lemma assign_value {A : Type} (f : field A) (old new v : A) :
  assign f old = Some new -> f = value v -> new = v.
Proof. intros H ->. simpl in H. congruence. Qed.

(** The table after a successful [update]: row by row, a row the condition
    selects has been through [applySet], any other row is as before. *)
Lemma update_rows (u : UpdateData) (w : Row -> bool) (db returned db' : list Row) :
  update u w db = Some (returned, db') ->
  Forall2 (fun r r' => if w r then applySet u r = Some r' else r' = r) db db'.
Proof.
  revert returned db'. induction db as [| r db IH]; intros returned db'; simpl.
  - intros [= <- <-]. constructor.
  - destruct (update u w db) as [[ret rest'] |]; [| discriminate].
    specialize (IH ret rest' eq_refl).
    destruct (w r) eqn:Hw.
    + destruct (applySet u r) as [r' |] eqn:Hr; [| discriminate].
      intros [= <- <-]. constructor; [rewrite Hw; exact Hr | exact IH].
    + intros [= <- <-]. constructor; [rewrite Hw; reflexivity | exact IH].
Qed.

Lemma matches_targets (aid tutorialId : string) (body : Body) (r : Row) :
  annotationId body = value aid ->
  matches aid tutorialId r = true <-> targets tutorialId body r.
Proof.
  intros Hid. unfold matches, targets.
  rewrite andb_true_iff, !String.eqb_eq, Hid. split.
  - intros [-> ->]. split; reflexivity.
  - intros [[= ->] ->]. split; reflexivity.
Qed.

Lemma omittedKept_refl (body : Body) (r : Row) : omittedKept body r r.
Proof. unfold omittedKept. repeat split; reflexivity. Qed.

(** The update handler of the first route file on any request: every row
    keeps the columns the request omits; a row the request does not name is
    unchanged; and when the handler answers with the annotation, the named
    row carries every value given, an explicit [null] clearing the image. *)
Lemma PUT_partial_update (session : option string) (tutorialId : string)
    (body : Body) (now : Z) (db : list Row) :
  Forall2 (fun r r' =>
             omittedKept body r r'
             /\ (~ targets tutorialId body r -> r' = r)
             /\ (forall a, fst (Routes.PUT session tutorialId body now db)
                           = json_annotation a ->
                 targets tutorialId body r -> providedWritten body r'))
          db (snd (Routes.PUT session tutorialId body now db)).
Proof.
  assert (forall st msg,
             Forall2 (fun r r' : Row =>
                        omittedKept body r r'
                        /\ (~ targets tutorialId body r -> r' = r)
                        /\ (forall a, json_error st msg = json_annotation a ->
                            targets tutorialId body r -> providedWritten body r'))
                     db db) as Herr.
  { intros st msg. apply Forall_Forall2_diag, Forall_forall. intros r _.
    split; [apply omittedKept_refl |]. split; [reflexivity | discriminate]. }
  unfold Routes.PUT.
  destruct session as [user |]; [| apply Herr].
  destruct (annotationId body) as [| | aid] eqn:Hid; try apply Herr.
  destruct (String.eqb aid ""); [apply Herr |].
  match goal with |- context [update ?u ?w db] =>
    destruct (update u w db) as [[returned db'] |] eqn:Hup; [| apply Herr] end.
  apply update_rows in Hup. simpl.
  eapply Forall2_impl; [exact Hup |]. intros r r' Hrow. simpl in Hrow.
  destruct (matches aid tutorialId r) eqn:Hm.
  - apply applySet_spec in Hrow
      as (Hi & Ht & Htitle & Hcontent & Hx & Hy & Hz & Ho & Himg). simpl in *.
    split; [| split].
    + unfold omittedKept. repeat split; try assumption;
        try (intros Hu; eapply assign_undefined; eassumption).
      intros Hu. rewrite Himg, Hu. reflexivity.
    + intros Hnot. exfalso. apply Hnot. eapply matches_targets; eassumption.
    + intros _ _ _. unfold providedWritten.
      repeat split; try (intros v Hv; eapply assign_value; eassumption).
      * intros v Hv. rewrite Himg, Hv. reflexivity.
      * intros Hv. rewrite Himg, Hv. reflexivity.
  - subst r'. split; [apply omittedKept_refl |]. split; [reflexivity |].
    intros _ _ Htarget. eapply matches_targets in Htarget; [| eassumption].
    congruence.
Qed.

(** The update handler of the second route file never reads [imageUrl]: it
    answers as the first one does to the request without that property. *)
Lemma second_PUT_as_first (session : option string) (tutorialId : string)
    (body : Body) (now : Z) (db : list Row) :
  SecondRoutes.PUT session tutorialId body now db
  = Routes.PUT session tutorialId (withoutImage body) now db.
Proof. reflexivity. Qed.


(** Changing only the order of [a1] keeps its title, content and position,
    and the other annotation, under both handlers. *)
Lemma PUT_reorder_only :
  Routes.PUT (Some "manager") "t1" reorder 200 table
  = (json_annotation
       (Some {| row_id := "a1"; row_tutorialId := "t1"; row_title := "Valve";
                row_content := "Close it"; row_imageUrl := Some "valve.png";
                row_x := 1; row_y := 2; row_z := 3; row_order := 5;
                row_updatedAt := 200 |}),
     [ {| row_id := "a1"; row_tutorialId := "t1"; row_title := "Valve";
          row_content := "Close it"; row_imageUrl := Some "valve.png";
          row_x := 1; row_y := 2; row_z := 3; row_order := 5;
          row_updatedAt := 200 |}; gaugeRow ])
  /\ SecondRoutes.PUT (Some "manager") "t1" reorder 200 table
     = Routes.PUT (Some "manager") "t1" reorder 200 table.
Proof. split; reflexivity. Qed.

(** The create handler of the first route file stores the order given, and
    the count of the tutorial's annotations plus one when the order is
    missing or [null]. *)
Lemma POST_order (session : option string) (tutorialId : string) (body : Body)
    (newId : string) (now : Z) (db : list Row) (r : Row) :
  fst (Routes.POST session tutorialId body newId now db) = json_annotation (Some r) ->
  snd (Routes.POST session tutorialId body newId now db) = db ++ [r]
  /\ row_order r =
     match order body with
     | value n => n
     | _ => (Z.of_nat (length (findMany tutorialId db)) + 1)%Z
     end.
Proof.
  unfold Routes.POST. destruct session as [user |]; [| discriminate].
  destruct (_ || _); [discriminate |].
  destruct (title body), (x body), (y body), (z body); try discriminate;
    destruct (order body); simpl; intros [= <-]; split; reflexivity.
Qed.

(** Against C9 as worded, at the create handler of the second route file:
    with two annotations in the tutorial, the request
    [{ title, x, y, z, order: 1 }] is stored with order 3, where the handler
    of the first file stores order 1. *)
Theorem second_POST_replaces_order_1 :
  length (findMany "t1" table) = 2%nat
  /\ SecondRoutes.POST (Some "manager") "t1" createFirst "a3" 200 table
     = (json_annotation
          (Some {| row_id := "a3"; row_tutorialId := "t1"; row_title := "Pump";
                   row_content := ""; row_imageUrl := None;
                   row_x := 7; row_y := 8; row_z := 9; row_order := 3;
                   row_updatedAt := 200 |}),
        table ++ [ {| row_id := "a3"; row_tutorialId := "t1"; row_title := "Pump";
                      row_content := ""; row_imageUrl := None;
                      row_x := 7; row_y := 8; row_z := 9; row_order := 3;
                      row_updatedAt := 200 |} ])
  /\ Routes.POST (Some "manager") "t1" createFirst "a3" 200 table
     = (json_annotation
          (Some {| row_id := "a3"; row_tutorialId := "t1"; row_title := "Pump";
                   row_content := ""; row_imageUrl := None;
                   row_x := 7; row_y := 8; row_z := 9; row_order := 1;
                   row_updatedAt := 200 |}),
        table ++ [ {| row_id := "a3"; row_tutorialId := "t1"; row_title := "Pump";
                      row_content := ""; row_imageUrl := None;
                      row_x := 7; row_y := 8; row_z := 9; row_order := 1;
                      row_updatedAt := 200 |} ])
  /\ SecondRoutes.POST (Some "manager") "t1" createNext "a3" 200 table
     = Routes.POST (Some "manager") "t1" createNext "a3" 200 table.
Proof. repeat split. Qed.

(** C9, as the code has it: a create that answers with the row stores the
    count of the tutorial's annotations plus one when the order is missing
    or [null]; the handler of the first route file stores every order given
    as it is, the handler of the second one ([!order || order === 1])
    replaces the orders 0 and 1 by the count plus one as well and stores
    every other order given as it is. *)
Theorem POST_assigns_order (session : option string) (tutorialId : string)
    (body : Body) (newId : string) (now : Z) (db : list Row) :
  let count := Z.of_nat (length (findMany tutorialId db)) in
  (forall r, fst (Routes.POST session tutorialId body newId now db)
             = json_annotation (Some r) ->
             row_order r = match order body with
                           | value n => n
                           | _ => (count + 1)%Z
                           end)
  /\ (forall r, fst (SecondRoutes.POST session tutorialId body newId now db)
                = json_annotation (Some r) ->
                row_order r = match order body with
                              | value n => if ((n =? 0) || (n =? 1))%Z
                                           then (count + 1)%Z else n
                              | _ => (count + 1)%Z
                              end).
Proof.
  intros count. split; intros r.
  - unfold Routes.POST. destruct session as [user |]; [| discriminate].
    destruct (_ || _); [discriminate |].
    destruct (title body), (x body), (y body), (z body); try discriminate;
      destruct (order body); simpl; intros [= <-]; reflexivity.
  - unfold SecondRoutes.POST. destruct session as [user |]; [| discriminate].
    destruct (_ || _); [discriminate |].
    destruct (title body), (x body), (y body), (z body); try discriminate;
      destruct (order body) as [| | n]; simpl; try (intros [= <-]; reflexivity).
    destruct ((n =? 0)%Z || (n =? 1)%Z); intros [= <-]; reflexivity.
Qed.

End RouteFacts.

(** * Further properties *)

(** ** The projector: indicators and exceptions *)

Section ProjectorMore.
Import Projector Scene Samples.

Lemma classList_add_raises (token : string) (el : Element) :
  (exists e, classList_add token el = inl e) <-> token = "".
Proof.
  unfold classList_add. destruct (String.eqb token "") eqn:He.
  - apply String.eqb_eq in He. split; eauto.
  - apply String.eqb_neq in He. split; [intros [e H]; discriminate | contradiction].
Qed.

Lemma classList_add_classes (token : string) (el el' : Element) :
  classList_add token el = inr el' ->
  token ∈ classes el' /\ (forall c, c ∈ classes el -> c ∈ classes el')
  /\ style_left el' = style_left el /\ style_top el' = style_top el
  /\ onclick el' = onclick el.
Proof.
  unfold classList_add. destruct (String.eqb token ""); [discriminate |].
  intros [= <-]. simpl. case_bool_decide as Hin.
  - repeat split; auto.
  - repeat split; auto.
    + apply elem_of_app. right. constructor.
    + intros c Hc. apply elem_of_app. left. exact Hc.
Qed.

(** Which direction the chain of tests gives. *)
Lemma placement_direction (width height edgeX edgeY : number) :
  fst (placement width height edgeX edgeY) = "" <->
  strictlyInside width edgeX /\ strictlyInside height edgeY.
Proof.
  unfold placement, strictlyInside.
  destruct (edgeX <=? padding)%num eqn:H1.
  { simpl. split; [discriminate | intros [[H _] _]; discriminate]. }
  destruct (width - padding <=? edgeX)%num eqn:H2.
  { simpl. split; [discriminate | intros [[_ H] _]; discriminate]. }
  destruct (edgeY <=? padding)%num eqn:H3.
  { simpl. split; [discriminate | intros [_ [H _]]; discriminate]. }
  destruct (height - padding <=? edgeY)%num eqn:H4.
  { simpl. split; [discriminate | intros [_ [_ H]]; discriminate]. }
  simpl. split; [intros _; repeat split; reflexivity | reflexivity].
Qed.

Lemma placement_direction_cases (width height edgeX edgeY : number) :
  fst (placement width height edgeX edgeY) ∈ ["left"; "right"; "top"; "bottom"; ""].
Proof.
  unfold placement.
  repeat (match goal with |- context [if ?b then _ else _] => destruct b end;
          simpl; try (solve [repeat constructor])).
Qed.

(** For an edge coordinate that is a number, and a dimension whose padded
    end is one, the two failed tests say: strictly between the paddings. *)
Lemma strictlyInside_between (size e : number) :
  Number.is_nan (size - padding)%num = false -> Number.is_nan e = false ->
  strictlyInside size e <-> (padding < e < size - padding)%num.
Proof.
  intros Hs He. unfold strictlyInside. split.
  - intros [H1 H2]. split.
    + apply (leb_false_lt _ _ He padding_not_nan H1).
    + apply (leb_false_lt _ _ Hs He H2).
  - intros [H1 H2]. split; apply lt_leb_false; assumption.
Qed.

Lemma indicator_raises (width height : number) (activeAnnotationId : option string)
    (ann : Annotation) (index : Z) (pos : THREE.Vector3) :
  (exists e, indicator width height activeAnnotationId ann index pos = inl e) <->
  fst (placement width height (fst (edge width height pos))
                              (snd (edge width height pos))) = "".
Proof.
  unfold indicator. destruct (edge width height pos) as [edgeX edgeY]. simpl.
  destruct (placement width height edgeX edgeY) as [direction [leftPx topPx]]. simpl.
  apply classList_add_raises.
Qed.

Lemma margin_below_padding : (- margin <= padding)%num.
Proof. vm_compute. reflexivity. Qed.

(** In front of the camera and off the canvas, the chain of tests always
    finds a direction. *)
Lemma front_placement_directed (w h : Z) (ndc : THREE.Vector3) :
  (0 <= w <= maxSize)%Z -> (0 <= h <= maxSize)%Z ->
  isBehind ndc = false ->
  isOffScreen (Number.of_Z w) (Number.of_Z h) ndc = true ->
  fst (placement (Number.of_Z w) (Number.of_Z h)
         (fst (edge (Number.of_Z w) (Number.of_Z h) ndc))
         (snd (edge (Number.of_Z w) (Number.of_Z h) ndc))) <> "".
Proof.
  intros Hw Hh Hb Ho.
  destruct (sizeChecked_range w Hw) as (Hwm & _).
  destruct (sizeChecked_range h Hh) as (Hhm & _).
  apply isOffScreen_iff in Ho as [Hbehind | Hout].
  { apply isBehind_iff in Hbehind. congruence. }
  rewrite placement_direction, (edge_not_behind _ _ _ Hb). simpl.
  unfold strictlyInside, outside in *.
  intros [[H1 H2] [H3 H4]].
  destruct Hout as [[H | H] | [H | H]].
  - pose proof (lt_le _ _ (lt_le_trans _ _ _ H margin_below_padding)) as Hle.
    unfold Number.le in Hle. congruence.
  - pose proof (lt_le _ _ (le_lt_trans _ _ _ Hwm H)) as Hle.
    unfold Number.le in Hle. congruence.
  - pose proof (lt_le _ _ (lt_le_trans _ _ _ H margin_below_padding)) as Hle.
    unfold Number.le in Hle. congruence.
  - pose proof (lt_le _ _ (le_lt_trans _ _ _ Hhm H)) as Hle.
    unfold Number.le in Hle. congruence.
Qed.

(** X1: on a canvas of up to [maxSize] by [maxSize] pixels, the callback
    of [forEach] does not raise for an annotation whose point is off-bounds
    without being behind: it gives the indicator of that annotation,
    carrying one of the four direction classes - the empty direction
    cannot occur for it. *)
Theorem offBounds_indicator_directed (camera : THREE.Camera) (w h : Z)
    (activeAnnotationId : option string) (ann : Annotation) (index : Z) :
  (0 <= w <= maxSize)%Z -> (0 <= h <= maxSize)%Z ->
  visibility (Number.of_Z w) (Number.of_Z h) (project camera ann) = offBounds ->
  exists el,
    renderAnnotation camera (Number.of_Z w) (Number.of_Z h) activeAnnotationId
      ann index = inr el
    /\ "offscreen-indicator" ∈ classes el
    /\ exists d, d ∈ ["left"; "right"; "top"; "bottom"] /\ d ∈ classes el.
Proof.
  set (width := Number.of_Z w). set (height := Number.of_Z h).
  set (ndc := project camera ann). intros Hw Hh Hvis.
  pose proof Hvis as Hoff. apply visibility_offBounds in Hoff as [Hnb Hout].
  assert (isBehind ndc = false) as Hb
    by (apply not_true_iff_false; rewrite isBehind_iff; exact Hnb).
  assert (isOffScreen width height ndc = true) as Ho
    by (apply isOffScreen_iff; tauto).
  unfold renderAnnotation. fold ndc. rewrite Ho. simpl.
  pose proof (front_placement_directed w h ndc Hw Hh Hb Ho) as Hd.
  fold width height in Hd.
  pose proof (placement_direction_cases width height
                (fst (edge width height ndc)) (snd (edge width height ndc))) as Hcases.
  unfold indicator in *. destruct (edge width height ndc) as [edgeX edgeY]. simpl in *.
  destruct (placement width height edgeX edgeY) as [direction [leftPx topPx]].
  simpl in *.
  destruct (classList_add direction _) as [e | el] eqn:Hadd.
  - exfalso. apply Hd. eapply classList_add_raises. eauto.
  - exists el. split; [reflexivity |].
    apply classList_add_classes in Hadd as (Hdir & Hold & _).
    split; [apply Hold; simpl; constructor |].
    exists direction. split; [| exact Hdir].
    rewrite !elem_of_cons in Hcases. rewrite !elem_of_cons.
    destruct Hcases as [H | [H | [H | [H | [H | H]]]]]; tauto || inversion H.
Qed.

Lemma offBounds_indicator_directed_witness :
  exists el,
    renderAnnotation camera (Number.of_Z 800) (Number.of_Z 600) None crane 2 = inr el
    /\ "offscreen-indicator" ∈ classes el
    /\ exists d, d ∈ ["left"; "right"; "top"; "bottom"] /\ d ∈ classes el.
Proof.
  apply (offBounds_indicator_directed camera 800 600 None crane 2).
  - vm_compute. split; discriminate.
  - vm_compute. split; discriminate.
  - vm_compute. reflexivity.
Defined.

(** X2: on a canvas of up to [maxSize] by [maxSize] pixels, drawing an
    annotation raises exactly when the point is behind the camera and both
    mirrored edge coordinates fail the two tests of their axis ([<= 60] and
    [>= dimension - 60]); for a coordinate that is a number this is to lie
    strictly between 60 and the dimension less 60, and a NaN coordinate
    fails every test. *)
Theorem renderAnnotation_raises_iff (camera : THREE.Camera) (w h : Z)
    (activeAnnotationId : option string) (ann : Annotation) (index : Z) :
  (0 <= w <= maxSize)%Z -> (0 <= h <= maxSize)%Z ->
  let width := Number.of_Z w in
  let height := Number.of_Z h in
  let ndc := project camera ann in
  let edgeX := ((- THREE.x ndc * half + half) * width)%num in
  let edgeY := ((- - THREE.y ndc * half + half) * height)%num in
  (renderAnnotation camera width height activeAnnotationId ann index = inl SyntaxError
   <->
   (Number.of_Z 1 < THREE.z ndc)%num
   /\ strictlyInside width edgeX /\ strictlyInside height edgeY)
  /\ (Number.is_nan edgeX = false ->
      strictlyInside width edgeX <-> (padding < edgeX < width - padding)%num)
  /\ (Number.is_nan edgeY = false ->
      strictlyInside height edgeY <-> (padding < edgeY < height - padding)%num)
  /\ (Number.is_nan edgeX = true -> strictlyInside width edgeX)
  /\ (Number.is_nan edgeY = true -> strictlyInside height edgeY).
Proof.
  intros Hw Hh width height ndc edgeX edgeY.
  assert (forall size e, Number.is_nan e = true -> strictlyInside size e) as Hnan.
  { intros size e He. destruct e; try discriminate.
    split; apply not_true_iff_false; intros H;
      apply le_not_nan in H as [H1 H2]; discriminate. }
  assert (forall n, (0 <= n <= maxSize)%Z ->
                    Number.is_nan (Number.of_Z n - padding)%num = false) as Hsize.
  { intros n Hn. destruct (sizeChecked_range n Hn) as (_ & Hf & _).
    destruct (Number.of_Z n - padding)%num; try discriminate; reflexivity. }
  split; [| split; [| split; [| split]]].
  - unfold renderAnnotation. fold ndc.
    assert (forall x : DOMException + Element,
               x = inl SyntaxError <-> exists e, x = inl e) as Hany.
    { intros [[] | el]; split; eauto; intros [e H]; discriminate. }
    destruct (isBehind ndc) eqn:Hb.
    + assert (isOffScreen width height ndc = true) as ->
        by (unfold isOffScreen; rewrite Hb; reflexivity).
      simpl. rewrite Hany, indicator_raises, placement_direction.
      unfold edge. rewrite Hb. simpl. fold edgeX edgeY.
      apply isBehind_iff in Hb. tauto.
    + assert (~ (Number.of_Z 1 < THREE.z ndc)%num) as Hnb
        by (rewrite <- isBehind_iff; congruence).
      split; [| tauto]. intros Hraise. exfalso.
      destruct (isOffScreen width height ndc) eqn:Ho; simpl in Hraise; [| discriminate].
      apply (front_placement_directed w h ndc Hw Hh Hb Ho).
      apply (indicator_raises width height activeAnnotationId ann index ndc). eauto.
  - intros He. apply strictlyInside_between; [apply Hsize, Hw | exact He].
  - intros He. apply strictlyInside_between; [apply Hsize, Hh | exact He].
  - apply Hnan.
  - apply Hnan.
Qed.

Lemma renderAnnotation_raises_iff_witness :
  renderAnnotation camera (Number.of_Z 800) (Number.of_Z 600) None valve 0
  = inl SyntaxError
  <->
  (Number.of_Z 1 < THREE.z (project camera valve))%num
  /\ strictlyInside (Number.of_Z 800)
       ((- THREE.x (project camera valve) * half + half) * Number.of_Z 800)%num
  /\ strictlyInside (Number.of_Z 600)
       ((- - THREE.y (project camera valve) * half + half) * Number.of_Z 600)%num.
Proof.
  apply (renderAnnotation_raises_iff camera 800 600 None valve 0).
  - vm_compute. split; discriminate.
  - vm_compute. split; discriminate.
Defined.

Lemma forEach_spec (cam : THREE.Camera) (width height : number)
    (activeAnnotationId : option string) (anns : list Annotation) (index : Z)
    (acc c : list Element) (e : option DOMException) :
  forEach cam width height activeAnnotationId anns index acc = (c, e) ->
  exists drawn,
    c = acc ++ drawn
    /\ (forall i el, drawn !! i = Some el ->
        exists ann, anns !! i = Some ann
                    /\ renderAnnotation cam width height activeAnnotationId ann
                         (index + Z.of_nat i) = inr el)
    /\ match e with
       | None => length drawn = length anns
       | Some ex =>
           exists ann, anns !! length drawn = Some ann
                       /\ renderAnnotation cam width height activeAnnotationId ann
                            (index + Z.of_nat (length drawn)) = inl ex
       end.
Proof.
  revert index acc. induction anns as [| ann rest IH]; intros index acc; simpl.
  - intros [= <- <-]. exists []. rewrite app_nil_r.
    split; [reflexivity |]. split; [intros i el Hi; inversion Hi | reflexivity].
  - destruct (renderAnnotation cam width height activeAnnotationId ann index)
      as [ex | el] eqn:Hr.
    + intros [= <- <-]. exists []. rewrite app_nil_r.
      split; [reflexivity |]. split; [intros i el Hi; inversion Hi |].
      exists ann. simpl. rewrite Z.add_0_r. auto.
    + intros Hrest. apply IH in Hrest as (drawn & -> & Hdrawn & He).
      exists (el :: drawn). rewrite <- app_assoc. split; [reflexivity |]. split.
      * intros [| i] el' Hi; simpl in Hi.
        -- injection Hi as <-. exists ann. rewrite Z.add_0_r. auto.
        -- destruct (Hdrawn i el' Hi) as (a & Ha & Hra). exists a. split; [exact Ha |].
           rewrite <- Hra. f_equal. lia.
      * destruct e as [ex |]; simpl.
        -- destruct He as (a & Ha & Hra). exists a. split; [exact Ha |].
           rewrite <- Hra. f_equal. lia.
        -- f_equal. exact He.
Qed.

(** X3: a redraw with camera and renderer in place replaces the children by
    one element per annotation, in list order, each drawn from its
    annotation and its index.  If drawing an annotation raises, the
    children are those of the annotations before it, and nothing after it
    is drawn. *)
Theorem updateAnnotationPositions_draws (cam : THREE.Camera) (r : Renderer)
    (anns : list Annotation) (activeAnnotationId : option string)
    (old : list Element) :
  let width := Number.of_Z (clientWidth r) in
  let height := Number.of_Z (clientHeight r) in
  let result :=
    updateAnnotationPositions (Some cam) (Some r) anns activeAnnotationId old in
  (forall i el, fst result !! i = Some el ->
     exists ann, anns !! i = Some ann
                 /\ renderAnnotation cam width height activeAnnotationId ann
                      (Z.of_nat i) = inr el)
  /\ (snd result = None -> length (fst result) = length anns)
  /\ (forall ex, snd result = Some ex ->
        exists ann, anns !! length (fst result) = Some ann
                    /\ renderAnnotation cam width height activeAnnotationId ann
                         (Z.of_nat (length (fst result))) = inl ex).
Proof.
  intros width height result. unfold result, updateAnnotationPositions.
  fold width height.
  destruct (forEach cam width height activeAnnotationId anns 0 []) as [c e] eqn:Hf.
  apply forEach_spec in Hf as (drawn & -> & Hdrawn & He). simpl.
  split; [exact Hdrawn |]. split.
  - intros ->. exact He.
  - intros ex ->. exact He.
Qed.

Lemma padding_finite : Number.is_finite padding = true.
Proof. vm_compute. reflexivity. Qed.

Lemma px_between (lo hi v : number) :
  Number.is_finite lo = true -> Number.is_finite hi = true ->
  (lo <= v <= hi)%num -> px v = Some v.
Proof.
  intros Hlo Hhi Hv. unfold px. rewrite (between_finite lo hi v Hlo Hhi Hv).
  reflexivity.
Qed.

(** X4: on a canvas of 120 to [maxSize] pixels each way, an indicator that
    is drawn from edge coordinates that are numbers has both offsets set,
    inside the padded box: between 60 and the dimension less 60. *)
Theorem indicator_within_canvas (w h : Z)
    (activeAnnotationId : option string) (ann : Annotation) (index : Z)
    (pos : THREE.Vector3) (el : Element) :
  (120 <= w <= maxSize)%Z -> (120 <= h <= maxSize)%Z ->
  let width := Number.of_Z w in
  let height := Number.of_Z h in
  Number.is_nan (fst (edge width height pos)) = false ->
  Number.is_nan (snd (edge width height pos)) = false ->
  indicator width height activeAnnotationId ann index pos = inr el ->
  exists leftPx topPx,
    style_left el = Some leftPx /\ style_top el = Some topPx
    /\ (padding <= leftPx <= width - padding)%num
    /\ (padding <= topPx <= height - padding)%num.
Proof.
  intros Hw Hh width height Hx Hy. unfold indicator.
  destruct (sizeChecked_range w ltac:(lia)) as (_ & Hwf & Hwp).
  destruct (sizeChecked_range h ltac:(lia)) as (_ & Hhf & Hhp).
  specialize (Hwp ltac:(lia)). specialize (Hhp ltac:(lia)).
  fold width in Hwf, Hwp. fold height in Hhf, Hhp.
  destruct (edge width height pos) as [edgeX edgeY]. simpl in Hx, Hy.
  pose proof (placement_spec width height edgeX edgeY Hwp Hhp) as Hp.
  pose proof (clamped_range width edgeX Hwp Hx) as Hcx.
  pose proof (clamped_range height edgeY Hhp Hy) as Hcy.
  destruct (placement width height edgeX edgeY) as [direction [leftPx topPx]].
  destruct Hp as (-> & -> & _).
  intros Hadd. apply classList_add_classes in Hadd as (_ & _ & -> & -> & _). simpl.
  exists (clamped width edgeX), (clamped height edgeY).
  split; [apply (px_between padding (width - padding)%num); auto using padding_finite |].
  split; [apply (px_between padding (height - padding)%num); auto using padding_finite |].
  split; assumption.
Qed.

Lemma indicator_within_canvas_witness :
  exists leftPx topPx,
    (exists el,
       indicator (Number.of_Z 800) (Number.of_Z 600) None crane 2 (project camera crane)
       = inr el
       /\ style_left el = Some leftPx /\ style_top el = Some topPx)
    /\ (padding <= leftPx <= Number.of_Z 800 - padding)%num
    /\ (padding <= topPx <= Number.of_Z 600 - padding)%num.
Proof.
  destruct (indicator (Number.of_Z 800) (Number.of_Z 600) None crane 2
              (project camera crane)) as [e | el] eqn:H.
  - vm_compute in H. discriminate.
  - destruct (indicator_within_canvas 800 600 None crane 2 (project camera crane) el)
      as (leftPx & topPx & Hl & Ht & Hbox).
    + vm_compute. split; discriminate.
    + vm_compute. split; discriminate.
    + vm_compute. reflexivity.
    + vm_compute. reflexivity.
    + exact H.
    + exists leftPx, topPx. split; [| exact Hbox]. exists el. auto.
Defined.

End ProjectorMore.
(** ** The overlay script: telemetry and polling *)

Section OverlayFacts.
Import Samples Overlay.

Lemma render_fields (s : State) :
  annotations (fst (render s)) = annotations s
  /\ activeAnnotationId (fst (render s)) = activeAnnotationId s
  /\ annotationPollInterval (fst (render s)) = annotationPollInterval s
  /\ lastCameraUpdate (fst (render s)) = lastCameraUpdate s
  /\ editMode (fst (render s)) = editMode s.
Proof.
  unfold render.
  destruct (Projector.updateAnnotationPositions _ _ _ _ _) as [c e]. simpl. auto.
Qed.

Lemma animate_cases (now : Z) (cam : THREE.Camera) (position : THREE.Vector3)
    (s : State) :
  (snd (fst (animate now cam position s)) = []
   /\ lastCameraUpdate (fst (fst (animate now cam position s))) = lastCameraUpdate s)
  \/ (snd (fst (animate now cam position s)) = [cameraUpdate position]
      /\ lastCameraUpdate (fst (fst (animate now cam position s))) = now
      /\ (100 < now - lastCameraUpdate s)%Z
      /\ snd (animate now cam position s) = None).
Proof.
  unfold animate.
  destruct (render_fields (setScene (Some cam) (renderer s) s)) as (_ & _ & _ & Hl & _).
  destruct (render (setScene (Some cam) (renderer s) s)) as [s2 [e |]];
    simpl in Hl; simpl.
  - left. auto.
  - rewrite Hl. destruct (100 <? now - lastCameraUpdate s)%Z eqn:Ht; simpl.
    + apply Z.ltb_lt in Ht. right. auto.
    + left. auto.
Qed.

(** X6: whatever the frame times, every [cameraUpdate] posted by the render
    loop comes more than 100 milliseconds after the one before it (and the
    first one more than 100 after the initial [lastCameraUpdate]). *)
Theorem camera_updates_spaced (frames : list Frame) (s : State) :
  spaced (lastCameraUpdate s) (snd (animateAll frames s)).
Proof.
  revert s. induction frames as [| f rest IH]; intros s; simpl; [exact I |].
  destruct (animate_cases (frame_now f) (frame_camera f) (frame_position f) s)
    as [[Hp Hl] | (Hp & Hl & Ht & _)];
    destruct (animate (frame_now f) (frame_camera f) (frame_position f) s)
      as [[s1 posted] e]; simpl in *; subst posted;
    specialize (IH s1); destruct (animateAll rest s1) as [s2 times]; simpl in *.
  - rewrite Hl in IH. exact IH.
  - rewrite Hl in IH. split; assumption.
Qed.

Lemma onMessage_update_fields (anns : option (list Annotation))
    (active : option string) (s : State) :
  annotations (fst (onMessage (updateAnnotations anns active) s)) = default [] anns
  /\ activeAnnotationId (fst (onMessage (updateAnnotations anns active) s)) = active.
Proof.
  unfold onMessage.
  destruct (render_fields (setAnnotations (default [] anns) active s))
    as (Ha & Hi & _).
  destruct (render (setAnnotations (default [] anns) active s)) as [s2 [e |]];
    simpl in *; [auto |].
  destruct (_ && _); simpl; auto.
Qed.

(** X7: while the interval is set and the overlay has no annotation, a tick
    posts one request and keeps polling.  Once the viewer's answer to a
    request has been received with a non-empty list, the overlay holds that
    list and the active identifier, and the next tick posts nothing and
    leaves the interval cleared - also when the redraw raised inside the
    listener. *)
Theorem poll_stops_after_data (props : Host.Props) (hs : Host.State) (s : State) :
  Host.annotations props <> [] ->
  (forall s0, annotationPollInterval s0 = true -> annotations s0 = [] ->
              pollTick s0 = (s0, [requestAnnotations]))
  /\ exists reply,
       Host.handleMessage true props requestAnnotations hs = (hs, [reply], [])
       /\ annotations (fst (onMessage reply s)) = Host.annotations props
       /\ activeAnnotationId (fst (onMessage reply s)) = Host.activeAnnotationId props
       /\ snd (pollTick (fst (onMessage reply s))) = []
       /\ annotationPollInterval (fst (pollTick (fst (onMessage reply s)))) = false.
Proof.
  intros Hne. split.
  - intros s0 Hp Ha. unfold pollTick. rewrite Hp, Ha. reflexivity.
  - exists (updateAnnotations (Some (Host.annotations props))
              (Host.activeAnnotationId props)).
    split; [reflexivity |].
    destruct (onMessage_update_fields (Some (Host.annotations props))
                (Host.activeAnnotationId props) s) as [Ha Hi].
    set (s' := fst (onMessage _ s)) in *. clearbody s'. simpl in Ha.
    split; [exact Ha |]. split; [exact Hi |].
    unfold pollTick. rewrite Ha.
    destruct (annotationPollInterval s') eqn:Hp; [| auto].
    destruct (Host.annotations props) as [| a l]; [congruence |]. simpl. auto.
Qed.

Lemma poll_stops_after_data_witness :
  exists reply,
    Host.handleMessage true
      {| Host.annotations := [Scene.valve]; Host.activeAnnotationId := Some "valve";
         Host.onAnnotationClick := true; Host.onAddAnnotation := false;
         Host.onCameraMove := true |} requestAnnotations Host.initial
    = (Host.initial, [reply], [])
    /\ annotations (fst (onMessage reply
                           (fst (assetLoaded (start Scene.camera Scene.renderer (initial [] false))))))
       = [Scene.valve]
    /\ snd (pollTick (fst (onMessage reply
                             (fst (assetLoaded
                                     (start Scene.camera Scene.renderer (initial [] false)))))))
       = [].
Proof.
  destruct (poll_stops_after_data
              {| Host.annotations := [Scene.valve]; Host.activeAnnotationId := Some "valve";
                 Host.onAnnotationClick := true; Host.onAddAnnotation := false;
                 Host.onCameraMove := true |} Host.initial
              (fst (assetLoaded (start Scene.camera Scene.renderer (initial [] false)))))
    as [_ (reply & Hr & Ha & _ & Hp & _)].
  - discriminate.
  - exists reply. split; [exact Hr |]. split; [exact Ha | exact Hp].
Defined.

Lemma forEach_raising (cam : THREE.Camera) (width height : number)
    (activeAnnotationId : option string) (anns : list Annotation)
    (i : nat) (ann : Annotation) :
  anns !! i = Some ann ->
  Projector.renderAnnotation cam width height activeAnnotationId ann (Z.of_nat i)
  = inl Projector.SyntaxError ->
  snd (Projector.forEach cam width height activeAnnotationId anns 0 [])
  = Some Projector.SyntaxError
  /\ (length (fst (Projector.forEach cam width height activeAnnotationId anns 0 []))
      <= i)%nat.
Proof.
  intros Hi Hraise.
  destruct (Projector.forEach cam width height activeAnnotationId anns 0 [])
    as [c e] eqn:Hf.
  apply forEach_spec in Hf as (drawn & -> & Hdrawn & He). simpl.
  assert (length drawn <= i)%nat as Hlen.
  { destruct (decide (i < length drawn)%nat) as [Hlt |]; [| lia].
    apply lookup_lt_is_Some_2 in Hlt as [el Hel].
    destruct (Hdrawn i el Hel) as (a & Ha & Hr). rewrite Z.add_0_l in Hr.
    congruence. }
  split; [| exact Hlen].
  destruct e as [[] |]; [reflexivity |].
  apply lookup_lt_Some in Hi. lia.
Qed.

(** X9: as long as one annotation of the list is one whose drawing raises,
    a turn of the render loop ends in that exception: it posts no
    [cameraUpdate], leaves [lastCameraUpdate] as it was, and the container
    holds at most the elements of the annotations before that one. *)
Theorem raising_annotation_silences_frame (now : Z) (cam : THREE.Camera)
    (position : THREE.Vector3) (s : State) (r : Projector.Renderer)
    (i : nat) (ann : Annotation) :
  renderer s = Some r ->
  annotations s !! i = Some ann ->
  Projector.renderAnnotation cam (Number.of_Z (Projector.clientWidth r))
    (Number.of_Z (Projector.clientHeight r)) (activeAnnotationId s) ann (Z.of_nat i)
  = inl Projector.SyntaxError ->
  snd (fst (animate now cam position s)) = []
  /\ snd (animate now cam position s) = Some Projector.SyntaxError
  /\ lastCameraUpdate (fst (fst (animate now cam position s))) = lastCameraUpdate s
  /\ (length (container (fst (fst (animate now cam position s)))) <= i)%nat.
Proof.
  intros Hr Hi Hraise.
  destruct (forEach_raising cam _ _ (activeAnnotationId s) (annotations s) i ann
              Hi Hraise) as [He Hlen].
  unfold animate, render, Projector.updateAnnotationPositions. simpl. rewrite Hr.
  destruct (Projector.forEach _ _ _ _ _ _ _) as [c e]. simpl in *. subst e.
  simpl. auto.
Qed.

Lemma raising_annotation_silences_frame_witness :
  snd (fst (animate 1000 Scene.camera Lesson.origin
              (start Scene.camera Scene.renderer
                 (initial [Scene.gauge; Scene.valve] false)))) = []
  /\ snd (animate 1000 Scene.camera Lesson.origin
            (start Scene.camera Scene.renderer
               (initial [Scene.gauge; Scene.valve] false)))
     = Some Projector.SyntaxError.
Proof.
  destruct (raising_annotation_silences_frame 1000 Scene.camera Lesson.origin
              (start Scene.camera Scene.renderer
                 (initial [Scene.gauge; Scene.valve] false))
              Scene.renderer 1 Scene.valve) as (Hp & He & _).
  - reflexivity.
  - reflexivity.
  - vm_compute. reflexivity.
  - split; [exact Hp | exact He].
Defined.

End OverlayFacts.

(** ** The page: sorted view, progress, completion in order *)

Section PlayerMore.
Import Player Lesson.

Lemma insertByOrder_sorted (a : Annotation) (l : list Annotation) :
  StronglySorted byOrder l -> StronglySorted byOrder (insertByOrder a l).
Proof.
  induction l as [| b l IH]; simpl; intros Hs.
  - repeat constructor.
  - apply StronglySorted_inv in Hs as [Hl Hb].
    destruct (order a <=? order b)%Z eqn:Hab.
    + apply Z.leb_le in Hab. constructor; [constructor; assumption |].
      constructor; [exact Hab |].
      eapply Forall_impl; [exact Hb |]. unfold byOrder. intros c Hc. lia.
    + apply Z.leb_gt in Hab. constructor; [apply IH, Hl |].
      rewrite insertByOrder_perm. constructor; [unfold byOrder; lia | exact Hb].
Qed.

Lemma insertByOrder_filter (k : Z) (a : Annotation) (l : list Annotation) :
  filter (fun b => order b = k) (insertByOrder a l)
  = filter (fun b => order b = k) (a :: l).
Proof.
  induction l as [| b l IH]; simpl; [reflexivity |].
  destruct (order a <=? order b)%Z eqn:Hab; [reflexivity |].
  apply Z.leb_gt in Hab.
  rewrite (filter_cons _ b), IH, !(filter_cons _ a), (filter_cons _ b).
  destruct (decide (order b = k)), (decide (order a = k)); try reflexivity. lia.
Qed.

(** X10: the sorted view of the annotations is ordered by [order], holds
    the same annotations, and keeps annotations of equal order in the order
    of the tutorial. *)
Theorem sortByOrder_sorted_stable (l : list Annotation) :
  StronglySorted byOrder (sortByOrder l)
  /\ sortByOrder l ≡ₚ l
  /\ forall k, filter (fun a => order a = k) (sortByOrder l)
               = filter (fun a => order a = k) l.
Proof.
  split; [| split].
  - induction l as [| a l IH]; simpl; [constructor | apply insertByOrder_sorted, IH].
  - apply sortByOrder_perm.
  - intros k. induction l as [| a l IH]; simpl; [reflexivity |].
    rewrite insertByOrder_filter, !(filter_cons _ a), IH. reflexivity.
Qed.

Lemma length_sortedAnnotations (s : State) (t : Tutorial) :
  tutorial s = Some t -> length (sortedAnnotations s) = length (annotations t).
Proof.
  unfold sortedAnnotations. intros ->. apply Permutation_length, sortByOrder_perm.
Qed.


Lemma annotationIds_sorted (s : State) :
  annotationIds s = list_to_set (map id (sortedAnnotations s)).
Proof.
  unfold annotationIds, sortedAnnotations. destruct (tutorial s) as [t |].
  - apply set_eq. intros k. rewrite !elem_of_list_to_set.
    rewrite (sortByOrder_perm (annotations t)). reflexivity.
  - reflexivity.
Qed.










Lemma at_index_of_nat {A : Type} (l : list A) (k : nat) :
  at_index l (Z.of_nat k) = l !! k.
Proof.
  unfold at_index. destruct (Z.of_nat k <? 0)%Z eqn:H; [apply Z.ltb_lt in H; lia |].
  rewrite Nat2Z.id. reflexivity.
Qed.

Lemma at_index_lookup {A : Type} (l : list A) (i : Z) (a : A) :
  at_index l i = Some a <-> (0 <= i)%Z /\ l !! Z.to_nat i = Some a.
Proof.
  unfold at_index. destruct (i <? 0)%Z eqn:H.
  - apply Z.ltb_lt in H. split; [discriminate | lia].
  - apply Z.ltb_ge in H. tauto.
Qed.

Lemma distinct_index (l : list Annotation) (i j : nat) (a b : Annotation) :
  NoDup (map id l) -> l !! i = Some a -> l !! j = Some b -> id a = id b -> i = j.
Proof.
  intros Hnd Hi Hj Hid. apply (NoDup_lookup (map id l) i j (id a)); [exact Hnd | |].
  - rewrite list_lookup_fmap, Hi. reflexivity.
  - rewrite list_lookup_fmap, Hj, Hid. reflexivity.
Qed.

Lemma elem_of_firstIds (k : nat) (s : State) (key : string) :
  key ∈ firstIds k s <->
  exists j a, (j < k)%nat /\ sortedAnnotations s !! j = Some a /\ id a = key.
Proof.
  unfold firstIds. rewrite elem_of_list_to_set, list_elem_of_fmap. split.
  - intros (a & -> & Ha). apply list_elem_of_lookup in Ha as [j Hj].
    apply lookup_take_Some in Hj as [Hj Hlt]. eauto.
  - intros (j & a & Hlt & Hj & <-). exists a. split; [reflexivity |].
    apply list_elem_of_lookup. exists j. apply lookup_take_Some. auto.
Qed.

Lemma firstIds_S (k : nat) (s : State) (cur : Annotation) :
  sortedAnnotations s !! k = Some cur ->
  firstIds (S k) s = firstIds k s ∪ {[ id cur ]}.
Proof.
  intros Hk. unfold firstIds. rewrite (take_S_r _ _ _ Hk), fmap_app.
  rewrite list_to_set_app_L. simpl. rewrite union_empty_r_L. reflexivity.
Qed.

Lemma size_firstIds (k : nat) (s : State) :
  distinctIds s -> (k <= length (sortedAnnotations s))%nat -> size (firstIds k s) = k.
Proof.
  intros Hnd Hk. unfold firstIds. rewrite size_list_to_set.
  - rewrite length_map, length_take. lia.
  - change (NoDup (id <$> take k (sortedAnnotations s))).
    rewrite fmap_take. unfold distinctIds in Hnd.
    change (NoDup (id <$> sortedAnnotations s)) in Hnd.
    rewrite <- (take_drop k (id <$> sortedAnnotations s)) in Hnd.
    apply NoDup_app in Hnd. tauto.
Qed.

(** With the first [k] steps completed and the learner on step [k], the
    next required step is [k]. *)
Lemma nextRequiredStep_prefix (s : State) (k : nat) (cur : Annotation) :
  distinctIds s ->
  completedSteps s = firstIds k s ->
  sortedAnnotations s !! k = Some cur ->
  (id cur ∉ completedSteps s) /\ nextRequiredStep s = Z.of_nat k.
Proof.
  intros Hnd Hc Hk.
  assert (id cur ∉ completedSteps s) as Hnot.
  { rewrite Hc, elem_of_firstIds. intros (j & a & Hlt & Hj & Hid).
    pose proof (distinct_index _ j k a cur Hnd Hj Hk Hid). lia. }
  split; [exact Hnot |].
  assert (nextRequiredStep s <> (-1)%Z) as Hsome.
  { rewrite nextRequiredStep_none. intros Hall. apply Hnot, Hall.
    eapply list_elem_of_lookup_2, Hk. }
  destruct (nextRequiredStep_first s Hsome) as [(a & Ha & Hna) Hbefore].
  apply at_index_lookup in Ha as [Hpos Ha].
  destruct (Z.lt_trichotomy (nextRequiredStep s) (Z.of_nat k)) as [Hlt | [Heq | Hgt]].
  - exfalso. apply Hna. rewrite Hc, elem_of_firstIds.
    exists (Z.to_nat (nextRequiredStep s)), a. split; [lia | auto].
  - exact Heq.
  - exfalso. apply Hnot, (Hbefore (Z.of_nat k) cur); [lia |].
    rewrite at_index_of_nat. exact Hk.
Qed.

(** X13: completing in sequence.  With distinct identifiers, the first [k]
    steps completed, the learner on step [k] and near its marker,
    [markComplete] leaves the first [k + 1] steps completed, clears the
    warning, moves to the next step unless this was the last one, and, with
    a session, posts the new set with [completed] set exactly when
    [k + 1] is the number of steps. *)
Theorem markComplete_next_in_sequence (s : State) (k : nat) (cur : Annotation) :
  distinctIds s ->
  completedSteps s = firstIds k s ->
  currentStep s = Z.of_nat k ->
  currentAnnotation s = Some cur ->
  isNearCurrentAnnotation s = true ->
  completedSteps (fst (markComplete s)) = firstIds (S k) s
  /\ proximityWarning (fst (markComplete s)) = None
  /\ currentStep (fst (markComplete s))
     = Z.min (Z.of_nat k + 1) (length_of (sortedAnnotations s) - 1)
  /\ (session s = true ->
      exists t, tutorial s = Some t
                /\ snd (markComplete s)
                   = [fetch_POST_progress (tutorialId t) (firstIds (S k) s)
                        (Z.of_nat (S k) =? length_of (sortedAnnotations s))%Z]).
Proof.
  intros Hnd Hc Hstep Hcur Hnear.
  assert (sortedAnnotations s !! k = Some cur) as Hk
    by (unfold currentAnnotation in Hcur; rewrite Hstep, at_index_of_nat in Hcur;
        exact Hcur).
  destruct (nextRequiredStep_prefix s k cur Hnd Hc Hk) as [Hnot Hnr].
  pose proof (lookup_lt_Some _ _ _ Hk) as Hlen.
  rewrite (markComplete_gated s cur Hcur Hnot), Hnr, Hstep, Z.eqb_refl, Hnear.
  rewrite andb_false_r. simpl negb. cbv iota.
  rewrite Hc, <- (firstIds_S k s cur Hk).
  set (c := firstIds (S k) s).
  assert (size c = S k) as Hsize by (apply size_firstIds; [exact Hnd | lia]).
  unfold saveProgress. simpl.
  change (sortedAnnotations (setCompletedSteps c s)) with (sortedAnnotations s).
  assert (exists t, tutorial s = Some t) as [t Ht].
  { unfold sortedAnnotations in Hk. destruct (tutorial s) as [t |]; [eauto |].
    inversion Hk. }
  rewrite Ht, Hsize.
  assert (forall s1 : State,
             currentStep (if (Z.of_nat k <? length_of (sortedAnnotations s) - 1)%Z
                          then setCurrentStep (Z.of_nat k + 1) s1 else s1)
             = if (Z.of_nat k <? length_of (sortedAnnotations s) - 1)%Z
               then (Z.of_nat k + 1)%Z else currentStep s1) as Hcs
    by (intros s1; destruct (_ <? _)%Z; reflexivity).
  assert ((if (Z.of_nat k <? length_of (sortedAnnotations s) - 1)%Z
           then (Z.of_nat k + 1)%Z else Z.of_nat k)
          = Z.min (Z.of_nat k + 1) (length_of (sortedAnnotations s) - 1)) as Hmin.
  { unfold length_of in *. destruct (_ <? _)%Z eqn:Hl;
      [apply Z.ltb_lt in Hl | apply Z.ltb_ge in Hl]; lia. }
  destruct (session s); simpl.
  - repeat split.
    + destruct (_ <? _)%Z; reflexivity.
    + destruct (_ <? _)%Z; reflexivity.
    + rewrite Hcs. simpl. rewrite Hstep. exact Hmin.
    + intros _. exists t. split; reflexivity.
  - repeat split.
    + destruct (_ <? _)%Z; reflexivity.
    + destruct (_ <? _)%Z; reflexivity.
    + rewrite Hcs. simpl. rewrite Hstep. exact Hmin.
    + discriminate.
Qed.

Lemma markComplete_next_in_sequence_witness :
  completedSteps
    (fst (markComplete (learner abc 1 {[ "A" ]}
                          {| THREE.x := Number.of_Z 4; THREE.y := Number.of_Z 0;
                             THREE.z := Number.of_Z 1 |})))
  = firstIds 2 (learner abc 1 {[ "A" ]}
                  {| THREE.x := Number.of_Z 4; THREE.y := Number.of_Z 0;
                             THREE.z := Number.of_Z 1 |})
  /\ currentStep
       (fst (markComplete (learner abc 1 {[ "A" ]}
                             {| THREE.x := Number.of_Z 4; THREE.y := Number.of_Z 0;
                             THREE.z := Number.of_Z 1 |})))
     = 2%Z.
Proof.
  destruct (markComplete_next_in_sequence
              (learner abc 1 {[ "A" ]}
                 {| THREE.x := Number.of_Z 4; THREE.y := Number.of_Z 0;
                             THREE.z := Number.of_Z 1 |}) 1 B)
    as (Hc & _ & Hs & _).
  - apply (bool_decide_unpack _). vm_compute. exact I.
  - vm_compute. reflexivity.
  - reflexivity.
  - reflexivity.
  - vm_compute. reflexivity.
  - split; [exact Hc | exact Hs].
Defined.

(** X14: [markComplete] never completes out of order.  Whenever it changes
    the completed set, it has added the identifier of the current step and
    nothing else, that step was not completed, every step before it
    already was, and the distance from the camera to its marker, as the
    page computes it in doubles, was below 3. *)
Theorem markComplete_completes_in_order (s : State) :
  completedSteps (fst (markComplete s)) <> completedSteps s ->
  exists cur,
    currentAnnotation s = Some cur
    /\ (id cur ∉ completedSteps s)
    /\ completedSteps (fst (markComplete s)) = completedSteps s ∪ {[ id cur ]}
    /\ (forall j a, (0 <= j < currentStep s)%Z ->
                    at_index (sortedAnnotations s) j = Some a ->
                    id a ∈ completedSteps s)
    /\ (getDistance (cameraPosition s)
                    {| THREE.x := x cur; THREE.y := y cur; THREE.z := z cur |}
        < Number.of_Z 3)%num.
Proof.
  intros Hchanged.
  destruct (currentAnnotation s) as [cur |] eqn:Hcur;
    [| exfalso; apply Hchanged; unfold markComplete; rewrite Hcur; reflexivity].
  destruct (has (completedSteps s) (id cur)) eqn:Hhas.
  { exfalso. apply Hchanged. unfold markComplete. rewrite Hcur, Hhas. reflexivity. }
  apply has_false in Hhas.
  rewrite (markComplete_gated s cur Hcur Hhas) in Hchanged |- *.
  destruct (negb (nextRequiredStep s =? -1)%Z
            && negb (currentStep s =? nextRequiredStep s)%Z) eqn:Hgate;
    [exfalso; apply Hchanged; reflexivity |].
  destruct (isNearCurrentAnnotation s) eqn:Hnear;
    [| exfalso; apply Hchanged; reflexivity].
  simpl.
  exists cur. split; [reflexivity |]. split; [exact Hhas |].
  set (c := completedSteps s ∪ {[ id cur ]}).
  destruct (saveProgress_fields c (setCompletedSteps c s)) as (Hc & _).
  destruct (saveProgress c (setCompletedSteps c s)) as [s1 saved]. simpl in Hc.
  split; [destruct (_ <? _)%Z; simpl; exact Hc |]. split.
  - assert (nextRequiredStep s <> (-1)%Z) as Hsome.
    { rewrite nextRequiredStep_none. intros Hall. apply Hhas, Hall.
      apply at_index_Some in Hcur. tauto. }
    assert (nextRequiredStep s = currentStep s) as Hnr.
    { apply andb_false_iff in Hgate as [H | H]; apply negb_false_iff in H.
      - apply Z.eqb_eq in H. contradiction.
      - apply Z.eqb_eq in H. congruence. }
    rewrite <- Hnr. apply nextRequiredStep_first, Hsome.
  - apply (isNearCurrentAnnotation_iff s cur Hcur), Hnear.
Qed.

Lemma markComplete_completes_in_order_witness :
  exists cur,
    currentAnnotation (learner solo 0 ∅ near) = Some cur
    /\ completedSteps (fst (markComplete (learner solo 0 ∅ near)))
       = ∅ ∪ {[ id cur ]}.
Proof.
  destruct (markComplete_completes_in_order (learner solo 0 ∅ near))
    as (cur & Hcur & _ & Hc & _).
  - vm_compute. discriminate.
  - exists cur. split; [exact Hcur | exact Hc].
Defined.

Lemma markComplete_session (s : State) :
  session (fst (markComplete s)) = session s.
Proof.
  unfold markComplete. destruct (currentAnnotation s) as [cur |]; [| reflexivity].
  destruct (has _ _); [reflexivity |].
  destruct (_ && _); [reflexivity |].
  destruct (negb _); [reflexivity |].
  unfold saveProgress. simpl.
  destruct (session s) eqn:Hs; [destruct (tutorial s) |];
    simpl; destruct (_ <? _)%Z; simpl; congruence.
Qed.

Lemma markComplete_effects (s : State) (tid : string) (c : gset string) (done : bool) :
  fetch_POST_progress tid c done ∈ snd (markComplete s) ->
  session s = true
  /\ exists cur t,
       currentAnnotation s = Some cur /\ tutorial s = Some t
       /\ (id cur ∉ completedSteps s)
       /\ tid = tutorialId t
       /\ c = completedSteps s ∪ {[ id cur ]}
       /\ done = (Z.of_nat (size c) =? length_of (sortedAnnotations s))%Z.
Proof.
  unfold markComplete. destruct (currentAnnotation s) as [cur |]; [| intros H; inversion H].
  destruct (has _ _) eqn:Hhas.
  { intros H. apply list_elem_of_singleton in H. discriminate. }
  destruct (_ && _).
  { intros H. apply list_elem_of_singleton in H. discriminate. }
  destruct (negb _).
  { intros H. apply list_elem_of_singleton in H. discriminate. }
  apply has_false in Hhas. unfold saveProgress. simpl.
  destruct (session s); [destruct (tutorial s) as [t |] |]; simpl;
    intros H; try (inversion H; fail).
  apply list_elem_of_singleton in H. injection H as -> -> ->.
  split; [reflexivity |]. exists cur, t. repeat split. exact Hhas.
Qed.

(** X15: no handler but the rehydration of stored progress ever takes an
    identifier out of the completed set. *)
Theorem completedSteps_only_grow (e : Event) (s : State) :
  (forall res, e <> ProgressFetched res) ->
  completedSteps s ⊆ completedSteps (fst (handle e s)).
Proof.
  intros Hnot.
  assert (completedSteps s ⊆ completedSteps (fst (markComplete s))) as Hmark.
  { destruct (markComplete_fields s) as (_ & _ & [-> | (cur & _ & ->)]);
      [reflexivity | apply union_subseteq_l]. }
  destruct e; simpl; try reflexivity.
  - destruct (loadProgress_fields (setTutorial (Some t) s)) as (_ & _ & -> & _).
    reflexivity.
  - destruct (loadProgress_fields (setSession session0 s)) as (_ & _ & -> & _).
    reflexivity.
  - exfalso. eapply Hnot. reflexivity.
  - unfold handleKeyDown. destruct (showWelcome s); [reflexivity |].
    destruct (_ || _); [destruct (_ <? _)%Z; reflexivity |].
    destruct (_ || _); [destruct (_ <? _)%Z; reflexivity |].
    destruct (_ || _); [exact Hmark | reflexivity].
  - unfold previousClick. destruct (_ =? _)%Z; reflexivity.
  - unfold secondButtonClick. destruct (currentIsCompleted s).
    + destruct (_ <=? _)%Z; [reflexivity |]. destruct (_ <? _)%Z; reflexivity.
    + destruct (_ || _); [reflexivity | exact Hmark].
  - unfold onAnnotationClick. destruct (negb _); reflexivity.
Qed.

Lemma completedSteps_only_grow_witness :
  completedSteps (learner solo 0 {[ "A" ]} far)
  ⊆ completedSteps (fst (handle (KeyDown "Enter") (learner solo 0 {[ "A" ]} far))).
Proof.
  apply completedSteps_only_grow. intros res Hres. discriminate Hres.
Defined.

Lemma markComplete_requests (s : State) :
  progressRequests (fst (markComplete s)) = progressRequests s
  /\ progressLoaded (fst (markComplete s)) = progressLoaded s
  /\ (forall tid, fetch_GET_progress tid ∉ snd (markComplete s)).
Proof.
  assert (forall tid ms, fetch_GET_progress tid ∉ [setTimeout_clearWarning ms]) as Hw
    by (intros tid ms H; apply list_elem_of_singleton in H; discriminate).
  assert (forall tid, fetch_GET_progress tid ∉ ([] : list Effect)) as Hnil
    by (intros tid H; inversion H).
  unfold markComplete. destruct (currentAnnotation s) as [cur |]; [| simpl; auto].
  destruct (has _ _); [simpl; auto |].
  destruct (_ && _); [simpl; auto |].
  destruct (negb _); [simpl; auto |].
  unfold saveProgress. simpl.
  destruct (session s); [destruct (tutorial s) as [t |] |];
    simpl; destruct (_ <? _)%Z; simpl; repeat split; auto;
    intros tid H; apply list_elem_of_singleton in H; discriminate.
Qed.

(** X16: without a session no request leaves the page.  Whatever happens
    but a change of the session, the page stays without a session, posts
    no progress and fetches none: the progress effect tests the session
    before its request, so no further request is in flight afterwards. *)
Theorem anonymous_never_saves (e : Event) (s : State) :
  session s = false ->
  (forall b, e <> SessionChanged b) ->
  session (fst (handle e s)) = false
  /\ (forall tid c done, fetch_POST_progress tid c done ∉ snd (handle e s))
  /\ (forall tid, fetch_GET_progress tid ∉ snd (handle e s))
  /\ (progressRequests (fst (handle e s)) <= progressRequests s)%nat.
Proof.
  intros Hs Hnot.
  assert (forall tid c done, fetch_POST_progress tid c done ∉ snd (markComplete s))
    as Hmark.
  { intros tid c done Hin. apply markComplete_effects in Hin as [Hsess _]. congruence. }
  assert (session (fst (markComplete s)) = false) as Hmark'
    by (rewrite markComplete_session; exact Hs).
  destruct (markComplete_requests s) as (Hmr & _ & Hmg).
  assert (forall s', session s' = false -> loadProgress s' = (s', [])) as Hload
    by (intros s' Hs'; unfold loadProgress; rewrite Hs'; reflexivity).
  assert (forall tid c done, fetch_POST_progress tid c done ∉ ([] : list Effect)) as Hnil
    by (intros tid c done H; inversion H).
  assert (forall tid, fetch_GET_progress tid ∉ ([] : list Effect)) as Hnil'
    by (intros tid H; inversion H).
  destruct e; simpl.
  - rewrite (Hload (setTutorial (Some t) s) Hs). simpl. auto.
  - exfalso. eapply Hnot. reflexivity.
  - unfold loadProgressSettled.
    destruct res as [| | [ids |]]; simpl; repeat split; auto; lia.
  - unfold handleKeyDown. destruct (showWelcome s); [simpl; auto |].
    destruct (_ || _); [destruct (_ <? _)%Z; simpl; auto |].
    destruct (_ || _); [destruct (_ <? _)%Z; simpl; auto |].
    destruct (_ || _); [| simpl; auto].
    rewrite Hmr. auto.
  - unfold previousClick. destruct (_ =? _)%Z; simpl; auto.
  - unfold secondButtonClick. destruct (currentIsCompleted s).
    + destruct (_ <=? _)%Z; [simpl; auto |]. destruct (_ <? _)%Z; simpl; auto.
    + destruct (_ || _); [simpl; auto |]. rewrite Hmr. auto.
  - auto.
  - unfold onAnnotationClick. destruct (negb _); simpl; auto.
  - auto.
  - auto.
  - auto.
  - split; [exact Hs |]. split; [| split; [| apply le_n]].
    + intros tid c done H. destruct (negb threw && isComplete); simpl in H.
      * apply list_elem_of_singleton in H. discriminate.
      * inversion H.
    + intros tid H. destruct (negb threw && isComplete); simpl in H.
      * apply list_elem_of_singleton in H. discriminate.
      * inversion H.
Qed.

Lemma anonymous_never_saves_witness :
  session (fst (handle (KeyDown "Enter")
                  (fst (handle WelcomeDismissed
                          (fst (handle (TutorialLoaded solo) (initial false)))))))
  = false
  /\ (forall tid c done,
        fetch_POST_progress tid c done
        ∉ snd (handle (KeyDown "Enter")
                 (fst (handle WelcomeDismissed
                         (fst (handle (TutorialLoaded solo) (initial false)))))))
  /\ (forall tid,
        fetch_GET_progress tid
        ∉ snd (handle (KeyDown "Enter")
                 (fst (handle WelcomeDismissed
                         (fst (handle (TutorialLoaded solo) (initial false)))))))
  /\ (progressRequests
        (fst (handle (KeyDown "Enter")
                (fst (handle WelcomeDismissed
                        (fst (handle (TutorialLoaded solo) (initial false)))))))
      <= progressRequests
           (fst (handle WelcomeDismissed
                   (fst (handle (TutorialLoaded solo) (initial false))))))%nat.
Proof.
  apply (anonymous_never_saves (KeyDown "Enter")
           (fst (handle WelcomeDismissed
                   (fst (handle (TutorialLoaded solo) (initial false)))))).
  - reflexivity.
  - intros b H. discriminate H.
Defined.

(** X17: once [progressLoaded] is set, stored progress is never fetched
    again: every handler leaves the flag set and sends no progress
    request, whatever becomes of the session; and an answer that did not
    raise sets the flag.  Requests already in flight are not held back:
    with two of them, the completed set is the one of the answer that
    comes last. *)
Theorem progressLoaded_stops_fetching (e : Event) (s : State) :
  progressLoaded s = true ->
  progressLoaded (fst (handle e s)) = true
  /\ (forall tid, fetch_GET_progress tid ∉ snd (handle e s))
  /\ (forall res s0, res <> fetchThrew ->
                     progressLoaded (fst (handle (ProgressFetched res) s0)) = true)
  /\ (forall ids1 ids2 s0,
        completedSteps
          (fst (handle (ProgressFetched (okJson (Some ids2)))
                  (fst (handle (ProgressFetched (okJson (Some ids1))) s0))))
        = list_to_set ids2).
Proof.
  intros Hp.
  destruct (markComplete_requests s) as (_ & Hml & Hmg).
  assert (forall s', progressLoaded s' = true -> loadProgress s' = (s', [])) as Hload.
  { intros s' Hs'. unfold loadProgress. rewrite Hs'.
    destruct (session s'), (tutorial s'); reflexivity. }
  assert (forall tid, fetch_GET_progress tid ∉ ([] : list Effect)) as Hnil
    by (intros tid H; inversion H).
  split; [| split; [| split]].
  - destruct e; simpl; try exact Hp.
    + rewrite (Hload (setTutorial (Some t) s) Hp). exact Hp.
    + rewrite (Hload (setSession session0 s) Hp). exact Hp.
    + unfold loadProgressSettled. destruct res as [| | [ids |]]; simpl; auto.
    + unfold handleKeyDown. destruct (showWelcome s); [exact Hp |].
      destruct (_ || _); [destruct (_ <? _)%Z; exact Hp |].
      destruct (_ || _); [destruct (_ <? _)%Z; exact Hp |].
      destruct (_ || _); [rewrite Hml; exact Hp | exact Hp].
    + unfold previousClick. destruct (_ =? _)%Z; exact Hp.
    + unfold secondButtonClick. destruct (currentIsCompleted s).
      * destruct (_ <=? _)%Z; [exact Hp |]. destruct (_ <? _)%Z; exact Hp.
      * destruct (_ || _); [exact Hp | rewrite Hml; exact Hp].
    + unfold onAnnotationClick. destruct (negb _); exact Hp.
  - destruct e; simpl; try exact Hnil.
    + rewrite (Hload (setTutorial (Some t) s) Hp). exact Hnil.
    + rewrite (Hload (setSession session0 s) Hp). exact Hnil.
    + unfold handleKeyDown. destruct (showWelcome s); [exact Hnil |].
      destruct (_ || _); [exact Hnil |]. destruct (_ || _); [exact Hnil |].
      destruct (_ || _); [exact Hmg | exact Hnil].
    + unfold secondButtonClick. destruct (currentIsCompleted s); [exact Hnil |].
      destruct (_ || _); [exact Hnil | exact Hmg].
    + intros tid H. destruct (negb threw && isComplete); simpl in H.
      * apply list_elem_of_singleton in H. discriminate.
      * inversion H.
  - intros res s0 Hres. destruct res as [| | [ids |]]; [congruence | | |]; reflexivity.
  - intros ids1 ids2 s0. reflexivity.
Qed.

(** Two requests in flight: the tutorial arrives, the session is refreshed
    before the first answer, and both answers are installed, the later one
    last. *)
Lemma two_progress_answers :
  snd (handle (SessionChanged true)
         (fst (handle (TutorialLoaded abc) (initial true))))
  = [fetch_GET_progress "t1"]
  /\ progressRequests
       (fst (handle (SessionChanged true)
               (fst (handle (TutorialLoaded abc) (initial true))))) = 2%nat
  /\ completedSteps
       (fst (handle (ProgressFetched (okJson (Some ["B"])))
               (fst (handle (ProgressFetched (okJson (Some ["A"])))
                       (fst (handle (SessionChanged true)
                               (fst (handle (TutorialLoaded abc) (initial true)))))))))
     = {[ "B" ]}.
Proof. repeat split; vm_compute; reflexivity. Qed.

Lemma progressLoaded_stops_fetching_witness :
  progressLoaded
    (fst (handle (SessionChanged true)
            (fst (handle (ProgressFetched (okJson (Some ["A"])))
                    (fst (handle (TutorialLoaded abc) (initial true)))))))
  = true
  /\ (forall tid,
        fetch_GET_progress tid
        ∉ snd (handle (SessionChanged true)
                 (fst (handle (ProgressFetched (okJson (Some ["A"])))
                         (fst (handle (TutorialLoaded abc) (initial true))))))).
Proof.
  destruct (progressLoaded_stops_fetching (SessionChanged true)
              (fst (handle (ProgressFetched (okJson (Some ["A"])))
                      (fst (handle (TutorialLoaded abc) (initial true))))))
    as (H1 & H2 & _).
  - reflexivity.
  - split; [exact H1 | exact H2].
Defined.

Lemma setCurrentStep_same (s : State) : setCurrentStep (currentStep s) s = s.
Proof. destruct s. reflexivity. Qed.

Lemma setCurrentStep_twice (n m : Z) (s : State) :
  setCurrentStep n (setCurrentStep m s) = setCurrentStep n s.
Proof. reflexivity. Qed.

(** X18: once the welcome popup is closed, the arrow keys undo each other:
    from a step that is not the last, right then left comes back to the
    same state, and from a valid step that is not the first, left then
    right does. *)
Theorem arrow_keys_undo (s : State) :
  showWelcome s = false ->
  ((0 <= currentStep s < length_of (sortedAnnotations s) - 1)%Z ->
   handleKeyDown "ArrowLeft" (fst (handleKeyDown "ArrowRight" s)) = (s, []))
  /\ ((0 < currentStep s < length_of (sortedAnnotations s))%Z ->
      handleKeyDown "ArrowRight" (fst (handleKeyDown "ArrowLeft" s)) = (s, [])).
Proof.
  intros Hw. split; intros Hstep.
  - unfold handleKeyDown at 2. rewrite Hw. simpl.
    assert ((currentStep s <? length_of (sortedAnnotations s) - 1)%Z = true) as ->
      by (apply Z.ltb_lt; lia).
    unfold handleKeyDown. simpl. rewrite Hw.
    assert ((0 <? currentStep s + 1)%Z = true) as -> by (apply Z.ltb_lt; lia).
    rewrite setCurrentStep_twice, Z.add_simpl_r, setCurrentStep_same. reflexivity.
  - unfold handleKeyDown at 2. rewrite Hw. simpl.
    assert ((0 <? currentStep s)%Z = true) as -> by (apply Z.ltb_lt; lia).
    unfold handleKeyDown. simpl. rewrite Hw.
    change (sortedAnnotations (setCurrentStep (currentStep s - 1) s))
      with (sortedAnnotations s).
    assert ((currentStep s - 1 <? length_of (sortedAnnotations s) - 1)%Z = true) as ->
      by (apply Z.ltb_lt; lia).
    rewrite setCurrentStep_twice, Z.sub_add, setCurrentStep_same. reflexivity.
Qed.

Lemma arrow_keys_undo_witness :
  handleKeyDown "ArrowLeft" (fst (handleKeyDown "ArrowRight" (learner abc 1 ∅ origin)))
  = (learner abc 1 ∅ origin, []).
Proof.
  apply (proj1 (arrow_keys_undo (learner abc 1 ∅ origin) eq_refl)).
  vm_compute. split; [discriminate | reflexivity].
Defined.

Lemma distinct_full_set (s : State) (c : gset string) :
  distinctIds s -> c ⊆ annotationIds s ->
  size c = length (sortedAnnotations s) <->
  (forall a, a ∈ sortedAnnotations s -> id a ∈ c).
Proof.
  intros Hnd Hsub. rewrite annotationIds_sorted in Hsub.
  assert (size (list_to_set (map id (sortedAnnotations s)) : gset string)
          = length (sortedAnnotations s)) as Hsize
    by (rewrite size_list_to_set, length_map; [reflexivity | exact Hnd]).
  split.
  - intros Hc a Ha.
    assert (c = list_to_set (map id (sortedAnnotations s))) as ->
      by (apply set_subseteq_size_eq; [exact Hsub | lia]).
    apply elem_of_list_to_set, list_elem_of_fmap. eauto.
  - intros Hall. apply Nat.le_antisymm.
    + rewrite <- Hsize. apply subseteq_size, Hsub.
    + rewrite <- Hsize. apply subseteq_size. intros k Hk.
      apply elem_of_list_to_set, list_elem_of_fmap in Hk as (a & -> & Ha).
      apply Hall, Ha.
Qed.

Lemma markComplete_saved_set (s : State) (tid : string) (c : gset string)
    (done : bool) :
  fetch_POST_progress tid c done ∈ snd (markComplete s) ->
  completedSteps (fst (markComplete s)) = c.
Proof.
  unfold markComplete. destruct (currentAnnotation s) as [cur |]; [| intros H; inversion H].
  destruct (has _ _).
  { intros H. apply list_elem_of_singleton in H. discriminate. }
  destruct (_ && _).
  { intros H. apply list_elem_of_singleton in H. discriminate. }
  destruct (negb _).
  { intros H. apply list_elem_of_singleton in H. discriminate. }
  unfold saveProgress. simpl.
  destruct (session s); [destruct (tutorial s) as [t |] |]; simpl;
    intros H; try (inversion H; fail).
  apply list_elem_of_singleton in H. injection H as -> -> ->.
  destruct (_ <? _)%Z; reflexivity.
Qed.

(** X19: with distinct identifiers and a completed set within the
    tutorial, the progress request [markComplete] posts carries the
    completed set the page now shows, and its [completed] flag is set
    exactly when every step of the tutorial is in that set. *)
Theorem save_flag_means_all_done (s : State) (tid : string) (c : gset string)
    (done : bool) :
  distinctIds s ->
  completedInv s ->
  fetch_POST_progress tid c done ∈ snd (markComplete s) ->
  c = completedSteps (fst (markComplete s))
  /\ (done = true <-> forall a, a ∈ sortedAnnotations s -> id a ∈ c).
Proof.
  intros Hnd Hinv Hin.
  destruct (markComplete_effects s tid c done Hin)
    as (_ & cur & t & Hcur & _ & Hnot & _ & Hc & Hdone).
  pose proof (markComplete_saved_set s tid c done Hin) as Hnew.
  split; [symmetry; exact Hnew |].
  assert (c ⊆ annotationIds s) as Hsub.
  { rewrite Hc. apply union_subseteq. split; [exact Hinv |].
    apply singleton_subseteq_l, sortedAnnotations_ids.
    apply at_index_Some in Hcur. tauto. }
  rewrite <- (distinct_full_set s c Hnd Hsub), Hdone. unfold length_of.
  rewrite Z.eqb_eq. lia.
Qed.

Lemma save_flag_means_all_done_witness :
  {[ "A" ]} = completedSteps (fst (markComplete (learner solo 0 ∅ near)))
  /\ (true = true <->
      forall a, a ∈ sortedAnnotations (learner solo 0 ∅ near) ->
                id a ∈ ({[ "A" ]} : gset string)).
Proof.
  apply (save_flag_means_all_done (learner solo 0 ∅ near) "t2" {[ "A" ]} true).
  - apply (bool_decide_unpack _). vm_compute. exact I.
  - apply empty_subseteq.
  - assert (snd (markComplete (learner solo 0 ∅ near))
            = [fetch_POST_progress "t2" {[ "A" ]} true]) as ->
      by (vm_compute; reflexivity).
    constructor.
Defined.

Lemma renderAnnotation_onclick (cam : THREE.Camera) (width height : number)
    (activeAnnotationId : option string) (ann : Annotation) (index : Z)
    (el : Projector.Element) :
  Projector.renderAnnotation cam width height activeAnnotationId ann index = inr el ->
  Projector.onclick el = ann.
Proof.
  unfold Projector.renderAnnotation.
  destruct (negb _); [intros [= <-]; reflexivity |].
  unfold Projector.indicator.
  destruct (Projector.edge _ _ _) as [edgeX edgeY].
  destruct (Projector.placement _ _ _ _) as [direction [leftPx topPx]].
  intros Hadd. apply classList_add_classes in Hadd as (_ & _ & _ & _ & ->).
  reflexivity.
Qed.

Lemma onAnnotationClick_selects (s : State) (ann : Annotation) :
  distinctIds s -> ann ∈ sortedAnnotations s ->
  currentAnnotation (onAnnotationClick ann s) = Some ann.
Proof.
  intros Hnd Hin. unfold onAnnotationClick.
  set (p := fun a : Annotation => bool_decide (id a = id ann)).
  assert (findIndex p (sortedAnnotations s) <> (-1)%Z) as Hfound.
  { unfold findIndex. rewrite findIndexFrom_none by lia. intros Hall.
    specialize (Hall ann Hin). unfold p in Hall.
    apply bool_decide_eq_false in Hall. congruence. }
  pose proof (findIndex_valid p _ Hfound) as Hrange.
  destruct (findIndexFrom_first p (sortedAnnotations s) 0 ltac:(lia) Hfound)
    as [(a & Ha & Hpa) _].
  fold (findIndex p (sortedAnnotations s)) in Ha. rewrite Z.sub_0_r in Ha.
  apply bool_decide_eq_true in Hpa.
  apply list_elem_of_lookup in Hin as [i Hi].
  pose proof (distinct_index _ _ _ _ _ Hnd Ha Hi Hpa) as Heq.
  rewrite Heq in Ha. assert (a = ann) as -> by congruence.
  apply Z.eqb_neq in Hfound. rewrite Hfound. simpl.
  unfold currentAnnotation. simpl.
  change (sortedAnnotations (setCurrentStep _ s)) with (sortedAnnotations s).
  apply at_index_lookup. split; [lia |]. rewrite Heq. exact Hi.
Qed.

(** X20: a click on a marker or an indicator selects its annotation.  The
    element drawn for an annotation of the sorted list posts that
    annotation; the viewer hands it to [onAnnotationClick]; and, the
    identifiers being distinct, the page then has it as current
    annotation. *)
Theorem marker_click_selects (s : State) (cam : THREE.Camera) (width height : number)
    (activeAnnotationId : option string) (ann : Annotation) (index : Z)
    (el : Projector.Element) (props : Host.Props) (hs : Host.State)
    (contentWindow : bool) :
  distinctIds s ->
  ann ∈ sortedAnnotations s ->
  Projector.renderAnnotation cam width height activeAnnotationId ann index = inr el ->
  Host.onAnnotationClick props = true ->
  exists call,
    snd (Host.handleMessage contentWindow props (Overlay.elementClick el) hs) = [call]
    /\ Host.pageCallback call = Some (AnnotationClick ann)
    /\ currentAnnotation (fst (handle (AnnotationClick ann) s)) = Some ann.
Proof.
  intros Hnd Hin Hel Hcb. apply renderAnnotation_onclick in Hel.
  exists (Host.call_onAnnotationClick ann). unfold Overlay.elementClick.
  rewrite Hel. simpl. rewrite Hcb. repeat split.
  apply onAnnotationClick_selects; assumption.
Qed.

Lemma marker_click_selects_witness :
  exists call,
    snd (Host.handleMessage true
           {| Host.annotations := [A; B; C]; Host.activeAnnotationId := Some "B";
              Host.onAnnotationClick := true; Host.onAddAnnotation := false;
              Host.onCameraMove := true |}
           (Overlay.elementClick
              (Projector.marker (Number.of_Z 800) (Number.of_Z 600) (Some "B") A 0
                 (Projector.project (fun p => p) A)))
           Host.initial) = [call]
    /\ Host.pageCallback call = Some (AnnotationClick A)
    /\ currentAnnotation (fst (handle (AnnotationClick A) (learner abc 1 ∅ origin)))
       = Some A.
Proof.
  apply (marker_click_selects (learner abc 1 ∅ origin) (fun p => p)
           (Number.of_Z 800) (Number.of_Z 600) (Some "B") A 0).
  - apply (bool_decide_unpack _). vm_compute. exact I.
  - apply list_elem_of_lookup. exists 0%nat. reflexivity.
  - vm_compute. reflexivity.
  - reflexivity.
Defined.

End PlayerMore.

(** ** The copy of the page without checks *)

Section SecondPlayerFacts.
Import Player Lesson.

(** X21: where the checked [markComplete] completes a step, it does what
    the unchecked copy does, and clears the warning: same completed set,
    same step index, same request. *)
Theorem checked_markComplete_agrees (s : State) (cur : Annotation) :
  currentAnnotation s = Some cur ->
  id cur ∉ completedSteps s ->
  nextRequiredStep s = (-1)%Z \/ nextRequiredStep s = currentStep s ->
  isNearCurrentAnnotation s = true ->
  markComplete s
  = (setProximityWarning None (fst (SecondPlayer.markComplete s)),
     snd (SecondPlayer.markComplete s)).
Proof.
  intros Hcur Hnot Hseq Hnear.
  assert (negb (nextRequiredStep s =? -1)%Z
          && negb (currentStep s =? nextRequiredStep s)%Z = false) as Hgate.
  { destruct Hseq as [-> | ->]; [reflexivity |].
    rewrite Z.eqb_refl. apply andb_false_r. }
  rewrite (markComplete_gated s cur Hcur Hnot), Hgate, Hnear. simpl.
  unfold SecondPlayer.markComplete. rewrite Hcur.
  destruct (saveProgress _ _) as [s1 saved].
  destruct (_ <? _)%Z; reflexivity.
Qed.

Lemma checked_markComplete_agrees_witness :
  markComplete (learner solo 0 ∅ near)
  = (setProximityWarning None (fst (SecondPlayer.markComplete (learner solo 0 ∅ near))),
     snd (SecondPlayer.markComplete (learner solo 0 ∅ near))).
Proof.
  apply (checked_markComplete_agrees (learner solo 0 ∅ near) A).
  - reflexivity.
  - apply (proj1 (has_false _ _)). reflexivity.
  - right. reflexivity.
  - vm_compute. reflexivity.
Defined.

(** X22: in the unchecked copy [markComplete] on a step that is already
    completed acts as a next button that saves again: the completed set
    stays, the index moves on unless the step is the last, and with a
    session the unchanged set is posted once more. *)
Theorem second_markComplete_completed_step (s : State) (cur : Annotation) :
  currentAnnotation s = Some cur ->
  id cur ∈ completedSteps s ->
  completedSteps (fst (SecondPlayer.markComplete s)) = completedSteps s
  /\ currentStep (fst (SecondPlayer.markComplete s))
     = (if (currentStep s <? length_of (sortedAnnotations s) - 1)%Z
        then currentStep s + 1 else currentStep s)%Z
  /\ (session s = true ->
      exists t, tutorial s = Some t
                /\ snd (SecondPlayer.markComplete s)
                   = [fetch_POST_progress (tutorialId t) (completedSteps s)
                        (Z.of_nat (size (completedSteps s))
                         =? length_of (sortedAnnotations s))%Z]).
Proof.
  intros Hcur Hin.
  assert (completedSteps s ∪ {[ id cur ]} = completedSteps s) as Hsame.
  { rewrite (union_comm_L _ {[ id cur ]}).
    apply subseteq_union_1_L, singleton_subseteq_l, Hin. }
  assert (exists t, tutorial s = Some t) as [t Ht].
  { apply at_index_Some in Hcur as [_ Hel]. unfold sortedAnnotations in Hel.
    destruct (tutorial s) as [t |]; [eauto | inversion Hel]. }
  unfold SecondPlayer.markComplete. rewrite Hcur, Hsame.
  unfold saveProgress. simpl. rewrite Ht.
  change (sortedAnnotations (setCompletedSteps (completedSteps s) s))
    with (sortedAnnotations s).
  destruct (session s); simpl; destruct (_ <? _)%Z; simpl; repeat split;
    try discriminate; intros _; exists t; split; reflexivity.
Qed.

Lemma second_markComplete_completed_step_witness :
  completedSteps (fst (SecondPlayer.markComplete (learner abc 1 {[ "B" ]} origin)))
  = {[ "B" ]}
  /\ currentStep (fst (SecondPlayer.markComplete (learner abc 1 {[ "B" ]} origin)))
     = 2%Z.
Proof.
  destruct (second_markComplete_completed_step (learner abc 1 {[ "B" ]} origin) B)
    as (Hc & Hs & _).
  - reflexivity.
  - apply (proj1 (has_true _ _)). reflexivity.
  - split; [exact Hc | exact Hs].
Defined.

End SecondPlayerFacts.

(** ** The routes: rejection, listing, deletion, repeated updates *)

Section RouteMore.
Import Table Catalog RouteRest.

Lemma POST_cases (session : option string) (tutorialId : string) (body : Body)
    (newId : string) (now : Z) (db : list Row) :
  (exists st msg, Routes.POST session tutorialId body newId now db
                  = (json_error st msg, db))
  \/ (exists r, Routes.POST session tutorialId body newId now db
                = (json_annotation (Some r), db ++ [r])
                /\ row_id r = newId /\ row_tutorialId r = tutorialId
                /\ session <> None).
Proof.
  unfold Routes.POST. destruct session as [user |]; [| left; eauto].
  destruct (_ || _); [left; eauto |].
  destruct (title body), (x body), (y body), (z body); try (left; eauto; fail);
    destruct (order body); simpl; right; eexists; repeat split; discriminate.
Qed.

Lemma second_POST_cases (session : option string) (tutorialId : string)
    (body : Body) (newId : string) (now : Z) (db : list Row) :
  (exists st msg, SecondRoutes.POST session tutorialId body newId now db
                  = (json_error st msg, db))
  \/ (exists r, SecondRoutes.POST session tutorialId body newId now db
                = (json_annotation (Some r), db ++ [r])
                /\ row_id r = newId /\ row_tutorialId r = tutorialId
                /\ session <> None).
Proof.
  unfold SecondRoutes.POST. destruct session as [user |]; [| left; eauto].
  destruct (_ || _); [left; eauto |].
  destruct (title body), (x body), (y body), (z body); try (left; eauto; fail);
    destruct (order body) as [| | n]; simpl;
    try (right; eexists; repeat split; discriminate);
    destruct (_ || _); right; eexists; repeat split; discriminate.
Qed.

Lemma PUT_cases (session : option string) (tutorialId : string) (body : Body)
    (now : Z) (db : list Row) :
  (exists st msg, Routes.PUT session tutorialId body now db = (json_error st msg, db))
  \/ (exists aid returned db',
        annotationId body = value aid /\ session <> None
        /\ update {| set_title := title body; set_content := content body;
                     set_x := x body; set_y := y body; set_z := z body;
                     set_order := order body; set_imageUrl := imageUrl body;
                     set_updatedAt := now |} (matches aid tutorialId) db
           = Some (returned, db')
        /\ Routes.PUT session tutorialId body now db
           = (json_annotation (head returned), db')).
Proof.
  unfold Routes.PUT. destruct session as [user |]; [| left; eauto].
  destruct (annotationId body) as [| | aid]; [left; eauto | left; eauto |].
  destruct (String.eqb aid ""); [left; eauto |].
  destruct (update _ _ db) as [[returned db'] |] eqn:Hup; [| left; eauto].
  right. exists aid, returned, db'.
  split; [reflexivity |]. split; [discriminate |]. split; [exact Hup | reflexivity].
Qed.

(** X23: a request that is answered with an error leaves the table as it
    was - the create, update and delete handlers of both route files - and
    without a session every handler answers 401. *)
Theorem rejected_requests_change_nothing (session : option string)
    (tutorialId : string) (body : Body) (newId : string) (now : Z)
    (annotationId : option string) (db : list Row) :
  (forall st msg, fst (Routes.POST session tutorialId body newId now db)
                  = json_error st msg ->
                  snd (Routes.POST session tutorialId body newId now db) = db)
  /\ (forall st msg, fst (SecondRoutes.POST session tutorialId body newId now db)
                     = json_error st msg ->
                     snd (SecondRoutes.POST session tutorialId body newId now db) = db)
  /\ (forall st msg, fst (Routes.PUT session tutorialId body now db)
                     = json_error st msg ->
                     snd (Routes.PUT session tutorialId body now db) = db)
  /\ (forall st msg, fst (SecondRoutes.PUT session tutorialId body now db)
                     = json_error st msg ->
                     snd (SecondRoutes.PUT session tutorialId body now db) = db)
  /\ (forall st msg, fst (DELETE session tutorialId annotationId db)
                     = delete_error st msg ->
                     snd (DELETE session tutorialId annotationId db) = db)
  /\ (session = None ->
      Routes.POST session tutorialId body newId now db
      = (json_error 401 "Unauthorized", db)
      /\ SecondRoutes.POST session tutorialId body newId now db
         = (json_error 401 "Unauthorized", db)
      /\ Routes.PUT session tutorialId body now db = (json_error 401 "Unauthorized", db)
      /\ SecondRoutes.PUT session tutorialId body now db
         = (json_error 401 "Unauthorized", db)
      /\ DELETE session tutorialId annotationId db
         = (delete_error 401 "Unauthorized", db)
      /\ GET session tutorialId db = list_error 401 "Unauthorized").
Proof.
  assert (forall b, forall st msg,
             fst (Routes.PUT session tutorialId b now db) = json_error st msg ->
             snd (Routes.PUT session tutorialId b now db) = db) as Hput.
  { intros b st msg.
    destruct (PUT_cases session tutorialId b now db)
      as [(st' & msg' & ->) | (aid & ret & db' & _ & _ & _ & ->)];
      [reflexivity | discriminate]. }
  split; [| split; [| split; [| split; [| split]]]].
  - intros st msg.
    destruct (POST_cases session tutorialId body newId now db)
      as [(st' & msg' & ->) | (r & -> & _)]; [reflexivity | discriminate].
  - intros st msg.
    destruct (second_POST_cases session tutorialId body newId now db)
      as [(st' & msg' & ->) | (r & -> & _)]; [reflexivity | discriminate].
  - apply Hput.
  - rewrite second_PUT_as_first. apply Hput.
  - intros st msg. unfold DELETE. destruct session; [| reflexivity].
    destruct annotationId as [aid |]; [| reflexivity].
    destruct (String.eqb aid ""); [reflexivity | discriminate].
  - intros ->. repeat split.
Qed.

Lemma filter_twice {A : Type} (P : A -> Prop) `{forall a, Decision (P a)}
    (l : list A) :
  filter P (filter P l) = filter P l.
Proof.
  induction l as [| a l IH]; [reflexivity |].
  rewrite (filter_cons _ a). destruct (decide (P a)) as [Hp | Hp]; [| exact IH].
  rewrite (filter_cons _ a). destruct (decide (P a)); [| contradiction].
  rewrite IH. reflexivity.
Qed.

(** X24: a delete that succeeds removes the rows that carry both the
    identifier given and the tutorial of the route, and no other row - a
    row with that identifier in another tutorial stays - and repeating it
    changes nothing more. *)
Theorem DELETE_scoped (session : option string) (tutorialId : string)
    (annotationId : option string) (db db' : list Row) :
  DELETE session tutorialId annotationId db = (delete_success, db') ->
  (forall r, r ∈ db' <->
             r ∈ db /\ ~ (annotationId = Some (row_id r)
                          /\ row_tutorialId r = tutorialId))
  /\ DELETE session tutorialId annotationId db' = (delete_success, db').
Proof.
  unfold DELETE. destruct session as [user |]; [| discriminate].
  destruct annotationId as [aid |]; [| discriminate].
  destruct (String.eqb aid "") eqn:He; [discriminate |].
  intros [= <-]. split.
  - intros r. rewrite list_elem_of_filter, <- not_true_iff_false.
    unfold matches. rewrite andb_true_iff, !String.eqb_eq. split.
    + intros [Hn Hr]. split; [exact Hr |]. intros [Heq Ht].
      injection Heq as Heq. apply Hn. split; congruence.
    + intros [Hr Hn]. split; [| exact Hr]. intros [Heq Ht].
      apply Hn. split; congruence.
  - rewrite filter_twice. reflexivity.
Qed.

Lemma DELETE_scoped_witness :
  (forall r, r ∈ [gaugeRow] <->
             r ∈ table /\ ~ (Some "a1" = Some (row_id r) /\ row_tutorialId r = "t1"))
  /\ DELETE (Some "manager") "t1" (Some "a1") [gaugeRow] = (delete_success, [gaugeRow]).
Proof.
  apply (DELETE_scoped (Some "manager") "t1" (Some "a1") table [gaugeRow]).
  reflexivity.
Defined.

Lemma insertRow_perm (r : Row) (l : list Row) : insertRow r l ≡ₚ r :: l.
Proof.
  induction l as [| r' l IH]; simpl; [reflexivity |].
  destruct (row_order r <=? row_order r')%Z; [reflexivity |].
  rewrite IH. apply Permutation_swap.
Qed.

Lemma orderByOrder_perm (l : list Row) : orderByOrder l ≡ₚ l.
Proof.
  induction l as [| r l IH]; simpl; [reflexivity |].
  rewrite insertRow_perm, IH. reflexivity.
Qed.

Lemma insertRow_sorted (r : Row) (l : list Row) :
  StronglySorted rowByOrder l -> StronglySorted rowByOrder (insertRow r l).
Proof.
  induction l as [| r' l IH]; simpl; intros Hs.
  - repeat constructor.
  - apply StronglySorted_inv in Hs as [Hl Hb].
    destruct (row_order r <=? row_order r')%Z eqn:Hab.
    + apply Z.leb_le in Hab. constructor; [constructor; assumption |].
      constructor; [exact Hab |].
      eapply Forall_impl; [exact Hb |]. unfold rowByOrder. intros c Hc. lia.
    + apply Z.leb_gt in Hab. constructor; [apply IH, Hl |].
      rewrite insertRow_perm. constructor; [unfold rowByOrder; lia | exact Hb].
Qed.

Lemma orderByOrder_sorted (l : list Row) : StronglySorted rowByOrder (orderByOrder l).
Proof.
  induction l as [| r l IH]; simpl; [constructor | apply insertRow_sorted, IH].
Qed.

(** X25: with a session the list handler answers with exactly the rows of
    the tutorial, each as often as the table holds it, in ascending
    [order]. *)
Theorem GET_lists_tutorial_in_order (user tutorialId : string) (db : list Row) :
  exists rows,
    GET (Some user) tutorialId db = list_annotations rows
    /\ StronglySorted rowByOrder rows
    /\ rows ≡ₚ findMany tutorialId db
    /\ (forall r, r ∈ rows <-> r ∈ db /\ row_tutorialId r = tutorialId).
Proof.
  exists (orderByOrder (findMany tutorialId db)).
  split; [reflexivity |]. split; [apply orderByOrder_sorted |].
  split; [apply orderByOrder_perm |].
  intros r. rewrite orderByOrder_perm. unfold findMany.
  rewrite list_elem_of_filter. tauto.
Qed.

(** X26: an annotation that was created is listed from then on: after a
    create that answered with the row, the list of its tutorial is the
    earlier list with that row added, and the list of any other tutorial
    is as before. *)
Theorem POST_then_GET (session : option string) (tutorialId : string)
    (body : Body) (newId : string) (now : Z) (db : list Row) (r : Row) :
  fst (Routes.POST session tutorialId body newId now db) = json_annotation (Some r) ->
  exists before after,
    GET session tutorialId db = list_annotations before
    /\ GET session tutorialId (snd (Routes.POST session tutorialId body newId now db))
       = list_annotations after
    /\ after ≡ₚ r :: before
    /\ forall other, other <> tutorialId ->
         GET session other (snd (Routes.POST session tutorialId body newId now db))
         = GET session other db.
Proof.
  destruct (POST_cases session tutorialId body newId now db)
    as [(st & msg & ->) | (r' & -> & Hid & Htid & Hs)]; [discriminate |].
  simpl. intros [= ->]. destruct session as [user |]; [| congruence].
  exists (orderByOrder (findMany tutorialId db)),
         (orderByOrder (findMany tutorialId (db ++ [r]))).
  split; [reflexivity |]. split; [reflexivity |]. split.
  - rewrite !orderByOrder_perm. unfold findMany.
    rewrite filter_app, filter_cons, filter_nil.
    destruct (decide (row_tutorialId r = tutorialId)); [| contradiction].
    rewrite Permutation_app_comm. reflexivity.
  - intros other Hother. unfold GET, findMany.
    rewrite filter_app, filter_cons, filter_nil.
    destruct (decide (row_tutorialId r = other)); [congruence |].
    rewrite app_nil_r. reflexivity.
Qed.

Lemma POST_then_GET_witness :
  exists before after,
    GET (Some "manager") "t1" table = list_annotations before
    /\ GET (Some "manager") "t1"
         (snd (Routes.POST (Some "manager") "t1" createNext "a3" 200 table))
       = list_annotations after
    /\ after ≡ₚ {| row_id := "a3"; row_tutorialId := "t1"; row_title := "Pump";
                  row_content := ""; row_imageUrl := None;
                  row_x := 7; row_y := 8; row_z := 9; row_order := 3;
                  row_updatedAt := 200 |} :: before
    /\ forall other, other <> "t1" ->
         GET (Some "manager") other
           (snd (Routes.POST (Some "manager") "t1" createNext "a3" 200 table))
         = GET (Some "manager") other table.
Proof.
  apply (POST_then_GET (Some "manager") "t1" createNext "a3" 200 table).
  reflexivity.
Defined.

(** X27: creating an annotation and then deleting it by the identifier it
    was given brings the table back, provided that identifier is not
    empty and no row of the tutorial carried it before. *)
Theorem POST_then_DELETE (session : option string) (tutorialId : string)
    (body : Body) (newId : string) (now : Z) (db : list Row) (r : Row) :
  fst (Routes.POST session tutorialId body newId now db) = json_annotation (Some r) ->
  newId <> "" ->
  (forall r', r' ∈ db -> ~ (row_id r' = newId /\ row_tutorialId r' = tutorialId)) ->
  DELETE session tutorialId (Some newId)
    (snd (Routes.POST session tutorialId body newId now db))
  = (delete_success, db).
Proof.
  destruct (POST_cases session tutorialId body newId now db)
    as [(st & msg & ->) | (r' & -> & Hid & Htid & Hs)]; [discriminate |].
  simpl. intros [= ->] Hne Hfresh. destruct session as [user |]; [| congruence].
  unfold DELETE. apply String.eqb_neq in Hne. rewrite Hne. f_equal.
  rewrite filter_app, filter_cons, filter_nil.
  assert (matches newId tutorialId r = true) as Hr
    by (unfold matches; rewrite Hid, Htid, !String.eqb_refl; reflexivity).
  destruct (decide (matches newId tutorialId r = false)); [congruence |].
  rewrite app_nil_r. clear Hr. induction db as [| a db IH]; [reflexivity |].
  rewrite filter_cons.
  destruct (decide (matches newId tutorialId a = false)) as [Ha | Ha].
  - f_equal. apply IH. intros r' Hr'. apply Hfresh. right. exact Hr'.
  - exfalso. apply not_false_iff_true in Ha. unfold matches in Ha.
    apply andb_true_iff in Ha as [H1 H2]. apply String.eqb_eq in H1, H2.
    apply (Hfresh a); [left | split; assumption].
Qed.

Lemma POST_then_DELETE_witness :
  DELETE (Some "manager") "t1" (Some "a3")
    (snd (Routes.POST (Some "manager") "t1" createFirst "a3" 200 table))
  = (delete_success, table).
Proof.
  apply (POST_then_DELETE (Some "manager") "t1" createFirst "a3" 200 table
           {| row_id := "a3"; row_tutorialId := "t1"; row_title := "Pump";
              row_content := ""; row_imageUrl := None;
              row_x := 7; row_y := 8; row_z := 9; row_order := 1;
              row_updatedAt := 200 |}).
  - reflexivity.
  - discriminate.
  - intros r' Hr' [Hid _]. unfold table in Hr'.
    apply elem_of_cons in Hr' as [-> | Hr']; [discriminate Hid |].
    apply list_elem_of_singleton in Hr' as ->. discriminate Hid.
Defined.

Lemma assign_idem {A : Type} (f : field A) (old new : A) :
  assign f old = Some new -> assign f new = Some new.
Proof. destruct f; simpl; congruence. Qed.

Lemma assign_nullable_idem {A : Type} (f : field A) (old : option A) :
  assign_nullable f (assign_nullable f old) = assign_nullable f old.
Proof. destruct f; reflexivity. Qed.

Lemma applySet_updatedAt (u : UpdateData) (r r' : Row) :
  applySet u r = Some r' -> row_updatedAt r' = set_updatedAt u.
Proof.
  unfold applySet.
  destruct (assign (set_title u) (row_title r)); [|discriminate].
  destruct (assign (set_content u) (row_content r)); [|discriminate].
  destruct (assign (set_x u) (row_x r)); [|discriminate].
  destruct (assign (set_y u) (row_y r)); [|discriminate].
  destruct (assign (set_z u) (row_z r)); [|discriminate].
  destruct (assign (set_order u) (row_order r)); [|discriminate].
  intros [= <-]. reflexivity.
Qed.

Lemma applySet_idem (u : UpdateData) (r r' : Row) :
  applySet u r = Some r' -> applySet u r' = Some r'.
Proof.
  intros Hr. pose proof (applySet_updatedAt u r r' Hr) as Hup.
  apply applySet_spec in Hr as (_ & _ & Ht & Hc & Hx & Hy & Hz & Ho & Hi).
  unfold applySet.
  rewrite (assign_idem _ _ _ Ht), (assign_idem _ _ _ Hc), (assign_idem _ _ _ Hx),
    (assign_idem _ _ _ Hy), (assign_idem _ _ _ Hz), (assign_idem _ _ _ Ho).
  rewrite Hi, assign_nullable_idem, <- Hi, <- Hup. destruct r'. reflexivity.
Qed.

Lemma update_idem (u : UpdateData) (aid tutorialId : string)
    (db returned db' : list Row) :
  update u (matches aid tutorialId) db = Some (returned, db') ->
  update u (matches aid tutorialId) db' = Some (returned, db').
Proof.
  revert returned db'. induction db as [| r db IH]; intros returned db'; simpl.
  - intros [= <- <-]. reflexivity.
  - destruct (update u (matches aid tutorialId) db) as [[ret rest'] |];
      [| discriminate].
    specialize (IH ret rest' eq_refl).
    destruct (matches aid tutorialId r) eqn:Hm.
    + destruct (applySet u r) as [r' |] eqn:Hr; [| discriminate].
      intros [= <- <-]. simpl. rewrite IH.
      pose proof (applySet_spec u r r' Hr) as (Hid & Htid & _).
      assert (matches aid tutorialId r' = true) as ->
        by (unfold matches in *; rewrite Hid, Htid; exact Hm).
      rewrite (applySet_idem u r r' Hr). reflexivity.
    + intros [= <- <-]. simpl. rewrite IH, Hm. reflexivity.
Qed.

(** X28: sending the same update again changes nothing: the second call
    of the update handler gives the same answer (at the same time stamp)
    and leaves the table of the first call. *)
Theorem PUT_twice (session : option string) (tutorialId : string) (body : Body)
    (now : Z) (db : list Row) :
  Routes.PUT session tutorialId body now
    (snd (Routes.PUT session tutorialId body now db))
  = Routes.PUT session tutorialId body now db.
Proof.
  destruct (PUT_cases session tutorialId body now db)
    as [(st & msg & Herr) | (aid & returned & db' & Hid & Hs & Hup & Hok)].
  - rewrite Herr. simpl. exact Herr.
  - rewrite Hok. simpl. apply update_idem in Hup.
    unfold Routes.PUT in *. destruct session as [user |]; [| congruence].
    rewrite Hid in *. destruct (String.eqb aid ""); [discriminate Hok |].
    rewrite Hup. reflexivity.
Qed.

(** X29: what the create handler of the second route file stores as
    order: the order given when it is neither 0 nor 1, the count of the
    tutorial's annotations plus one otherwise.  So it never stores 0, and
    stores 1 only into a tutorial without annotations. *)
Theorem second_POST_order (session : option string) (tutorialId : string)
    (body : Body) (newId : string) (now : Z) (db : list Row) (r : Row) :
  fst (SecondRoutes.POST session tutorialId body newId now db)
  = json_annotation (Some r) ->
  row_order r
  = match order body with
    | value n => if ((n =? 0) || (n =? 1))%Z
                 then (Z.of_nat (length (findMany tutorialId db)) + 1)%Z else n
    | _ => (Z.of_nat (length (findMany tutorialId db)) + 1)%Z
    end
  /\ row_order r <> 0%Z
  /\ (row_order r = 1%Z -> findMany tutorialId db = []).
Proof.
  intros Hok.
  assert (row_order r
          = match order body with
            | value n => if ((n =? 0) || (n =? 1))%Z
                         then (Z.of_nat (length (findMany tutorialId db)) + 1)%Z else n
            | _ => (Z.of_nat (length (findMany tutorialId db)) + 1)%Z
            end) as Horder.
  { revert Hok. unfold SecondRoutes.POST.
    destruct session as [user |]; [| discriminate].
    destruct (_ || _); [discriminate |].
    destruct (title body), (x body), (y body), (z body); try discriminate;
      destruct (order body) as [| | n]; simpl; try (intros [= <-]; reflexivity).
    destruct ((n =? 0)%Z || (n =? 1)%Z); intros [= <-]; reflexivity. }
  split; [exact Horder |].
  rewrite Horder. destruct (order body) as [| | n].
  - split; [lia |]. intros H. apply length_zero_iff_nil. lia.
  - split; [lia |]. intros H. apply length_zero_iff_nil. lia.
  - destruct ((n =? 0)%Z || (n =? 1)%Z) eqn:Hn.
    + split; [lia |]. intros H. apply length_zero_iff_nil. lia.
    + apply orb_false_iff in Hn as [H0 H1].
      apply Z.eqb_neq in H0, H1. split; [exact H0 | contradiction].
Qed.

Lemma second_POST_order_witness :
  row_order {| row_id := "a3"; row_tutorialId := "t1"; row_title := "Pump";
               row_content := ""; row_imageUrl := None;
               row_x := 7; row_y := 8; row_z := 9; row_order := 3;
               row_updatedAt := 200 |}
  = match order createFirst with
    | value n => if ((n =? 0) || (n =? 1))%Z
                 then (Z.of_nat (length (findMany "t1" table)) + 1)%Z else n
    | _ => (Z.of_nat (length (findMany "t1" table)) + 1)%Z
    end
  /\ row_order {| row_id := "a3"; row_tutorialId := "t1"; row_title := "Pump";
                  row_content := ""; row_imageUrl := None;
                  row_x := 7; row_y := 8; row_z := 9; row_order := 3;
                  row_updatedAt := 200 |} <> 0%Z
  /\ (row_order {| row_id := "a3"; row_tutorialId := "t1"; row_title := "Pump";
                   row_content := ""; row_imageUrl := None;
                   row_x := 7; row_y := 8; row_z := 9; row_order := 3;
                   row_updatedAt := 200 |} = 1%Z -> findMany "t1" table = []).
Proof.
  apply (second_POST_order (Some "manager") "t1" createFirst "a3" 200 table).
  reflexivity.
Defined.

End RouteMore.
